(** * MGMTD backend client connection adapter (mgmtd/mgmt_be_adapter.c)

    A shallow embedding of the XPath matcher, the subscription resolver and
    the adapter state machine, with the properties of the specification
    stated over it. *)

From stdpp Require Import gmap strings list pretty.
From Stdlib Require Import ZArith Ascii String Lia.

Open Scope Z_scope.

(** ** C strings *)

(** [s[i]] for a NUL-terminated string: the terminator is read at index
    [strlen s]; for a negative index the byte that memory holds in front of
    the string is read, which is [before]. *)
Definition char_at (before : ascii) (s : string) (i : Z) : ascii :=
  if i <? 0 then before
  else match String.get (Z.to_nat i) s with
       | Some c => c
       | None => Ascii.zero
       end.

Definition strlen (s : string) : Z := Z.of_nat (String.length s).

Definition is_char (c d : ascii) : bool := Ascii.eqb c d.

(** ** The XPath matcher: [mgmt_be_eval_regexp_match] *)

Module Matcher.

(** The local variables of [mgmt_be_eval_regexp_match] that live across
    loop iterations. *)
Record locals := Locals {
  match_len : Z;
  re_indx : Z;
  xp_indx : Z;
  matching : bool;          (* [match] *)
  re_wild : bool;
  xp_wild : bool;
  delim : bool;
  enter_wild_match : bool;
  wild_delim : ascii
}.

Definition init : locals :=
  {| match_len := 0; re_indx := 0; xp_indx := 0; matching := true;
     re_wild := false; xp_wild := false; delim := false;
     enter_wild_match := false; wild_delim := Ascii.zero |}.

Section Loop.

(** [re_before], [xp_before]: the bytes in front of the two strings;
    [re], [xp]: [xpath_regexp] and [xpath]; [rexp_len], [xpath_len]: the
    lengths after the trailing wildcard was removed. *)
Variables (re_before xp_before : ascii) (re xp : string).
Variables (rexp_len xpath_len : Z).

Let rc (i : Z) : ascii := char_at re_before re i.
Let xc (i : Z) : ascii := char_at xp_before xp i.

(** The loop condition. *)
Definition loop_cond (s : locals) : bool :=
  matching s && (re_indx s <? rexp_len) && (xp_indx s <? xpath_len).

(** [match = (xpath_regexp[re_indx] == xpath[xp_indx])] *)
Definition compare_chars (s : locals) : locals :=
  {| match_len := match_len s; re_indx := re_indx s;
     xp_indx := xp_indx s;
     matching := is_char (rc (re_indx s)) (xc (xp_indx s));
     re_wild := re_wild s; xp_wild := xp_wild s; delim := delim s;
     enter_wild_match := enter_wild_match s;
     wild_delim := wild_delim s |}.

(** "Check if we need to enter wildcard matching." *)
Definition enter_wild (s : locals) : locals :=
  if negb (enter_wild_match s) && negb (matching s)
     && (is_char (rc (re_indx s)) "*" || is_char (xc (xp_indx s)) "*")
  then
    let e := is_char (rc (re_indx s - 1)) "/"
             || is_char (rc (re_indx s - 1)) "'"
             || is_char (xc (xp_indx s - 1)) "/"
             || is_char (xc (xp_indx s - 1)) "'" in
    if e then
      if is_char (rc (re_indx s)) "*" then
        {| match_len := match_len s; re_indx := re_indx s;
           xp_indx := xp_indx s; matching := matching s;
           re_wild := true; xp_wild := xp_wild s; delim := delim s;
           enter_wild_match := true;
           wild_delim := rc (re_indx s - 1) |}
      else if is_char (xc (xp_indx s)) "*" then
        {| match_len := match_len s; re_indx := re_indx s;
           xp_indx := xp_indx s; matching := matching s;
           re_wild := re_wild s; xp_wild := true; delim := delim s;
           enter_wild_match := true;
           wild_delim := xc (xp_indx s - 1) |}
      else
        {| match_len := match_len s; re_indx := re_indx s;
           xp_indx := xp_indx s; matching := matching s;
           re_wild := re_wild s; xp_wild := xp_wild s; delim := delim s;
           enter_wild_match := true; wild_delim := wild_delim s |}
    else
      {| match_len := match_len s; re_indx := re_indx s;
         xp_indx := xp_indx s; matching := matching s;
         re_wild := re_wild s; xp_wild := xp_wild s; delim := delim s;
         enter_wild_match := false; wild_delim := wild_delim s |}
  else s.

(** "Check if we need to exit wildcard matching." *)
Definition exit_wild (s : locals) : locals :=
  if enter_wild_match s then
    if re_wild s && is_char (xc (xp_indx s)) (wild_delim s) then
      {| match_len := match_len s;
         re_indx := if re_indx s <? rexp_len - 1 then re_indx s + 1
                    else re_indx s;
         xp_indx := xp_indx s; matching := matching s;
         re_wild := false; xp_wild := xp_wild s; delim := delim s;
         enter_wild_match := false; wild_delim := wild_delim s |}
    else if xp_wild s && is_char (rc (re_indx s)) (wild_delim s) then
      {| match_len := match_len s; re_indx := re_indx s;
         xp_indx := if xp_indx s <? xpath_len - 1 then xp_indx s + 1
                    else xp_indx s;
         matching := matching s;
         re_wild := re_wild s; xp_wild := false; delim := delim s;
         enter_wild_match := false; wild_delim := wild_delim s |}
    else s
  else s.

(** Both sides hold the same delimiter, one of [/], [\]] and [\[]. *)
Definition both_delim (s : locals) : bool :=
  (is_char (rc (re_indx s)) "/" && is_char (xc (xp_indx s)) "/")
  || (is_char (rc (re_indx s)) "]" && is_char (xc (xp_indx s)) "]")
  || (is_char (rc (re_indx s)) "[" && is_char (xc (xp_indx s)) "[").

(** The second assignment of [match], the delimiter count and the advance
    of the two indices. *)
Definition count_and_advance (s : locals) : locals :=
  let m := xp_wild s || re_wild s
           || is_char (rc (re_indx s)) (xc (xp_indx s)) in
  let d := both_delim s in
  {| match_len :=
       if d && m && negb (re_indx s =? 0) && negb (xp_indx s =? 0)
          && negb (delim s)
       then match_len s + 1 else match_len s;
     re_indx := if re_wild s then re_indx s else re_indx s + 1;
     xp_indx := if xp_wild s then xp_indx s else xp_indx s + 1;
     matching := m;
     re_wild := re_wild s; xp_wild := xp_wild s;
     delim := d;
     enter_wild_match := enter_wild_match s;
     wild_delim := wild_delim s |}.

(** One iteration of the loop. *)
Definition loop_body (s : locals) : locals :=
  count_and_advance (exit_wild (enter_wild (compare_chars s))).

(** The loop, run for at most [fuel] iterations. *)
Fixpoint loop (fuel : nat) (s : locals) : locals :=
  match fuel with
  | O => s
  | S fuel' => if loop_cond s then loop fuel' (loop_body s) else s
  end.

(** "If we finished matching and the last token was a full match
    increment the match count appropriately." *)
Definition finish (s : locals) : Z :=
  if matching s && negb (delim s)
     && (is_char (rc (re_indx s)) "/" || is_char (rc (re_indx s)) "]")
  then match_len s + 1 else match_len s.

End Loop.

(** "Remove the trailing wildcard from the regexp and Xpath." *)
Definition trim_len (s : string) : Z :=
  let len := strlen s in
  if negb (len =? 0) && is_char (char_at Ascii.zero s (len - 1)) "*"
  then len - 1 else len.

(** Every iteration advances one of the two indices, so the loop is over
    after at most [rexp_len + xpath_len] iterations. *)
Definition fuel_for (re xp : string) : nat :=
  Z.to_nat (trim_len re + trim_len xp).

Definition final (re_before xp_before : ascii) (re xp : string) : locals :=
  loop re_before xp_before re xp (trim_len re) (trim_len xp)
       (fuel_for re xp) init.

(** The wildcard flags: at most one side absorbs a wildcard, and only while
    [enter_wild_match] is set. *)
Definition wild_ok (s : locals) : Prop :=
  (re_wild s = true -> xp_wild s = false)
  /\ (enter_wild_match s = false -> re_wild s = false /\ xp_wild s = false).

(** The loop invariant: the indices stay inside the trimmed strings and the
    match count is bounded by the progress made. *)
Definition inv (rexp_len xpath_len : Z) (s : locals) : Prop :=
  0 <= re_indx s <= rexp_len /\ 0 <= xp_indx s <= xpath_len
  /\ 0 <= match_len s <= re_indx s + xp_indx s
  /\ wild_ok s.

End Matcher.

Definition mgmt_be_eval_regexp_match
    (re_before xp_before : ascii) (xpath_regexp xpath : string) : Z :=
  let rexp_len := Matcher.trim_len xpath_regexp in
  let xpath_len := Matcher.trim_len xpath in
  if (rexp_len =? 0) || (xpath_len =? 0) then 0
  else Matcher.finish re_before xpath_regexp
         (Matcher.final re_before xp_before xpath_regexp xpath).


(** ** The subscription map and the resolver *)

(** Modelled from the spec: the element type of [xpath_subscr] in
    [struct mgmt_be_client_subscr_info] (declared in
    mgmtd/mgmt_be_adapter.h): the capability triple
    [{validate_config, notify_config, own_oper_data}] of one client. *)
Record xpath_subscr := XpathSubscr {
  validate_config : bool;
  notify_config : bool;
  own_oper_data : bool
}.

(** Modelled from the spec: [subscribed] overlays the three capability bits:
    a client with no bit set is not subscribed. *)
Definition subscribed (r : xpath_subscr) : bool :=
  validate_config r || notify_config r || own_oper_data r.

(** The element after [memset (.., 0, ..)]. *)
Definition subscr_zero : xpath_subscr :=
  {| validate_config := false; notify_config := false;
     own_oper_data := false |}.

(** [struct mgmt_be_client_subscr_info]: the array [xpath_subscr], one
    element for each client id below [MGMTD_BE_CLIENT_ID_MAX]. *)
Abbreviation mgmt_be_client_subscr_info := (list xpath_subscr).

Record mgmt_be_xpath_map_reg := XpathMapReg {
  reg_xpath_regexp : string;
  (* the array [be_clients], its [MGMTD_BE_CLIENT_ID_MAX] sentinel included *)
  be_clients : list nat
}.

Record mgmt_be_xpath_regexp_map := XpathRegexpMap {
  xpath_regexp : string;
  be_subscrs : mgmt_be_client_subscr_info
}.

Definition MGMTD_BE_MAX_NUM_XPATH_MAP : nat := 256.

Section SubscriptionMap.

(** The sentinel of [enum mgmt_be_client_id]; the client ids are the numbers
    below it. *)
Variable MGMTD_BE_CLIENT_ID_MAX : nat.

Definition subscr_info_zero : mgmt_be_client_subscr_info :=
  replicate MGMTD_BE_CLIENT_ID_MAX subscr_zero.

(** The three assignments of [mgmt_be_xpath_map_init] to one element. *)
Definition set_all_caps (r : xpath_subscr) : xpath_subscr :=
  let r1 := {| validate_config := true; notify_config := notify_config r;
               own_oper_data := own_oper_data r |} in
  let r2 := {| validate_config := validate_config r1; notify_config := true;
               own_oper_data := own_oper_data r1 |} in
  {| validate_config := validate_config r2;
     notify_config := notify_config r2; own_oper_data := true |}.

(** The inner loop of [mgmt_be_xpath_map_init]: walk [be_clients] up to the
    sentinel. *)
Fixpoint init_clients (clients : list nat)
    (subs : mgmt_be_client_subscr_info) : mgmt_be_client_subscr_info :=
  match clients with
  | [] => subs
  | id :: rest =>
      if (id =? MGMTD_BE_CLIENT_ID_MAX)%nat then subs
      else if (id <? MGMTD_BE_CLIENT_ID_MAX)%nat then
        init_clients rest (alter set_all_caps id subs)
      else init_clients rest subs
  end.

(** [mgmt_be_xpath_map_init]: the entries [0 .. mgmt_num_xpath_maps - 1] of
    [mgmt_xpath_map], which [mgmt_be_adapter_init] has cleared before. *)
Definition mgmt_be_xpath_map_init (reg : list mgmt_be_xpath_map_reg)
    : list mgmt_be_xpath_regexp_map :=
  (fun r => {| xpath_regexp := reg_xpath_regexp r;
               be_subscrs := init_clients (be_clients r)
                                          subscr_info_zero |}) <$> reg.

(** The root-scope test of [mgmt_be_get_subscr_info_for_xpath]. *)
Definition root_xp (xpath : string) : bool :=
  (strlen xpath <=? 2)
  && is_char (char_at Ascii.zero xpath 0) "/"
  && (is_char (char_at Ascii.zero xpath 1) Ascii.zero
      || is_char (char_at Ascii.zero xpath 1) "*").

Section Resolve.

(** The matcher the resolver calls. *)
Variable eval_match : string -> string -> Z.

(** One iteration of the first loop: [(reg_maps[0 .. num_reg-1], max_match)]
    before and after. *)
Definition select_map (xpath : string) (root : bool)
    (acc : list mgmt_be_client_subscr_info * Z)
    (e : mgmt_be_xpath_regexp_map) : list mgmt_be_client_subscr_info * Z :=
  let '(reg_maps, max_match) := acc in
  if root then (reg_maps ++ [be_subscrs e], max_match)
  else
    let m := eval_match (xpath_regexp e) xpath in
    if (m =? 0) || (m <? max_match) then acc
    else if m >? max_match then ([be_subscrs e], m)
    else (reg_maps ++ [be_subscrs e], max_match).

(** The body of [FOREACH_MGMTD_BE_CLIENT_ID] in the second loop. *)
Definition copy_client (src : mgmt_be_client_subscr_info)
    (out : mgmt_be_client_subscr_info) (id : nat)
    : mgmt_be_client_subscr_info :=
  match src !! id with
  | Some r => if subscribed r then <[id := r]> out else out
  | None => out
  end.

Definition copy_subscribed (out src : mgmt_be_client_subscr_info)
    : mgmt_be_client_subscr_info :=
  foldl (copy_client src) out (seq 0 MGMTD_BE_CLIENT_ID_MAX).

(** [mgmt_be_get_subscr_info_for_xpath] for a non-NULL [subscr_info]. *)
Definition get_subscr_info (mgmt_xpath_map : list mgmt_be_xpath_regexp_map)
    (xpath : string) : mgmt_be_client_subscr_info :=
  let reg_maps :=
    fst (foldl (select_map xpath (root_xp xpath)) ([], 0) mgmt_xpath_map) in
  foldl copy_subscribed subscr_info_zero reg_maps.

(** [mgmt_be_get_subscr_info_for_xpath]: [subscr_info] is [None] for a NULL
    pointer; the result is the return value and what [subscr_info] points
    to afterwards. *)
Definition get_subscr_info_for_xpath
    (mgmt_xpath_map : list mgmt_be_xpath_regexp_map) (xpath : string)
    (subscr_info : option mgmt_be_client_subscr_info)
    : Z * option mgmt_be_client_subscr_info :=
  match subscr_info with
  | None => (-1, None)
  | Some _ => (0, Some (get_subscr_info mgmt_xpath_map xpath))
  end.

End Resolve.

(** The byte that memory holds in front of each string. *)
Variable byte_before : string -> ascii.

Definition eval_regexp_match (xpath_regexp xpath : string) : Z :=
  mgmt_be_eval_regexp_match (byte_before xpath_regexp) (byte_before xpath)
                            xpath_regexp xpath.

Definition mgmt_be_get_subscr_info_for_xpath :=
  get_subscr_info_for_xpath eval_regexp_match.

End SubscriptionMap.


(** ** The adapters *)

(** Addresses of adapter objects. *)
Abbreviation ptr := nat.

Inductive mgmt_be_event :=
| MGMTD_BE_SERVER
| MGMTD_BE_CONN_INIT
| MGMTD_BE_CONN_READ
| MGMTD_BE_CONN_WRITE
| MGMTD_BE_CONN_WRITES_ON
| MGMTD_BE_PROC_MSG
| MGMTD_BE_SCHED_CFG_PREPARE
| MGMTD_BE_RESCHED_CFG_PREPARE
| MGMTD_BE_SCHED_CFG_APPLY
| MGMTD_BE_RESCHED_CFG_APPLY.

(** What [mgmt_msg_read] and [mgmt_msg_write] report. *)
Inductive mgmt_msg_rsched := MSR_SCHED_BOTH | MSR_SCHED_STREAM | MSR_DISCONNECT.

Inductive mgmt_msg_wsched :=
| MSW_SCHED_NONE
| MSW_SCHED_STREAM
| MSW_SCHED_WRITES_OFF
| MSW_DISCONNECT.

(** [Mgmtd__BeMessage], by [message_case]. *)
Inductive be_msg :=
| SUBSCR_REQ (client_name : string) (subscribe_xpaths : bool)
             (xpath_reg : list string)
| SUBSCR_REPLY
| TXN_REQ (txn_id : Z) (create : bool)
| TXN_REPLY (txn_id : Z) (create success : bool)
| CFG_DATA_REQ (txn_id batch_id : Z) (data_req : list string)
               (end_of_data : bool)
| CFG_DATA_REPLY (txn_id batch_id : Z) (success : bool)
                 (error_if_any : option string)
| CFG_APPLY_REQ (txn_id : Z)
| CFG_APPLY_REPLY (txn_id : Z) (success : bool) (batch_ids : list Z)
                  (error_if_any : option string)
| GET_REQ
| GET_REPLY
| CFG_CMD_REQ
| CFG_CMD_REPLY
| SHOW_CMD_REQ
| SHOW_CMD_REPLY
| NOTIFY_DATA
| MESSAGE_NOT_SET.

(** The calls into the transaction module, in the order they are made. *)
Inductive txn_call :=
| txn_notify_be_adapter_conn (adapter : ptr) (connect : bool)
| txn_notify_be_txn_reply (txn_id : Z) (create success : bool)
                          (adapter : ptr)
| txn_notify_be_cfgdata_reply (txn_id batch_id : Z) (success : bool)
                              (error_if_any : option string) (adapter : ptr)
| txn_notify_be_cfg_apply_reply (txn_id : Z) (success : bool)
                                (batch_ids : list Z)
                                (error_if_any : option string)
                                (adapter : ptr).

(** Modelled from the spec: a node the datastore iterator yields, with its
    xpath and its serialized value. *)
Record ds_node := DsNode { node_xpath : string; node_value : string }.

(** Modelled from the spec: a record of the pending change set, a "created"
    change keyed by the node's xpath with its sequence number. *)
Record nb_config_cb := NbConfigCb {
  cb_xpath : string;
  cb_seq : Z;
  cb_value : string
}.

Abbreviation nb_config_cbs := (list nb_config_cb).

(** [struct mgmt_be_client_adapter]. An event handle is [true] while the
    event is armed. [mstate] is the outbound queue of the framer. The
    reference count is an [int] that the code moves by one at a time; it is
    taken as an integer here, far from [INT_MAX]. *)
Record adapter := Adapter {
  conn_fd : Z;
  conn_su : nat;
  name : string;
  id : nat;
  flags : Z;
  refcount : Z;
  conn_init_ev : bool;
  conn_read_ev : bool;
  conn_write_ev : bool;
  conn_writes_on : bool;
  proc_msg_ev : bool;
  mstate : list be_msg;
  cfg_chgs : nb_config_cbs
}.

Definition set_conn_fd (v : Z) (x : adapter) : adapter :=
  {| conn_fd := v; conn_su := conn_su x; name := name x; id := id x; flags
     := flags x; refcount := refcount x; conn_init_ev := conn_init_ev x;
     conn_read_ev := conn_read_ev x; conn_write_ev := conn_write_ev x;
     conn_writes_on := conn_writes_on x; proc_msg_ev := proc_msg_ev x;
     mstate := mstate x; cfg_chgs := cfg_chgs x |}.

Definition set_conn_su (v : nat) (x : adapter) : adapter :=
  {| conn_fd := conn_fd x; conn_su := v; name := name x; id := id x; flags
     := flags x; refcount := refcount x; conn_init_ev := conn_init_ev x;
     conn_read_ev := conn_read_ev x; conn_write_ev := conn_write_ev x;
     conn_writes_on := conn_writes_on x; proc_msg_ev := proc_msg_ev x;
     mstate := mstate x; cfg_chgs := cfg_chgs x |}.

Definition set_name (v : string) (x : adapter) : adapter :=
  {| conn_fd := conn_fd x; conn_su := conn_su x; name := v; id := id x;
     flags := flags x; refcount := refcount x; conn_init_ev := conn_init_ev
     x; conn_read_ev := conn_read_ev x; conn_write_ev := conn_write_ev x;
     conn_writes_on := conn_writes_on x; proc_msg_ev := proc_msg_ev x;
     mstate := mstate x; cfg_chgs := cfg_chgs x |}.

Definition set_id (v : nat) (x : adapter) : adapter :=
  {| conn_fd := conn_fd x; conn_su := conn_su x; name := name x; id := v;
     flags := flags x; refcount := refcount x; conn_init_ev := conn_init_ev
     x; conn_read_ev := conn_read_ev x; conn_write_ev := conn_write_ev x;
     conn_writes_on := conn_writes_on x; proc_msg_ev := proc_msg_ev x;
     mstate := mstate x; cfg_chgs := cfg_chgs x |}.

Definition set_flags (v : Z) (x : adapter) : adapter :=
  {| conn_fd := conn_fd x; conn_su := conn_su x; name := name x; id := id
     x; flags := v; refcount := refcount x; conn_init_ev := conn_init_ev x;
     conn_read_ev := conn_read_ev x; conn_write_ev := conn_write_ev x;
     conn_writes_on := conn_writes_on x; proc_msg_ev := proc_msg_ev x;
     mstate := mstate x; cfg_chgs := cfg_chgs x |}.

Definition set_refcount (v : Z) (x : adapter) : adapter :=
  {| conn_fd := conn_fd x; conn_su := conn_su x; name := name x; id := id
     x; flags := flags x; refcount := v; conn_init_ev := conn_init_ev x;
     conn_read_ev := conn_read_ev x; conn_write_ev := conn_write_ev x;
     conn_writes_on := conn_writes_on x; proc_msg_ev := proc_msg_ev x;
     mstate := mstate x; cfg_chgs := cfg_chgs x |}.

Definition set_conn_init_ev (v : bool) (x : adapter) : adapter :=
  {| conn_fd := conn_fd x; conn_su := conn_su x; name := name x; id := id
     x; flags := flags x; refcount := refcount x; conn_init_ev := v;
     conn_read_ev := conn_read_ev x; conn_write_ev := conn_write_ev x;
     conn_writes_on := conn_writes_on x; proc_msg_ev := proc_msg_ev x;
     mstate := mstate x; cfg_chgs := cfg_chgs x |}.

Definition set_conn_read_ev (v : bool) (x : adapter) : adapter :=
  {| conn_fd := conn_fd x; conn_su := conn_su x; name := name x; id := id
     x; flags := flags x; refcount := refcount x; conn_init_ev :=
     conn_init_ev x; conn_read_ev := v; conn_write_ev := conn_write_ev x;
     conn_writes_on := conn_writes_on x; proc_msg_ev := proc_msg_ev x;
     mstate := mstate x; cfg_chgs := cfg_chgs x |}.

Definition set_conn_write_ev (v : bool) (x : adapter) : adapter :=
  {| conn_fd := conn_fd x; conn_su := conn_su x; name := name x; id := id
     x; flags := flags x; refcount := refcount x; conn_init_ev :=
     conn_init_ev x; conn_read_ev := conn_read_ev x; conn_write_ev := v;
     conn_writes_on := conn_writes_on x; proc_msg_ev := proc_msg_ev x;
     mstate := mstate x; cfg_chgs := cfg_chgs x |}.

Definition set_conn_writes_on (v : bool) (x : adapter) : adapter :=
  {| conn_fd := conn_fd x; conn_su := conn_su x; name := name x; id := id
     x; flags := flags x; refcount := refcount x; conn_init_ev :=
     conn_init_ev x; conn_read_ev := conn_read_ev x; conn_write_ev :=
     conn_write_ev x; conn_writes_on := v; proc_msg_ev := proc_msg_ev x;
     mstate := mstate x; cfg_chgs := cfg_chgs x |}.

Definition set_proc_msg_ev (v : bool) (x : adapter) : adapter :=
  {| conn_fd := conn_fd x; conn_su := conn_su x; name := name x; id := id
     x; flags := flags x; refcount := refcount x; conn_init_ev :=
     conn_init_ev x; conn_read_ev := conn_read_ev x; conn_write_ev :=
     conn_write_ev x; conn_writes_on := conn_writes_on x; proc_msg_ev := v;
     mstate := mstate x; cfg_chgs := cfg_chgs x |}.

Definition set_mstate (v : list be_msg) (x : adapter) : adapter :=
  {| conn_fd := conn_fd x; conn_su := conn_su x; name := name x; id := id
     x; flags := flags x; refcount := refcount x; conn_init_ev :=
     conn_init_ev x; conn_read_ev := conn_read_ev x; conn_write_ev :=
     conn_write_ev x; conn_writes_on := conn_writes_on x; proc_msg_ev :=
     proc_msg_ev x; mstate := v; cfg_chgs := cfg_chgs x |}.

Definition set_cfg_chgs (v : nb_config_cbs) (x : adapter) : adapter :=
  {| conn_fd := conn_fd x; conn_su := conn_su x; name := name x; id := id
     x; flags := flags x; refcount := refcount x; conn_init_ev :=
     conn_init_ev x; conn_read_ev := conn_read_ev x; conn_write_ev :=
     conn_write_ev x; conn_writes_on := conn_writes_on x; proc_msg_ev :=
     proc_msg_ev x; mstate := mstate x; cfg_chgs := v |}.

(** [XCALLOC]: a zeroed object. *)
Definition adapter_zero : adapter :=
  {| conn_fd := 0; conn_su := 0; name := ""; id := 0; flags := 0;
     refcount := 0; conn_init_ev := false; conn_read_ev := false;
     conn_write_ev := false; conn_writes_on := false; proc_msg_ev := false;
     mstate := []; cfg_chgs := [] |}.

(** The static variables of the file, the allocated adapter objects, and the
    calls made into the transaction module and the datastore. A cell of
    [mgmt_be_adapters_by_id] that is absent holds NULL. [mgmt_debug_be] is
    the debug flag of the daemon, which the file reads and never writes. *)
Record state := State {
  heap : gmap ptr adapter;
  next_addr : ptr;
  mgmt_be_adapters : list ptr;
  mgmt_be_adapters_by_id : gmap nat ptr;
  mgmt_xpath_map : list mgmt_be_xpath_regexp_map;
  mgmt_be_adapter_tm : bool;
  txn_log : list txn_call;
  ds_iter_log : list string;
  mgmt_debug_be : bool
}.

Definition set_heap (v : gmap ptr adapter) (x : state) : state :=
  {| heap := v; next_addr := next_addr x; mgmt_be_adapters :=
     mgmt_be_adapters x; mgmt_be_adapters_by_id := mgmt_be_adapters_by_id
     x; mgmt_xpath_map := mgmt_xpath_map x; mgmt_be_adapter_tm :=
     mgmt_be_adapter_tm x; txn_log := txn_log x; ds_iter_log := ds_iter_log
     x;
     mgmt_debug_be := mgmt_debug_be x |}.

Definition set_next_addr (v : ptr) (x : state) : state :=
  {| heap := heap x; next_addr := v; mgmt_be_adapters := mgmt_be_adapters
     x; mgmt_be_adapters_by_id := mgmt_be_adapters_by_id x; mgmt_xpath_map
     := mgmt_xpath_map x; mgmt_be_adapter_tm := mgmt_be_adapter_tm x;
     txn_log := txn_log x; ds_iter_log := ds_iter_log x;
     mgmt_debug_be := mgmt_debug_be x |}.

Definition set_mgmt_be_adapters (v : list ptr) (x : state) : state :=
  {| heap := heap x; next_addr := next_addr x; mgmt_be_adapters := v;
     mgmt_be_adapters_by_id := mgmt_be_adapters_by_id x; mgmt_xpath_map :=
     mgmt_xpath_map x; mgmt_be_adapter_tm := mgmt_be_adapter_tm x; txn_log
     := txn_log x; ds_iter_log := ds_iter_log x;
     mgmt_debug_be := mgmt_debug_be x |}.

Definition set_mgmt_be_adapters_by_id (v : gmap nat ptr) (x : state) : state :=
  {| heap := heap x; next_addr := next_addr x; mgmt_be_adapters :=
     mgmt_be_adapters x; mgmt_be_adapters_by_id := v; mgmt_xpath_map :=
     mgmt_xpath_map x; mgmt_be_adapter_tm := mgmt_be_adapter_tm x; txn_log
     := txn_log x; ds_iter_log := ds_iter_log x;
     mgmt_debug_be := mgmt_debug_be x |}.

Definition set_mgmt_xpath_map (v : list mgmt_be_xpath_regexp_map) (x : state) : state :=
  {| heap := heap x; next_addr := next_addr x; mgmt_be_adapters :=
     mgmt_be_adapters x; mgmt_be_adapters_by_id := mgmt_be_adapters_by_id
     x; mgmt_xpath_map := v; mgmt_be_adapter_tm := mgmt_be_adapter_tm x;
     txn_log := txn_log x; ds_iter_log := ds_iter_log x;
     mgmt_debug_be := mgmt_debug_be x |}.

Definition set_mgmt_be_adapter_tm (v : bool) (x : state) : state :=
  {| heap := heap x; next_addr := next_addr x; mgmt_be_adapters :=
     mgmt_be_adapters x; mgmt_be_adapters_by_id := mgmt_be_adapters_by_id
     x; mgmt_xpath_map := mgmt_xpath_map x; mgmt_be_adapter_tm := v;
     txn_log := txn_log x; ds_iter_log := ds_iter_log x;
     mgmt_debug_be := mgmt_debug_be x |}.

Definition set_txn_log (v : list txn_call) (x : state) : state :=
  {| heap := heap x; next_addr := next_addr x; mgmt_be_adapters :=
     mgmt_be_adapters x; mgmt_be_adapters_by_id := mgmt_be_adapters_by_id
     x; mgmt_xpath_map := mgmt_xpath_map x; mgmt_be_adapter_tm :=
     mgmt_be_adapter_tm x; txn_log := v; ds_iter_log := ds_iter_log x;
     mgmt_debug_be := mgmt_debug_be x |}.

Definition set_ds_iter_log (v : list string) (x : state) : state :=
  {| heap := heap x; next_addr := next_addr x; mgmt_be_adapters :=
     mgmt_be_adapters x; mgmt_be_adapters_by_id := mgmt_be_adapters_by_id
     x; mgmt_xpath_map := mgmt_xpath_map x; mgmt_be_adapter_tm :=
     mgmt_be_adapter_tm x; txn_log := txn_log x; ds_iter_log := v;
     mgmt_debug_be := mgmt_debug_be x |}.

Definition set_mgmt_debug_be (v : bool) (x : state) : state :=
  {| heap := heap x; next_addr := next_addr x; mgmt_be_adapters :=
     mgmt_be_adapters x; mgmt_be_adapters_by_id := mgmt_be_adapters_by_id
     x; mgmt_xpath_map := mgmt_xpath_map x; mgmt_be_adapter_tm :=
     mgmt_be_adapter_tm x; txn_log := txn_log x; ds_iter_log := ds_iter_log
     x; mgmt_debug_be := v |}.

(** ** Running the code: state, assertions and invalid memory accesses *)

Inductive fault :=
| AssertionFailed     (* an [assert] does not hold: the daemon aborts *)
| UseAfterFree        (* an adapter is read or written after [XFREE] *)
| OutOfBounds.        (* an array is indexed outside its bounds *)

Inductive outcome (A : Type) :=
| Ok (x : A)
| Fault (f : fault).

Arguments Ok {A} x.
Arguments Fault {A} f.

Definition M (A : Type) : Type := state -> outcome (A * state).

Definition ret {A} (x : A) : M A := fun st => Ok (x, st).

Definition bind {A B} (m : M A) (k : A -> M B) : M B :=
  fun st => match m st with
            | Ok (x, st') => k x st'
            | Fault f => Fault f
            end.

Definition raise {A} (f : fault) : M A := fun _ => Fault f.

Definition gets {A} (f : state -> A) : M A := fun st => Ok (f st, st).

Definition modify_state (f : state -> state) : M unit :=
  fun st => Ok (tt, f st).

Definition assert (b : bool) : M unit :=
  if b then ret tt else raise AssertionFailed.

Notation "x <- m ;; k" := (bind m (fun x => k))
  (at level 100, m at next level, right associativity, only parsing).
Notation "m ;;; k" := (bind m (fun _ => k))
  (at level 100, right associativity, only parsing).

(** [for] over a list, the state threaded through. *)
Fixpoint for_each {A} (l : list A) (body : A -> M unit) : M unit :=
  match l with
  | [] => ret tt
  | x :: l' => body x ;;; for_each l' body
  end.

(** Reading and writing the object at address [a]. *)
Definition load (a : ptr) : M adapter :=
  fun st => match heap st !! a with
            | Some ad => Ok (ad, st)
            | None => Fault UseAfterFree
            end.

Definition store (a : ptr) (ad : adapter) : M unit :=
  fun st => match heap st !! a with
            | Some _ => Ok (tt, set_heap (<[a := ad]> (heap st)) st)
            | None => Fault UseAfterFree
            end.

Definition update (a : ptr) (f : adapter -> adapter) : M unit :=
  ad <- load a ;; store a (f ad).

(** [XCALLOC] and [XFREE]. *)
Definition xcalloc : M ptr :=
  fun st => let a := next_addr st in
            Ok (a, set_next_addr (S a)
                     (set_heap (<[a := adapter_zero]> (heap st)) st)).

Definition xfree (a : ptr) : M unit :=
  modify_state (fun st => set_heap (delete a (heap st)) st).

(** The typesafe list [mgmt_be_adapters]. Unlinking an adapter that is not
    in the list leaves the list: a disconnect that drops the last reference
    unlinks the adapter twice, in [mgmt_be_adapter_disconnect] and in
    [mgmt_be_adapter_unlock]. *)
Definition mgmt_be_adapters_del (a : ptr) : M unit :=
  modify_state (fun st =>
    set_mgmt_be_adapters (filter (fun p => p <> a) (mgmt_be_adapters st)) st).

Definition mgmt_be_adapters_add_tail (a : ptr) : M unit :=
  modify_state (fun st =>
    set_mgmt_be_adapters (mgmt_be_adapters st ++ [a]) st).

(** A call into the transaction module. *)
Definition txn (c : txn_call) : M unit :=
  modify_state (fun st => set_txn_log (txn_log st ++ [c]) st).

(** [MGMTD_BE_ADAPTER_DBG], as it is defined without
    [REDIRECT_DEBUG_TO_STDERR]: the arguments of the log are evaluated when
    [mgmt_debug_be] is set, and only then; [args] is what they read. *)
Definition MGMTD_BE_ADAPTER_DBG (args : M unit) : M unit :=
  debug <- gets mgmt_debug_be ;;
  if debug then args else ret tt.

(** [array[i]], for the array of a repeated field of a decoded message: the
    array is NULL when the field has no element. *)
Definition element (array : list Z) (i : Z) : M Z :=
  match (if 0 <=? i then array !! Z.to_nat i else None) with
  | Some v => ret v
  | None => raise OutOfBounds
  end.

(** [CHECK_FLAG], [SET_FLAG] and [UNSET_FLAG]. *)
Definition CHECK_FLAG (v f : Z) : bool := negb (Z.land v f =? 0).
Definition SET_FLAG (v f : Z) : Z := Z.lor v f.
Definition UNSET_FLAG (v f : Z) : Z := Z.land v (Z.lnot f).

(** [strlcpy (dst, src, size)] and [strncmp (a, b, n) == 0]. *)
Definition strlcpy (src : string) (size : nat) : string :=
  String.substring 0 (size - 1) src.

Definition strncmp_eq (a b : string) (n : nat) : bool :=
  String.eqb (String.substring 0 n a) (String.substring 0 n b).

(** ** The adapter operations *)

Section Adapter.

(** What the headers and the libraries fix: the sentinel of the client ids,
    [sizeof (adapter->name)], the bit of [MGMTD_BE_ADAPTER_FLAGS_WRITES_OFF],
    [mgmt_be_client_name2id], the size [mgmtd__be_message__get_packed_size]
    computes, and the byte in front of each string. *)
Variable MGMTD_BE_CLIENT_ID_MAX : nat.
Variable MGMTD_CLIENT_NAME_MAX_LEN : nat.
Variable writes_off_bit : nat.
Variable mgmt_be_client_name2id : string -> nat.
Variable get_packed_size : be_msg -> nat.
Variable byte_before : string -> ascii.

Definition MGMTD_BE_ADAPTER_FLAGS_WRITES_OFF : Z :=
  Z.shiftl 1 (Z.of_nat writes_off_bit).

(** [mgmt_be_adapters_by_id[i] = v]; the array has
    [MGMTD_BE_CLIENT_ID_MAX] cells. *)
Definition by_id_store (i : nat) (v : option ptr) : M unit :=
  if (i <? MGMTD_BE_CLIENT_ID_MAX)%nat then
    modify_state (fun st =>
      set_mgmt_be_adapters_by_id
        (match v with
         | Some a => <[i := a]> (mgmt_be_adapters_by_id st)
         | None => delete i (mgmt_be_adapters_by_id st)
         end) st)
  else raise OutOfBounds.

(** [FOREACH_ADAPTER_IN_LIST]: [frr_each_safe] reads the successor before
    the body runs, so the body may unlink the current adapter. *)
Definition FOREACH_ADAPTER_IN_LIST (body : ptr -> M unit) : M unit :=
  l <- gets mgmt_be_adapters ;; for_each l body.

Fixpoint find_by (test : adapter -> bool) (l : list ptr) : M (option ptr) :=
  match l with
  | [] => ret None
  | a :: l' =>
      ad <- load a ;;
      if test ad then ret (Some a) else find_by test l'
  end.

Definition mgmt_be_find_adapter_by_fd (fd : Z) : M (option ptr) :=
  l <- gets mgmt_be_adapters ;;
  find_by (fun ad => conn_fd ad =? fd) l.

Definition mgmt_be_find_adapter_by_name (nm : string) : M (option ptr) :=
  l <- gets mgmt_be_adapters ;;
  find_by (fun ad => strncmp_eq (name ad) nm MGMTD_CLIENT_NAME_MAX_LEN) l.

Definition mgmt_be_adapter_register_event (a : ptr) (event : mgmt_be_event)
    : M unit :=
  match event with
  | MGMTD_BE_CONN_INIT => update a (set_conn_init_ev true)
  | MGMTD_BE_CONN_READ => update a (set_conn_read_ev true)
  | MGMTD_BE_CONN_WRITE =>
      update a (set_conn_write_ev true) ;;;
      ad <- load a ;;
      assert (conn_write_ev ad)
  | MGMTD_BE_PROC_MSG => update a (set_proc_msg_ev true)
  | MGMTD_BE_CONN_WRITES_ON => update a (set_conn_writes_on true)
  | MGMTD_BE_SERVER
  | MGMTD_BE_SCHED_CFG_PREPARE
  | MGMTD_BE_RESCHED_CFG_PREPARE
  | MGMTD_BE_SCHED_CFG_APPLY
  | MGMTD_BE_RESCHED_CFG_APPLY => assert false
  end.

Definition mgmt_be_adapter_lock (a : ptr) : M unit :=
  update a (fun ad => set_refcount (refcount ad + 1) ad).

(** With the last reference the adapter is unlinked, its events are
    cancelled and its memory is freed. *)
Definition mgmt_be_adapter_unlock (a : ptr) : M unit :=
  ad <- load a ;;
  assert (negb (refcount ad =? 0)) ;;;
  update a (fun ad => set_refcount (refcount ad - 1) ad) ;;;
  ad <- load a ;;
  if refcount ad =? 0 then
    mgmt_be_adapters_del a ;;;
    update a (set_conn_init_ev false) ;;;
    update a (set_conn_read_ev false) ;;;
    update a (set_conn_write_ev false) ;;;
    update a (set_conn_writes_on false) ;;;
    update a (set_proc_msg_ev false) ;;;
    update a (set_mstate []) ;;;
    xfree a
  else ret tt.

Definition mgmt_be_cleanup_adapters : M unit :=
  FOREACH_ADAPTER_IN_LIST mgmt_be_adapter_unlock.

Definition mgmt_be_adapter_disconnect (a : ptr) : M unit :=
  ad <- load a ;;
  (if 0 <=? conn_fd ad then update a (set_conn_fd (-1)) else ret tt) ;;;
  txn (txn_notify_be_adapter_conn a false) ;;;
  ad <- load a ;;
  (if (id ad <? MGMTD_BE_CLIENT_ID_MAX)%nat then
     by_id_store (id ad) None ;;;
     update a (set_id MGMTD_BE_CLIENT_ID_MAX)
   else ret tt) ;;;
  mgmt_be_adapters_del a ;;;
  mgmt_be_adapter_unlock a.

Definition mgmt_be_adapter_cleanup_old_conn (a : ptr) : M unit :=
  FOREACH_ADAPTER_IN_LIST (fun old =>
    if negb (old =? a)%nat then
      ad <- load a ;;
      old_ad <- load old ;;
      if strncmp_eq (name ad) (name old_ad) MGMTD_CLIENT_NAME_MAX_LEN
      then mgmt_be_adapter_disconnect old
      else ret tt
    else ret tt).

(** The debug log of a reply reads [adapter->name]; that of a
    [CFG_APPLY_REPLY] reads [batch_ids[0]] and [batch_ids[n_batch_ids - 1]]
    as well, [n_batch_ids] being a [size_t]. *)
Definition mgmt_be_adapter_handle_msg (a : ptr) (msg : be_msg) : M Z :=
  match msg with
  | SUBSCR_REQ client_name _ _ =>
      if negb (strlen client_name =? 0) then
        update a (set_name (strlcpy client_name MGMTD_CLIENT_NAME_MAX_LEN)) ;;;
        update a (fun ad => set_id (mgmt_be_client_name2id (name ad)) ad) ;;;
        ad <- load a ;;
        (if (MGMTD_BE_CLIENT_ID_MAX <=? id ad)%nat
         then mgmt_be_adapter_disconnect a else ret tt) ;;;
        ad <- load a ;;
        by_id_store (id ad) (Some a) ;;;
        mgmt_be_adapter_cleanup_old_conn a
      else ret tt
  | TXN_REPLY txn_id create success =>
      MGMTD_BE_ADAPTER_DBG (load a ;;; ret tt) ;;;
      txn (txn_notify_be_txn_reply txn_id create success a)
  | CFG_DATA_REPLY txn_id batch_id success error_if_any =>
      MGMTD_BE_ADAPTER_DBG (load a ;;; ret tt) ;;;
      txn (txn_notify_be_cfgdata_reply txn_id batch_id success
                                       error_if_any a)
  | CFG_APPLY_REPLY txn_id success batch_ids error_if_any =>
      MGMTD_BE_ADAPTER_DBG
        (load a ;;;
         element batch_ids 0 ;;;
         element batch_ids
                 ((Z.of_nat (List.length batch_ids) - 1) mod 2 ^ 64) ;;;
         ret tt) ;;;
      txn (txn_notify_be_cfg_apply_reply txn_id success batch_ids
                                         error_if_any a)
  | GET_REPLY | CFG_CMD_REPLY | SHOW_CMD_REPLY | NOTIFY_DATA => ret tt
  | SUBSCR_REPLY | GET_REQ | TXN_REQ _ _ | CFG_DATA_REQ _ _ _ _
  | CFG_APPLY_REQ _ | CFG_CMD_REQ | SHOW_CMD_REQ | MESSAGE_NOT_SET => ret tt
  end ;;;
  ret 0.

Definition mgmt_be_adapter_sched_msg_write (a : ptr) : M unit :=
  ad <- load a ;;
  if negb (CHECK_FLAG (flags ad) MGMTD_BE_ADAPTER_FLAGS_WRITES_OFF)
  then mgmt_be_adapter_register_event a MGMTD_BE_CONN_WRITE
  else ret tt.

Definition mgmt_be_adapter_writes_on (a : ptr) : M unit :=
  update a (fun ad =>
    set_flags (UNSET_FLAG (flags ad) MGMTD_BE_ADAPTER_FLAGS_WRITES_OFF) ad) ;;;
  mgmt_be_adapter_sched_msg_write a.

Definition mgmt_be_adapter_writes_off (a : ptr) : M unit :=
  update a (fun ad =>
    set_flags (SET_FLAG (flags ad) MGMTD_BE_ADAPTER_FLAGS_WRITES_OFF) ad).

(** Modelled from the spec: [mgmt_msg_send_msg] (lib/mgmt_msg.c), the
    framer's enqueue: it appends the encoded message to the outbound queue
    and returns the bytes written. *)
Definition mgmt_msg_send_msg (a : ptr) (msg : be_msg) (len : nat) : M Z :=
  update a (fun ad => set_mstate (mstate ad ++ [msg]) ad) ;;;
  ret (Z.of_nat len).

Definition mgmt_be_adapter_send_msg (a : ptr) (msg : be_msg) : M Z :=
  ad <- load a ;;
  if conn_fd ad =? -1 then ret (-1)
  else
    rv <- mgmt_msg_send_msg a msg (get_packed_size msg) ;;
    mgmt_be_adapter_sched_msg_write a ;;;
    ret rv.

Definition mgmt_be_send_txn_req (a : ptr) (txn_id : Z) (create : bool)
    : M Z :=
  mgmt_be_adapter_send_msg a (TXN_REQ txn_id create).

Definition mgmt_be_send_cfgdata_create_req (a : ptr) (txn_id batch_id : Z)
    (cfgdata_reqs : list string) (end_of_data : bool) : M Z :=
  mgmt_be_adapter_send_msg a
    (CFG_DATA_REQ txn_id batch_id cfgdata_reqs end_of_data).

Definition mgmt_be_send_cfgapply_req (a : ptr) (txn_id : Z) : M Z :=
  mgmt_be_adapter_send_msg a (CFG_APPLY_REQ txn_id).

(** [data] is [None] when [mgmtd__be_message__unpack] fails. The debug log
    reads [adapter->name] in either case. *)
Definition mgmt_be_adapter_process_msg (a : ptr) (data : option be_msg)
    : M unit :=
  match data with
  | None => MGMTD_BE_ADAPTER_DBG (load a ;;; ret tt)
  | Some msg =>
      MGMTD_BE_ADAPTER_DBG (load a ;;; ret tt) ;;;
      mgmt_be_adapter_handle_msg a msg ;;; ret tt
  end.

(** Modelled from the spec: [mgmt_msg_procbufs] (lib/mgmt_msg.c), the
    framer's process: it invokes the handler once for each complete frame
    that is buffered, [frames], and returns whether more frames remain. *)
Definition mgmt_msg_procbufs (a : ptr) (frames : list (option be_msg))
    (more : bool) (handler : ptr -> option be_msg -> M unit) : M bool :=
  load a ;;;
  for_each frames (handler a) ;;;
  ret more.

Definition mgmt_be_adapter_proc_msgbufs (a : ptr)
    (frames : list (option be_msg)) (more : bool) : M unit :=
  again <- mgmt_msg_procbufs a frames more mgmt_be_adapter_process_msg ;;
  if again then mgmt_be_adapter_register_event a MGMTD_BE_PROC_MSG
  else ret tt.

(** Modelled from the spec: [mgmt_msg_read] (lib/mgmt_msg.c), the framer's
    read: what the bytes on the socket make it report is [rv]. *)
Definition mgmt_msg_read (a : ptr) (rv : mgmt_msg_rsched)
    : M mgmt_msg_rsched :=
  load a ;;; ret rv.

Definition mgmt_be_adapter_read (a : ptr) (rv0 : mgmt_msg_rsched) : M unit :=
  rv <- mgmt_msg_read a rv0 ;;
  match rv with
  | MSR_DISCONNECT => mgmt_be_adapter_disconnect a
  | MSR_SCHED_BOTH =>
      mgmt_be_adapter_register_event a MGMTD_BE_PROC_MSG ;;;
      mgmt_be_adapter_register_event a MGMTD_BE_CONN_READ
  | MSR_SCHED_STREAM =>
      mgmt_be_adapter_register_event a MGMTD_BE_CONN_READ
  end.

(** Modelled from the spec: [mgmt_msg_write] (lib/mgmt_msg.c), the framer's
    write: it drains [drained] messages of the outbound queue to the socket
    and reports [rv]. *)
Definition mgmt_msg_write (a : ptr) (drained : nat) (rv : mgmt_msg_wsched)
    : M mgmt_msg_wsched :=
  update a (fun ad => set_mstate (drop drained (mstate ad)) ad) ;;;
  ret rv.

Definition mgmt_be_adapter_write (a : ptr) (drained : nat)
    (rv0 : mgmt_msg_wsched) : M unit :=
  rv <- mgmt_msg_write a drained rv0 ;;
  match rv with
  | MSW_SCHED_STREAM => mgmt_be_adapter_register_event a MGMTD_BE_CONN_WRITE
  | MSW_DISCONNECT => mgmt_be_adapter_disconnect a
  | MSW_SCHED_WRITES_OFF =>
      mgmt_be_adapter_writes_off a ;;;
      mgmt_be_adapter_register_event a MGMTD_BE_CONN_WRITES_ON
  | MSW_SCHED_NONE => assert true
  end.

Definition mgmt_be_adapter_resume_writes (a : ptr) : M unit :=
  ad <- load a ;;
  assert (0 <=? conn_fd ad) ;;;
  mgmt_be_adapter_writes_on a.

(** [txn_in_progress]: whether [mgmt_config_txn_in_progress] reports a
    session; [conn_rv]: what [mgmt_txn_notify_be_adapter_conn] returns. *)
Definition mgmt_be_adapter_conn_init (a : ptr) (txn_in_progress : bool)
    (conn_rv : Z) : M unit :=
  ad <- load a ;;
  assert (0 <=? conn_fd ad) ;;;
  if txn_in_progress then
    mgmt_be_adapter_register_event a MGMTD_BE_CONN_INIT
  else
    txn (txn_notify_be_adapter_conn a true) ;;;
    if negb (conn_rv =? 0) then mgmt_be_adapter_disconnect a else ret tt.

(** The state before [mgmt_be_adapter_init]: zeroed static storage. *)
Definition state_zero : state :=
  {| heap := ∅; next_addr := 0%nat; mgmt_be_adapters := [];
     mgmt_be_adapters_by_id := ∅; mgmt_xpath_map := [];
     mgmt_be_adapter_tm := false; txn_log := []; ds_iter_log := [];
     mgmt_debug_be := false |}.

(** [mgmt_be_adapter_init], for the static registry [reg]. *)
Definition mgmt_be_adapter_init (reg : list mgmt_be_xpath_map_reg) : M Z :=
  tm <- gets mgmt_be_adapter_tm ;;
  (if negb tm then
     modify_state (set_mgmt_be_adapter_tm true) ;;;
     modify_state (set_mgmt_xpath_map []) ;;;
     modify_state (set_mgmt_be_adapters_by_id ∅) ;;;
     modify_state (set_mgmt_be_adapters []) ;;;
     modify_state (set_mgmt_xpath_map
                     (mgmt_be_xpath_map_init MGMTD_BE_CLIENT_ID_MAX reg))
   else ret tt) ;;;
  ret 0.

Definition mgmt_be_adapter_destroy : M unit := mgmt_be_cleanup_adapters.

(** [snprintf (name, sizeof (name), "Unknown-FD-%d", conn_fd)] *)
Definition unknown_fd_name (fd : Z) : string :=
  String.substring 0 (MGMTD_CLIENT_NAME_MAX_LEN - 1)
                   ("Unknown-FD-" +:+ pretty fd).

(** [set_nonblocking] and the two [setsockopt] calls act on the socket
    only. *)
Definition mgmt_be_create_adapter (fd : Z) (from : nat) : M ptr :=
  found <- mgmt_be_find_adapter_by_fd fd ;;
  a <- match found with
       | Some a => ret a
       | None =>
           a <- xcalloc ;;
           update a (set_conn_fd fd) ;;;
           update a (set_id MGMTD_BE_CLIENT_ID_MAX) ;;;
           update a (set_conn_su from) ;;;
           update a (fun ad => set_name (unknown_fd_name (conn_fd ad)) ad) ;;;
           update a (set_mstate []) ;;;
           mgmt_be_adapter_lock a ;;;
           mgmt_be_adapter_register_event a MGMTD_BE_CONN_READ ;;;
           mgmt_be_adapters_add_tail a ;;;
           update a (set_cfg_chgs []) ;;;
           ret a
       end ;;
  mgmt_be_adapter_register_event a MGMTD_BE_CONN_INIT ;;;
  ret a.

Definition mgmt_be_get_adapter_by_id (i : nat) : M (option ptr) :=
  if (i <? MGMTD_BE_CLIENT_ID_MAX)%nat
  then gets (fun st => mgmt_be_adapters_by_id st !! i)
  else ret None.

Definition mgmt_be_get_adapter_by_name (nm : string) : M (option ptr) :=
  mgmt_be_find_adapter_by_name nm.

(** Modelled from the spec: [nb_config_diff_created] (lib/northbound.c): it
    emits a "created" change keyed by the node's xpath, with sequence number
    [seq++] and the node's serialized value; the container is keyed by path,
    so a path that is present is not added again. *)
Definition nb_config_diff_created (node : ds_node) (seq : Z)
    (root : nb_config_cbs) : Z * nb_config_cbs :=
  ((seq + 1) mod 2 ^ 32,
   if existsb (fun c => String.eqb (cb_xpath c) (node_xpath node)) root
   then root
   else root ++ [{| cb_xpath := node_xpath node; cb_seq := seq;
                    cb_value := node_value node |}]).

Record mgmt_be_get_adapter_config_params := ConfigParams {
  parms_adapter : ptr;      (* [cfg_chgs] is [&adapter->cfg_chgs] *)
  parms_seq : Z
}.

Definition mgmt_be_iter_and_get_cfg (xpath : string) (node : ds_node)
    (parms : mgmt_be_get_adapter_config_params)
    : M mgmt_be_get_adapter_config_params :=
  map <- gets mgmt_xpath_map ;;
  match mgmt_be_get_subscr_info_for_xpath MGMTD_BE_CLIENT_ID_MAX byte_before
          map xpath (Some []) with
  | (rc, Some subscr_info) =>
      if negb (rc =? 0) then ret parms
      else
        let a := parms_adapter parms in
        ad <- load a ;;
        match subscr_info !! id ad with
        | None => raise OutOfBounds
        | Some r =>
            if negb (subscribed r) then ret parms
            else
              let '(seq, root) :=
                nb_config_diff_created node (parms_seq parms) (cfg_chgs ad) in
              update a (set_cfg_chgs root) ;;;
              ret {| parms_adapter := a; parms_seq := seq |}
        end
  | (_, None) => ret parms
  end.

(** Modelled from the spec: [mgmt_ds_iter_data] (mgmtd/mgmt_ds.c), the
    datastore iterator: it calls [iter_fn] for each node of the subtree at
    [base_xpath], in the order the datastore yields them. *)
Fixpoint iter_nodes (nodes : list ds_node)
    (iter_fn : string -> ds_node -> mgmt_be_get_adapter_config_params ->
               M mgmt_be_get_adapter_config_params)
    (ctx : mgmt_be_get_adapter_config_params)
    : M mgmt_be_get_adapter_config_params :=
  match nodes with
  | [] => ret ctx
  | n :: rest =>
      ctx' <- iter_fn (node_xpath n) n ctx ;;
      iter_nodes rest iter_fn ctx'
  end.

Definition mgmt_ds_iter_data (ds_ctx : string -> list ds_node)
    (base_xpath : string)
    (iter_fn : string -> ds_node -> mgmt_be_get_adapter_config_params ->
               M mgmt_be_get_adapter_config_params)
    (ctx : mgmt_be_get_adapter_config_params) : M unit :=
  modify_state (fun st => set_ds_iter_log (ds_iter_log st ++ [base_xpath]) st) ;;;
  iter_nodes (ds_ctx base_xpath) iter_fn ctx ;;;
  ret tt.

(** The result is the return value and what [*cfg_chgs] points to. *)
Definition mgmt_be_get_adapter_config (a : ptr)
    (ds_ctx : string -> list ds_node) : M (Z * nb_config_cbs) :=
  ad <- load a ;;
  (if match cfg_chgs ad with [] => true | _ => false end then
     mgmt_ds_iter_data ds_ctx "/" mgmt_be_iter_and_get_cfg
                       {| parms_adapter := a; parms_seq := 0 |}
   else ret tt) ;;;
  ad <- load a ;;
  ret (0, cfg_chgs ad).

Definition mgmt_be_create_txn (a : ptr) (txn_id : Z) : M Z :=
  mgmt_be_send_txn_req a txn_id true.

Definition mgmt_be_destroy_txn (a : ptr) (txn_id : Z) : M Z :=
  mgmt_be_send_txn_req a txn_id false.

(** [struct mgmt_be_cfgreq]: [cfgdata_reqs], [num_reqs] of them. *)
Definition mgmt_be_send_cfg_data_create_req (a : ptr) (txn_id batch_id : Z)
    (cfg_req : list string) (end_of_data : bool) : M Z :=
  mgmt_be_send_cfgdata_create_req a txn_id batch_id cfg_req end_of_data.

Definition mgmt_be_send_cfg_apply_req (a : ptr) (txn_id : Z) : M Z :=
  mgmt_be_send_cfgapply_req a txn_id.

(** ** The event loop and the callers *)

(** What happens to the adapters: an armed event fires, with what the framer
    and the transaction module report to its handler, or the daemon calls a
    public function. *)
Inductive action :=
| FireConnInit (a : ptr) (txn_in_progress : bool) (conn_rv : Z)
| FireConnRead (a : ptr) (rv : mgmt_msg_rsched)
| FireConnWrite (a : ptr) (drained : nat) (rv : mgmt_msg_wsched)
| FireProcMsg (a : ptr) (frames : list (option be_msg)) (more : bool)
| FireWritesOn (a : ptr)
| CallCreateAdapter (fd : Z) (from : nat)
| CallLock (a : ptr)
| CallUnlock (a : ptr)
| CallDestroy
| CallGetAdapterConfig (a : ptr) (ds_ctx : string -> list ds_node)
| CallCreateTxn (a : ptr) (txn_id : Z)
| CallDestroyTxn (a : ptr) (txn_id : Z)
| CallSendCfgDataCreateReq (a : ptr) (txn_id batch_id : Z)
                           (cfg_req : list string) (end_of_data : bool)
| CallSendCfgApplyReq (a : ptr) (txn_id : Z).

(** Modelled from the spec: the event loop (lib/event.c): an event handle is
    either armed or cleared; an armed event fires once: its handle is
    cleared and its handler runs. *)
Definition fire (a : ptr) (clear : adapter -> adapter) (handler : M unit)
    : M unit :=
  update a clear ;;; handler.

Definition discard {A} (m : M A) : M unit := m ;;; ret tt.

Definition run (act : action) : M unit :=
  match act with
  | FireConnInit a txn_in_progress conn_rv =>
      fire a (set_conn_init_ev false)
           (mgmt_be_adapter_conn_init a txn_in_progress conn_rv)
  | FireConnRead a rv =>
      fire a (set_conn_read_ev false) (mgmt_be_adapter_read a rv)
  | FireConnWrite a drained rv =>
      fire a (set_conn_write_ev false) (mgmt_be_adapter_write a drained rv)
  | FireProcMsg a frames more =>
      fire a (set_proc_msg_ev false)
           (mgmt_be_adapter_proc_msgbufs a frames more)
  | FireWritesOn a =>
      fire a (set_conn_writes_on false) (mgmt_be_adapter_resume_writes a)
  | CallCreateAdapter fd from => discard (mgmt_be_create_adapter fd from)
  | CallLock a => mgmt_be_adapter_lock a
  | CallUnlock a => mgmt_be_adapter_unlock a
  | CallDestroy => mgmt_be_adapter_destroy
  | CallGetAdapterConfig a ds_ctx =>
      discard (mgmt_be_get_adapter_config a ds_ctx)
  | CallCreateTxn a txn_id => discard (mgmt_be_create_txn a txn_id)
  | CallDestroyTxn a txn_id => discard (mgmt_be_destroy_txn a txn_id)
  | CallSendCfgDataCreateReq a txn_id batch_id cfg_req end_of_data =>
      discard (mgmt_be_send_cfg_data_create_req a txn_id batch_id cfg_req
                                                end_of_data)
  | CallSendCfgApplyReq a txn_id =>
      discard (mgmt_be_send_cfg_apply_req a txn_id)
  end.

(** The adapter an event belongs to is allocated and the event is armed. *)
Definition armed (st : state) (a : ptr) (ev : adapter -> bool) : Prop :=
  exists ad, heap st !! a = Some ad /\ ev ad = true.

Definition enabled (st : state) (act : action) : Prop :=
  match act with
  | FireConnInit a _ _ => armed st a conn_init_ev
  | FireConnRead a _ => armed st a conn_read_ev
  | FireConnWrite a _ _ => armed st a conn_write_ev
  | FireProcMsg a _ _ => armed st a proc_msg_ev
  | FireWritesOn a => armed st a conn_writes_on
  | _ => True
  end.

(** One step of the daemon that runs to its end. *)
Definition step (st : state) (act : action) (st' : state) : Prop :=
  enabled st act /\ run act st = Ok (tt, st').

(** The states the daemon can be in after [mgmt_be_adapter_init], with the
    debug flag set or not. *)
Inductive reachable (reg : list mgmt_be_xpath_map_reg) : state -> Prop :=
| reachable_init debug st :
    mgmt_be_adapter_init reg (set_mgmt_debug_be debug state_zero)
    = Ok (0, st) ->
    reachable reg st
| reachable_step st act st' :
    reachable reg st -> step st act st' -> reachable reg st'.

End Adapter.

(** [xpath_static_map_reg]; [staticd] is [MGMTD_BE_CLIENT_ID_STATICD] when
    the daemon is built with [HAVE_STATICD]. *)
Definition xpath_static_map_reg (staticd : option nat) (max : nat)
    : list mgmt_be_xpath_map_reg :=
  let clients := match staticd with
                 | Some i => [i; max]
                 | None => [max]
                 end in
  [ {| reg_xpath_regexp := "/frr-vrf:lib/*"; be_clients := clients |};
    {| reg_xpath_regexp := "/frr-interface:lib/*"; be_clients := clients |};
    {| reg_xpath_regexp :=
         "/frr-routing:routing/control-plane-protocols/control-plane-protocol[type='frr-staticd:staticd'][name='staticd'][vrf='default']/frr-staticd:staticd/*";
       be_clients := clients |} ].

(** ** The resolver as the specification words it *)

Module Spec.

Section Spec.

Variable eval_match : string -> string -> Z.

(** The greatest match length of [xpath] over the registered patterns, 0
    when there is none. *)
Definition max_match_len (map : list mgmt_be_xpath_regexp_map)
    (xpath : string) : Z :=
  foldl (fun acc e => Z.max acc (eval_match (xpath_regexp e) xpath)) 0 map.

(** The patterns that achieve the maximum positive match length. *)
Definition kept_patterns (map : list mgmt_be_xpath_regexp_map)
    (xpath : string) : list mgmt_be_xpath_regexp_map :=
  List.filter
    (fun e => (0 <? eval_match (xpath_regexp e) xpath)
              && (eval_match (xpath_regexp e) xpath
                  =? max_match_len map xpath))
    map.

(** The capability fields of two records, OR-ed. *)
Definition subscr_or (r1 r2 : xpath_subscr) : xpath_subscr :=
  {| validate_config := validate_config r1 || validate_config r2;
     notify_config := notify_config r1 || notify_config r2;
     own_oper_data := own_oper_data r1 || own_oper_data r2 |}.

(** The record of client [id] in the union of the subscribers of
    [patterns]. *)
Definition union_at (patterns : list mgmt_be_xpath_regexp_map) (id : nat)
    : xpath_subscr :=
  foldl subscr_or subscr_zero
        ((fun e => default subscr_zero (be_subscrs e !! id)) <$> patterns).

(** The union of the subscribers of [patterns], for [max] clients. *)
Definition union_of (max : nat) (patterns : list mgmt_be_xpath_regexp_map)
    : mgmt_be_client_subscr_info :=
  union_at patterns <$> seq 0 max.

(** resolve(xpath): the patterns of the maximum positive length, or all
    patterns for a root-scope path, unioned. *)
Definition resolve (max : nat) (map : list mgmt_be_xpath_regexp_map)
    (xpath : string) : mgmt_be_client_subscr_info :=
  if String.eqb xpath "/" || String.eqb xpath "/*" then union_of max map
  else union_of max (kept_patterns map xpath).

End Spec.

End Spec.

(** A C string holds no NUL. *)
Definition is_cstring (s : string) : bool :=
  forallb (fun c => negb (is_char c Ascii.zero)) (list_ascii_of_string s).

(** ** Auxiliary predicates of the subscription map *)

(** What [mgmt_be_xpath_map_init] leaves in an element: nothing, or all
    three capabilities. *)
Definition subscr_all : xpath_subscr :=
  {| validate_config := true; notify_config := true; own_oper_data := true |}.

Definition uniform (r : xpath_subscr) : Prop :=
  r = subscr_zero \/ r = subscr_all.

Definition subscr_info_ok (max : nat) (info : mgmt_be_client_subscr_info)
    : Prop :=
  List.length info = max /\ Forall uniform info.


(** ** Invariants of the adapter state *)

Section Invariants.

Variable writes_off_bit : nat.

(** While [WRITES_OFF] is set no write event is armed. *)
Definition writes_off_ok (ad : adapter) : Prop :=
  CHECK_FLAG (flags ad) (MGMTD_BE_ADAPTER_FLAGS_WRITES_OFF writes_off_bit)
    = true ->
  conn_write_ev ad = false.

(** The adapters of the registry are allocated and have pairwise distinct
    descriptors; addresses are handed out in increasing order. *)
Record state_ok (st : state) : Prop := StateOk {
  ok_writes_off : map_Forall (fun _ ad => writes_off_ok ad) (heap st);
  ok_registered : forall a, a ∈ mgmt_be_adapters st -> is_Some (heap st !! a);
  ok_allocated : forall a, is_Some (heap st !! a) -> (a < next_addr st)%nat;
  ok_fd : forall a b ad bd,
    a ∈ mgmt_be_adapters st -> b ∈ mgmt_be_adapters st ->
    heap st !! a = Some ad -> heap st !! b = Some bd ->
    conn_fd ad = conn_fd bd -> a = b
}.

End Invariants.

(** From a state with [P], whenever [m] runs to its end its result and the
    state then satisfy [Q]. *)
Definition hoare {A} (P : state -> Prop) (m : M A)
    (Q : A -> state -> Prop) : Prop :=
  forall st x st', P st -> m st = Ok (x, st') -> Q x st'.

(** [m] keeps [P]. *)
Definition preserves {A} (P : state -> Prop) (m : M A) : Prop :=
  hoare P m (fun _ => P).

(** The adapter at [a] is allocated and satisfies [phi]. *)
Definition at_adapter (st : state) (a : ptr) (phi : adapter -> Prop) : Prop :=
  exists ad, heap st !! a = Some ad /\ phi ad.

(** While [mgmt_be_create_adapter] sets up the adapter at [a] for the
    descriptor [fd]: the adapter is not registered yet and no registered
    adapter has the descriptor. *)
Definition creating (writes_off_bit : nat) (a : ptr) (fd : Z) (st : state)
    : Prop :=
  state_ok writes_off_bit st
  /\ (a ∉ mgmt_be_adapters st)
  /\ forall b bd, b ∈ mgmt_be_adapters st -> heap st !! b = Some bd ->
                  conn_fd bd <> fd.

(** ** What a disconnect leaves *)

(** The adapter after [mgmt_be_adapter_disconnect], while it is referenced
    still: descriptor closed, client id unassigned, one reference less. *)
Definition disconnected (max : nat) (ad : adapter) : adapter :=
  let ad1 := if 0 <=? conn_fd ad then set_conn_fd (-1) ad else ad in
  let ad2 := if (id ad1 <? max)%nat then set_id max ad1 else ad1 in
  set_refcount (refcount ad2 - 1) ad2.

(** The state after [mgmt_be_adapter_disconnect] of the adapter [ad] at
    [a]. *)
Definition disconnect_state (max : nat) (a : ptr) (ad : adapter)
    (st : state) : state :=
  {| heap := if refcount ad - 1 =? 0 then delete a (heap st)
             else <[a := disconnected max ad]> (heap st);
     next_addr := next_addr st;
     mgmt_be_adapters := filter (fun p => p <> a) (mgmt_be_adapters st);
     mgmt_be_adapters_by_id :=
       if (id ad <? max)%nat then delete (id ad) (mgmt_be_adapters_by_id st)
       else mgmt_be_adapters_by_id st;
     mgmt_xpath_map := mgmt_xpath_map st;
     mgmt_be_adapter_tm := mgmt_be_adapter_tm st;
     txn_log := txn_log st ++ [txn_notify_be_adapter_conn a false];
     ds_iter_log := ds_iter_log st;
     mgmt_debug_be := mgmt_debug_be st |}.

(** A small daemon to run: the client "staticd" with id 0, names of 32
    bytes, [WRITES_OFF] in bit 0, messages of 10 bytes. *)
Module Example.

Definition name2id (s : string) : nat :=
  if String.eqb s "staticd" then 0%nat else 1%nat.

Definition run_all (l : list action) : M unit :=
  for_each l (run 1 32 0 name2id (fun _ => 10%nat) (fun _ => Ascii.zero)).

Definition started : state :=
  match mgmt_be_adapter_init 1 (xpath_static_map_reg (Some 0%nat) 1)
                             state_zero with
  | Ok (_, st) => st
  | Fault _ => state_zero
  end.

(** The state after the actions [l], when they all run to their end. *)
Definition after (l : list action) : state :=
  match run_all l started with
  | Ok (_, st) => st
  | Fault _ => state_zero
  end.

(** The state a run ended in. *)
Definition state_of {A} (o : outcome (A * state)) : state :=
  match o with
  | Ok (_, st) => st
  | Fault _ => state_zero
  end.

End Example.

(** ** The config walk as the specification words it *)

Section Walk.

Variable max : nat.
Variable byte_before : string -> ascii.
Variable map : list mgmt_be_xpath_regexp_map.

(** The resolved subscription info of [xpath] marks client [i] as
    subscribed. *)
Definition client_subscribed (xpath : string) (i : nat) : bool :=
  match get_subscr_info max (eval_regexp_match byte_before) map xpath !! i with
  | Some r => subscribed r
  | None => false
  end.

(** One node of the walk for client [i]: a change is emitted for a
    subscribed node. *)
Definition emit (i : nat) (acc : Z * nb_config_cbs) (n : ds_node)
    : Z * nb_config_cbs :=
  if client_subscribed (node_xpath n) i
  then nb_config_diff_created n (fst acc) (snd acc)
  else acc.

End Walk.

(** Enabledness of an action, decided. *)
Definition armedb (st : state) (a : ptr) (ev : adapter -> bool) : bool :=
  match heap st !! a with
  | Some ad => ev ad
  | None => false
  end.

Definition enabledb (st : state) (act : action) : bool :=
  match act with
  | FireConnInit a _ _ => armedb st a conn_init_ev
  | FireConnRead a _ => armedb st a conn_read_ev
  | FireConnWrite a _ _ => armedb st a conn_write_ev
  | FireProcMsg a _ _ => armedb st a proc_msg_ev
  | FireWritesOn a => armedb st a conn_writes_on
  | _ => true
  end.

(** The state after the steps [l], when each is enabled and runs to its
    end. *)
Fixpoint steps (run_act : action -> M unit) (l : list action) (st : state)
    : option state :=
  match l with
  | [] => Some st
  | act :: l' =>
      if enabledb st act then
        match run_act act st with
        | Ok (_, st') => steps run_act l' st'
        | Fault _ => None
        end
      else None
  end.

(** Since the state [st0], [WRITES_OFF] has not been cleared on the adapter
    at [a]: no adapter was allocated at [a] since, and if the flag was set
    in [st0] it is set still. *)
Definition flag_kept (writes_off_bit : nat) (a : ptr) (st0 st : state)
    : Prop :=
  (next_addr st0 <= next_addr st)%nat
  /\ forall ad', heap st !! a = Some ad' -> (a < next_addr st0)%nat ->
       exists ad, heap st0 !! a = Some ad
         /\ (CHECK_FLAG (flags ad)
                        (MGMTD_BE_ADAPTER_FLAGS_WRITES_OFF writes_off_bit)
             = true ->
             CHECK_FLAG (flags ad')
                        (MGMTD_BE_ADAPTER_FLAGS_WRITES_OFF writes_off_bit)
             = true).

(** * IS-IS PDU counters (isisd/isis_pdu_counter.c) *)

Module PduCounter.

(** What the file takes from its headers: the PDU type numbers of
    isisd/isis_pdu.h and the enumerators of [enum pdu_counter_index] of
    isisd/isis_pdu_counter.h, [PDU_COUNTER_SIZE] the last of them and the
    number of elements of a [pdu_counter_t]. *)
Class constants := Constants {
  L1_LAN_HELLO : Z;
  L2_LAN_HELLO : Z;
  P2P_HELLO : Z;
  L1_LINK_STATE : Z;
  L2_LINK_STATE : Z;
  FS_LINK_STATE : Z;
  L1_COMPLETE_SEQ_NUM : Z;
  L2_COMPLETE_SEQ_NUM : Z;
  L1_PARTIAL_SEQ_NUM : Z;
  L2_PARTIAL_SEQ_NUM : Z;
  L1_LAN_HELLO_INDEX : Z;
  L2_LAN_HELLO_INDEX : Z;
  P2P_HELLO_INDEX : Z;
  L1_LINK_STATE_INDEX : Z;
  L2_LINK_STATE_INDEX : Z;
  FS_LINK_STATE_INDEX : Z;
  L1_COMPLETE_SEQ_NUM_INDEX : Z;
  L2_COMPLETE_SEQ_NUM_INDEX : Z;
  L1_PARTIAL_SEQ_NUM_INDEX : Z;
  L2_PARTIAL_SEQ_NUM_INDEX : Z;
  PDU_COUNTER_SIZE : Z
}.

(** [pdu_counter_t]: an array of [uint64_t]. *)
Abbreviation pdu_counter_t := (list Z).

Definition UINT64_MAX : Z := 2 ^ 64 - 1.

(** The conversion to [uint8_t], the type of every [pdu_type] parameter of
    the file: an argument is reduced modulo 2^8. *)
Definition uint8_t (x : Z) : Z := x mod 2 ^ 8.

(** [struct isis_area], the two members the file uses. *)
Record isis_area := IsisArea {
  pdu_drop_counters : pdu_counter_t;
  log_pdu_drops : bool
}.

(** The arguments of the [zlog_info] call of [pdu_counter_count_drop] after
    its format: the name of the type, the total and the ten counts, in the
    order of the format. *)
Record drop_message := DropMessage {
  drop_type_name : string;
  total_drops : Z;
  drops_by_type : list Z
}.

(** A computation that ends with a value, or at an assertion or an access
    outside an array. *)
Definition obind {A B} (o : outcome A) (k : A -> outcome B) : outcome B :=
  match o with
  | Ok x => k x
  | Fault f => Fault f
  end.

Fixpoint omap {A B} (f : A -> outcome B) (l : list A) : outcome (list B) :=
  match l with
  | [] => Ok []
  | x :: l' => obind (f x) (fun y => obind (omap f l') (fun ys => Ok (y :: ys)))
  end.

(** A switch as a search in the list of its labels. *)
Fixpoint switch {A} (labels : list Z) (results : list A) (default : A)
    (x : Z) : A :=
  match labels, results with
  | l :: labels', r :: results' =>
      if x =? l then r else switch labels' results' default x
  | _, _ => default
  end.

(** [counter[index]] *)
Definition counter_at (counter : pdu_counter_t) (index : Z) : outcome Z :=
  if index <? 0 then Fault OutOfBounds
  else match counter !! Z.to_nat index with
       | Some v => Ok v
       | None => Fault OutOfBounds
       end.

Definition newline : string := String (ascii_of_nat 10) "".

(** [printf] of ["%s%s: %" PRIu64 "\n"]. *)
Definition counter_line (prefix name : string) (v : Z) : string :=
  prefix +:+ name +:+ ": " +:+ pretty (Z.to_N v) +:+ newline.

Section Counter.

Context `{constants}.

(** The case labels of the two switches, in the order of the source. The
    labels of a switch are pairwise distinct, so the order of the tests
    below is of no account. *)
Definition pdu_types : list Z :=
  [L1_LAN_HELLO; L2_LAN_HELLO; P2P_HELLO; L1_LINK_STATE; L2_LINK_STATE;
   FS_LINK_STATE; L1_COMPLETE_SEQ_NUM; L2_COMPLETE_SEQ_NUM;
   L1_PARTIAL_SEQ_NUM; L2_PARTIAL_SEQ_NUM].

Definition counter_indices : list Z :=
  [L1_LAN_HELLO_INDEX; L2_LAN_HELLO_INDEX; P2P_HELLO_INDEX;
   L1_LINK_STATE_INDEX; L2_LINK_STATE_INDEX; FS_LINK_STATE_INDEX;
   L1_COMPLETE_SEQ_NUM_INDEX; L2_COMPLETE_SEQ_NUM_INDEX;
   L1_PARTIAL_SEQ_NUM_INDEX; L2_PARTIAL_SEQ_NUM_INDEX].

Definition pdu_type_to_counter_index (pdu_type : Z) : Z :=
  let pdu_type := uint8_t pdu_type in
  if pdu_type =? L1_LAN_HELLO then L1_LAN_HELLO_INDEX
  else if pdu_type =? L2_LAN_HELLO then L2_LAN_HELLO_INDEX
  else if pdu_type =? P2P_HELLO then P2P_HELLO_INDEX
  else if pdu_type =? L1_LINK_STATE then L1_LINK_STATE_INDEX
  else if pdu_type =? L2_LINK_STATE then L2_LINK_STATE_INDEX
  else if pdu_type =? FS_LINK_STATE then FS_LINK_STATE_INDEX
  else if pdu_type =? L1_COMPLETE_SEQ_NUM then L1_COMPLETE_SEQ_NUM_INDEX
  else if pdu_type =? L2_COMPLETE_SEQ_NUM then L2_COMPLETE_SEQ_NUM_INDEX
  else if pdu_type =? L1_PARTIAL_SEQ_NUM then L1_PARTIAL_SEQ_NUM_INDEX
  else if pdu_type =? L2_PARTIAL_SEQ_NUM then L2_PARTIAL_SEQ_NUM_INDEX
  else -1.

(** A value that is no enumerator leaves the switch and reaches the
    [assert] at the end of the function. *)
Definition pdu_counter_index_to_name (index : Z) : outcome string :=
  if index =? L1_LAN_HELLO_INDEX then Ok " L1 IIH"
  else if index =? L2_LAN_HELLO_INDEX then Ok " L2 IIH"
  else if index =? P2P_HELLO_INDEX then Ok "P2P IIH"
  else if index =? L1_LINK_STATE_INDEX then Ok " L1 LSP"
  else if index =? L2_LINK_STATE_INDEX then Ok " L2 LSP"
  else if index =? FS_LINK_STATE_INDEX then Ok " FS LSP"
  else if index =? L1_COMPLETE_SEQ_NUM_INDEX then Ok "L1 CSNP"
  else if index =? L2_COMPLETE_SEQ_NUM_INDEX then Ok "L2 CSNP"
  else if index =? L1_PARTIAL_SEQ_NUM_INDEX then Ok "L1 PSNP"
  else if index =? L2_PARTIAL_SEQ_NUM_INDEX then Ok "L2 PSNP"
  else if index =? PDU_COUNTER_SIZE then Ok "???????"
  else Fault AssertionFailed.

(** [counter[index]++] on a [uint64_t]. *)
Definition pdu_counter_count (counter : pdu_counter_t) (pdu_type : Z)
    : outcome pdu_counter_t :=
  let pdu_type := uint8_t pdu_type in
  let index := pdu_type_to_counter_index pdu_type in
  if index <? 0 then Ok counter
  else obind (counter_at counter index) (fun v =>
         Ok (<[Z.to_nat index := (v + 1) mod 2 ^ 64]> counter)).

(** The [-1] for a type that is not counted is returned as a [uint64_t]. *)
Definition pdu_counter_get_count (counter : pdu_counter_t) (pdu_type : Z)
    : outcome Z :=
  let pdu_type := uint8_t pdu_type in
  let index := pdu_type_to_counter_index pdu_type in
  if index <? 0 then Ok UINT64_MAX
  else counter_at counter index.

(** The loop of [pdu_counter_count_drop] over [i], from [total_drops]. *)
Fixpoint count_total (counter : pdu_counter_t) (idxs : list nat)
    (total_drops : Z) : outcome Z :=
  match idxs with
  | [] => Ok total_drops
  | i :: idxs' =>
      obind (counter_at counter (Z.of_nat i)) (fun v =>
        if v =? 0 then count_total counter idxs' total_drops
        else count_total counter idxs' ((total_drops + v) mod 2 ^ 64))
  end.

(** The result is the area afterwards and the message logged, if any. *)
Definition pdu_counter_count_drop (area : isis_area) (pdu_type : Z)
    : outcome (isis_area * option drop_message) :=
  let pdu_type := uint8_t pdu_type in
  obind (pdu_counter_count (pdu_drop_counters area) pdu_type) (fun counter =>
    let area' := {| pdu_drop_counters := counter;
                    log_pdu_drops := log_pdu_drops area |} in
    if log_pdu_drops area' then
      obind (count_total (pdu_drop_counters area')
                         (seq 0 (Z.to_nat PDU_COUNTER_SIZE)) 0)
        (fun total =>
      obind (pdu_counter_index_to_name (pdu_type_to_counter_index pdu_type))
        (fun name =>
      obind (omap (pdu_counter_get_count (pdu_drop_counters area'))
                  pdu_types)
        (fun counts =>
      Ok (area', Some {| drop_type_name := name; total_drops := total;
                         drops_by_type := counts |}))))
    else Ok (area', None)).

(** The loop of [pdu_counter_print] over [i]; the result is what [vty_out]
    has printed. *)
Fixpoint print_from (prefix : string) (counter : pdu_counter_t)
    (idxs : list nat) : outcome (list string) :=
  match idxs with
  | [] => Ok []
  | i :: idxs' =>
      obind (counter_at counter (Z.of_nat i)) (fun v =>
        if v =? 0 then print_from prefix counter idxs'
        else
          obind (pdu_counter_index_to_name (Z.of_nat i)) (fun name =>
          obind (print_from prefix counter idxs') (fun rest =>
          Ok (counter_line prefix name v :: rest))))
  end.

Definition pdu_counter_print (prefix : string) (counter : pdu_counter_t)
    : outcome (list string) :=
  print_from prefix counter (seq 0 (Z.to_nat PDU_COUNTER_SIZE)).

(** What the headers provide: a PDU type is a byte and the types are
    pairwise distinct; the enumerators before [PDU_COUNTER_SIZE] number the
    elements of a [pdu_counter_t]. *)
Definition well_formed : Prop :=
  NoDup pdu_types
  /\ Forall (fun t => 0 <= t < 256) pdu_types
  /\ counter_indices ≡ₚ Z.of_nat <$> seq 0 (Z.to_nat PDU_COUNTER_SIZE).

(** A [pdu_counter_t] of [uint64_t] values. *)
Definition is_counter (counter : pdu_counter_t) : Prop :=
  Z.of_nat (List.length counter) = PDU_COUNTER_SIZE
  /\ Forall (fun v => 0 <= v < 2 ^ 64) counter.

(** A counter after the PDUs of the types [pdu_types] were counted, in
    this order. *)
Fixpoint count_all (counter : pdu_counter_t) (types : list Z)
    : outcome pdu_counter_t :=
  match types with
  | [] => Ok counter
  | t :: types' => obind (pdu_counter_count counter t)
                         (fun counter' => count_all counter' types')
  end.

End Counter.

(** The type numbers of ISO 10589 and the enumerators in the order of the
    two switches, from 0. *)
Definition iso10589 : constants :=
  {| L1_LAN_HELLO := 15; L2_LAN_HELLO := 16; P2P_HELLO := 17;
     L1_LINK_STATE := 18; L2_LINK_STATE := 20; FS_LINK_STATE := 10;
     L1_COMPLETE_SEQ_NUM := 24; L2_COMPLETE_SEQ_NUM := 25;
     L1_PARTIAL_SEQ_NUM := 26; L2_PARTIAL_SEQ_NUM := 27;
     L1_LAN_HELLO_INDEX := 0; L2_LAN_HELLO_INDEX := 1; P2P_HELLO_INDEX := 2;
     L1_LINK_STATE_INDEX := 3; L2_LINK_STATE_INDEX := 4;
     FS_LINK_STATE_INDEX := 5; L1_COMPLETE_SEQ_NUM_INDEX := 6;
     L2_COMPLETE_SEQ_NUM_INDEX := 7; L1_PARTIAL_SEQ_NUM_INDEX := 8;
     L2_PARTIAL_SEQ_NUM_INDEX := 9; PDU_COUNTER_SIZE := 10 |}.

End PduCounter.

(** ** The second loop of the resolver, for records of any kind *)

(** What the second loop of [mgmt_be_get_subscr_info_for_xpath] leaves for
    one client, [records] being the records of the client in the kept
    patterns, in their order: each subscribed record is copied over what the
    result holds. *)
Definition last_subscribed (records : list xpath_subscr) : xpath_subscr :=
  foldl (fun acc r => if subscribed r then r else acc) subscr_zero records.

(** ** What [mgmt_be_create_adapter] sets up *)

Section Created.

Variable MGMTD_BE_CLIENT_ID_MAX : nat.
Variable MGMTD_CLIENT_NAME_MAX_LEN : nat.

(** The adapter [mgmt_be_create_adapter] leaves for a descriptor that no
    registered adapter has: no client id yet, one reference, the read and
    the [CONN_INIT] event armed. *)
Definition new_adapter (fd : Z) (from : nat) : adapter :=
  {| conn_fd := fd; conn_su := from;
     name := unknown_fd_name MGMTD_CLIENT_NAME_MAX_LEN fd;
     id := MGMTD_BE_CLIENT_ID_MAX; flags := 0; refcount := 1;
     conn_init_ev := true; conn_read_ev := true; conn_write_ev := false;
     conn_writes_on := false; proc_msg_ev := false; mstate := [];
     cfg_chgs := [] |}.

(** The state it leaves: the adapter at the next address, linked at the
    tail of the registry. *)
Definition created_state (fd : Z) (from : nat) (st : state) : state :=
  {| heap := <[next_addr st := new_adapter fd from]> (heap st);
     next_addr := S (next_addr st);
     mgmt_be_adapters := mgmt_be_adapters st ++ [next_addr st];
     mgmt_be_adapters_by_id := mgmt_be_adapters_by_id st;
     mgmt_xpath_map := mgmt_xpath_map st;
     mgmt_be_adapter_tm := mgmt_be_adapter_tm st;
     txn_log := txn_log st;
     ds_iter_log := ds_iter_log st;
     mgmt_debug_be := mgmt_debug_be st |}.

End Created.

(** ** More invariants of the adapter state *)

(** Every allocated adapter is referenced. *)
Definition refs_ok (st : state) : Prop :=
  map_Forall (fun _ ad => 0 < refcount ad) (heap st).

(** The fields that [mgmt_be_adapter_init] sets and no other function
    writes. *)
Definition statics_are (map : list mgmt_be_xpath_regexp_map) (tm : bool)
    (st : state) : Prop :=
  mgmt_xpath_map st = map /\ mgmt_be_adapter_tm st = tm.

(** What holds in every state the daemon reaches, besides [state_ok]: every
    allocated adapter is referenced, no adapter is linked twice in the
    registry, and the running map and the event loop are those
    [mgmt_be_adapter_init] has set. *)
Definition state_ok2 (map : list mgmt_be_xpath_regexp_map) (st : state)
    : Prop :=
  refs_ok st /\ NoDup (mgmt_be_adapters st) /\ statics_are map true st.

(** ** Dropping references *)

(** The adapter at [a] holds its last reference. *)
Definition last_reference (st : state) (a : ptr) : bool :=
  match heap st !! a with
  | Some ad => refcount ad =? 1
  | None => false
  end.

(** What [mgmt_be_adapter_unlock] leaves of a referenced adapter: nothing
    when it drops the last reference. *)
Definition unlocked (ad : adapter) : option adapter :=
  if refcount ad =? 1 then None
  else Some (set_refcount (refcount ad - 1) ad).

(** ** What the handler of the messages passes on *)

(** The call into the transaction module that
    [mgmt_be_adapter_handle_msg] makes for a frame of the adapter [a]: one
    for each of the three replies, none for a frame that does not decode or
    that holds any other message. *)
Definition forwarded (a : ptr) (frame : option be_msg) : list txn_call :=
  match frame with
  | Some (TXN_REPLY txn_id create success) =>
      [txn_notify_be_txn_reply txn_id create success a]
  | Some (CFG_DATA_REPLY txn_id batch_id success error_if_any) =>
      [txn_notify_be_cfgdata_reply txn_id batch_id success error_if_any a]
  | Some (CFG_APPLY_REPLY txn_id success batch_ids error_if_any) =>
      [txn_notify_be_cfg_apply_reply txn_id success batch_ids error_if_any a]
  | _ => []
  end.

(** The frame holds a [SUBSCR_REQ] that names a client. *)
Definition names_client (frame : option be_msg) : bool :=
  match frame with
  | Some (SUBSCR_REQ client_name _ _) => negb (strlen client_name =? 0)
  | _ => false
  end.

(** The frame holds a [CFG_APPLY_REPLY] without a batch id. *)
Definition no_batch_ids (frame : option be_msg) : bool :=
  match frame with
  | Some (CFG_APPLY_REPLY _ _ [] _) => true
  | _ => false
  end.

(** A write of an adapter that takes no reference away, leaves the
    descriptor and does not cancel the read event. *)
Definition benign (f : adapter -> adapter) : Prop :=
  forall ad, refcount ad <= refcount (f ad)
             /\ conn_fd (f ad) = conn_fd ad
             /\ (conn_read_ev ad = true -> conn_read_ev (f ad) = true).

(** A registered adapter has its read event armed; an adapter that is
    allocated still but not registered has its descriptor closed. *)
Definition listening (st : state) : Prop :=
  forall a ad, heap st !! a = Some ad ->
    if bool_decide (a ∈ mgmt_be_adapters st) then conn_read_ev ad = true
    else conn_fd ad < 0.

(** ** The delimiters of a path *)

(** The characters the matcher counts: [/], [\]] and [\[]. *)
Definition is_delim (c : ascii) : bool :=
  is_char c "/" || is_char c "]" || is_char c "[".

(** The number of delimiters of [s] at the indices below [n]. *)
Definition delims_below (s : string) (n : Z) : Z :=
  Z.of_nat (List.length (filter (fun c => is_delim c = true)
                                (take (Z.to_nat n) (list_ascii_of_string s)))).

(** The number of delimiters of [s]. *)
Definition delims (s : string) : Z := delims_below s (strlen s).

(** What the loop of the matcher keeps: the side that absorbs a wildcard
    stands on it, and every delimiter that was counted lies below the two
    indices. *)
Definition counted (rb xb : ascii) (re xp : string) (s : Matcher.locals)
    : Prop :=
  0 <= Matcher.re_indx s /\ 0 <= Matcher.xp_indx s
  /\ (Matcher.re_wild s = true ->
      is_char (char_at rb re (Matcher.re_indx s)) "*" = true)
  /\ (Matcher.xp_wild s = true ->
      is_char (char_at xb xp (Matcher.xp_indx s)) "*" = true)
  /\ Matcher.match_len s <= delims_below re (Matcher.re_indx s)
  /\ Matcher.match_len s <= delims_below xp (Matcher.xp_indx s).

(** ** The old connections of a client *)

(** What [mgmt_be_adapter_disconnect] leaves of a referenced adapter:
    nothing when it drops the last reference. *)
Definition closed (max : nat) (ad : adapter) : option adapter :=
  if refcount ad =? 1 then None else Some (disconnected max ad).

(** The adapter at [b] is one of [l], is another one than [a] and bears the
    name [nm], as [strncmp] over [nlen] bytes compares the two. *)
Definition old_in (nlen : nat) (nm : string) (a : ptr) (l : list ptr)
    (st : state) (b : ptr) : bool :=
  bool_decide (b ∈ l) && negb (b =? a)%nat &&
  match heap st !! b with
  | Some bd => strncmp_eq nm (name bd) nlen
  | None => false
  end.

(** The old connections of the client [nm]: the registered adapters other
    than [a] that bear its name. *)
Definition old_conn (nlen : nat) (nm : string) (a : ptr) (st : state)
    (b : ptr) : bool :=
  old_in nlen nm a (mgmt_be_adapters st) st b.

(** * Properties of the matcher *)

Module MatcherFacts.
Import Matcher.

Section Facts.

Variables (re_before xp_before : ascii) (re xp : string).
Variables (rexp_len xpath_len : Z).

Local Abbreviation cond := (loop_cond rexp_len xpath_len).
Local Abbreviation body := (loop_body re_before xp_before re xp rexp_len xpath_len).

Lemma cond_bounds s :
  cond s = true -> re_indx s < rexp_len /\ xp_indx s < xpath_len.
Proof.
  unfold loop_cond. rewrite !andb_true_iff, !Z.ltb_lt. tauto.
Qed.

Lemma enter_wild_keeps s :
  let s' := enter_wild re_before xp_before re xp s in
  re_indx s' = re_indx s /\ xp_indx s' = xp_indx s
  /\ match_len s' = match_len s /\ (wild_ok s -> wild_ok s').
Proof.
  unfold enter_wild, wild_ok.
  destruct (enter_wild_match s) eqn:He; simpl; [intuition congruence|].
  repeat match goal with
         | |- context [if ?b then _ else _] => destruct b
         end; simpl; intuition congruence.
Qed.

Lemma exit_wild_keeps s :
  let s' := exit_wild re_before xp_before re xp rexp_len xpath_len s in
  re_indx s <= re_indx s' /\ xp_indx s <= xp_indx s'
  /\ (re_indx s < rexp_len -> re_indx s' < rexp_len)
  /\ (xp_indx s < xpath_len -> xp_indx s' < xpath_len)
  /\ match_len s' = match_len s /\ (wild_ok s -> wild_ok s').
Proof.
  unfold exit_wild, wild_ok.
  destruct (enter_wild_match s) eqn:He; simpl; [|intuition lia].
  destruct (re_wild s) eqn:Hr, (xp_wild s) eqn:Hx; simpl;
    repeat match goal with
           | |- context [if ?b then _ else _] => destruct b eqn:?
           end; simpl; rewrite ?He, ?Hr, ?Hx;
    repeat match goal with
           | H : (_ <? _) = true |- _ => apply Z.ltb_lt in H
           | H : (_ <? _) = false |- _ => apply Z.ltb_ge in H
           end; intuition (try congruence; try lia).
Qed.

Lemma count_and_advance_progress s :
  let s' := count_and_advance re_before xp_before re xp s in
  wild_ok s ->
  re_indx s <= re_indx s' <= re_indx s + 1
  /\ xp_indx s <= xp_indx s' <= xp_indx s + 1
  /\ re_indx s + xp_indx s < re_indx s' + xp_indx s'
  /\ match_len s <= match_len s' <= match_len s + 1
  /\ wild_ok s'.
Proof.
  unfold count_and_advance, wild_ok. simpl. intros [H1 H2].
  destruct (re_wild s) eqn:Hr, (xp_wild s) eqn:Hx; simpl;
    repeat match goal with
           | |- context [if ?b then _ else _] => destruct b eqn:?
           end; try (specialize (H1 eq_refl); discriminate);
    intuition (try congruence; try lia).
Qed.

Lemma compare_chars_keeps s :
  let s' := compare_chars re_before xp_before re xp s in
  re_indx s' = re_indx s /\ xp_indx s' = xp_indx s
  /\ match_len s' = match_len s /\ (wild_ok s -> wild_ok s').
Proof. unfold compare_chars, wild_ok. simpl. tauto. Qed.

(** An iteration keeps the invariant and advances. *)
Lemma body_inv s :
  inv rexp_len xpath_len s -> cond s = true ->
  inv rexp_len xpath_len (body s)
  /\ re_indx s + xp_indx s < re_indx (body s) + xp_indx (body s).
Proof.
  intros (Hre & Hxp & Hm & Hw) Hc. apply cond_bounds in Hc as [Hc1 Hc2].
  unfold loop_body.
  pose proof (compare_chars_keeps s) as (C1 & C2 & C3 & C4).
  set (s1 := compare_chars _ _ _ _ s) in *.
  pose proof (enter_wild_keeps s1) as (E1 & E2 & E3 & E4).
  set (s2 := enter_wild _ _ _ _ s1) in *.
  pose proof (exit_wild_keeps s2) as (X1 & X2 & X3 & X4 & X5 & X6).
  set (s3 := exit_wild _ _ _ _ _ _ s2) in *.
  pose proof (count_and_advance_progress s3 (X6 (E4 (C4 Hw))))
    as (A1 & A2 & A3 & A4 & A5).
  set (s4 := count_and_advance _ _ _ _ s3) in *.
  unfold inv. split; [|lia].
  split; [lia|]. split; [lia|]. split; [lia|exact A5].
Qed.

(** With fuel for the distance left, the loop runs until its condition
    fails, and the invariant holds then. *)
Lemma loop_exits fuel s :
  inv rexp_len xpath_len s ->
  rexp_len + xpath_len - (re_indx s + xp_indx s) <= Z.of_nat fuel ->
  let s' := loop re_before xp_before re xp rexp_len xpath_len fuel s in
  cond s' = false /\ inv rexp_len xpath_len s'.
Proof.
  revert s. induction fuel as [|fuel IH]; intros s Hi Hf; simpl.
  - split; [|done]. destruct (cond s) eqn:Hc; [|done].
    apply cond_bounds in Hc. destruct Hi as (? & ? & _). lia.
  - destruct (cond s) eqn:Hc; [|done].
    destruct (body_inv s Hi Hc) as [Hi' Hlt].
    apply IH; [done | lia].
Qed.

End Facts.

Lemma trim_len_bounds s : 0 <= trim_len s <= strlen s.
Proof.
  unfold trim_len, strlen.
  destruct (negb _ && _) eqn:H; [|lia].
  apply andb_true_iff in H as [H _]. apply negb_true_iff, Z.eqb_neq in H. lia.
Qed.

Lemma init_inv rexp_len xpath_len :
  0 <= rexp_len -> 0 <= xpath_len -> inv rexp_len xpath_len init.
Proof. unfold inv, wild_ok, init; simpl. intuition lia. Qed.

(** The loop of [mgmt_be_eval_regexp_match] terminates within the fuel
    given to it. *)
Lemma final_exits rb xb re xp :
  loop_cond (trim_len re) (trim_len xp) (final rb xb re xp) = false
  /\ inv (trim_len re) (trim_len xp) (final rb xb re xp).
Proof.
  unfold final, fuel_for.
  pose proof (trim_len_bounds re). pose proof (trim_len_bounds xp).
  apply loop_exits; [apply init_inv; lia|]. simpl. lia.
Qed.

Lemma finish_bounds rb re s :
  match_len s <= finish rb re s <= match_len s + 1.
Proof. unfold finish. destruct (_ && _ && _); lia. Qed.


(** The loop reads the two strings below their trimmed lengths only (and the
    byte in front of them): strings that agree there are matched alike. *)
Section Agree.

Variables (rb xb : ascii) (re re' xp xp' : string).
Variables (rexp_len xpath_len : Z).
Hypothesis agree_re :
  forall i, i < rexp_len -> char_at rb re i = char_at rb re' i.
Hypothesis agree_xp :
  forall i, i < xpath_len -> char_at xb xp i = char_at xb xp' i.

Lemma compare_chars_agree s :
  re_indx s < rexp_len -> xp_indx s < xpath_len ->
  compare_chars rb xb re xp s = compare_chars rb xb re' xp' s.
Proof.
  intros. unfold compare_chars.
  rewrite (agree_re (re_indx s)), (agree_xp (xp_indx s)) by lia. done.
Qed.

Lemma enter_wild_agree s :
  re_indx s < rexp_len -> xp_indx s < xpath_len ->
  enter_wild rb xb re xp s = enter_wild rb xb re' xp' s.
Proof.
  intros. unfold enter_wild.
  rewrite (agree_re (re_indx s)), (agree_xp (xp_indx s)),
    (agree_re (re_indx s - 1)), (agree_xp (xp_indx s - 1)) by lia. done.
Qed.

Lemma exit_wild_agree s :
  re_indx s < rexp_len -> xp_indx s < xpath_len ->
  exit_wild rb xb re xp rexp_len xpath_len s
  = exit_wild rb xb re' xp' rexp_len xpath_len s.
Proof.
  intros. unfold exit_wild.
  rewrite (agree_re (re_indx s)), (agree_xp (xp_indx s)) by lia. done.
Qed.

Lemma count_and_advance_agree s :
  re_indx s < rexp_len -> xp_indx s < xpath_len ->
  count_and_advance rb xb re xp s = count_and_advance rb xb re' xp' s.
Proof.
  intros. unfold count_and_advance, both_delim.
  rewrite (agree_re (re_indx s)), (agree_xp (xp_indx s)) by lia. done.
Qed.

Lemma body_agree s :
  loop_cond rexp_len xpath_len s = true ->
  loop_body rb xb re xp rexp_len xpath_len s
  = loop_body rb xb re' xp' rexp_len xpath_len s.
Proof.
  intros Hc. apply cond_bounds in Hc as [Hc1 Hc2]. unfold loop_body.
  rewrite <- (compare_chars_agree s) by done.
  pose proof (compare_chars_keeps rb xb re xp s) as (C1 & C2 & _).
  set (s1 := compare_chars _ _ _ _ s) in *.
  rewrite <- (enter_wild_agree s1) by lia.
  pose proof (enter_wild_keeps rb xb re xp s1) as (E1 & E2 & _).
  set (s2 := enter_wild _ _ _ _ s1) in *.
  rewrite <- (exit_wild_agree s2) by lia.
  pose proof (exit_wild_keeps rb xb re xp rexp_len xpath_len s2)
    as (_ & _ & X3 & X4 & _).
  set (s3 := exit_wild _ _ _ _ _ _ s2) in *.
  apply count_and_advance_agree; [apply X3 | apply X4]; lia.
Qed.

Lemma loop_agree fuel s :
  loop rb xb re xp rexp_len xpath_len fuel s
  = loop rb xb re' xp' rexp_len xpath_len fuel s.
Proof.
  revert s. induction fuel as [|fuel IH]; intros s; simpl; [done|].
  destruct (loop_cond _ _ s) eqn:Hc; [|done].
  rewrite (body_agree s Hc). apply IH.
Qed.

End Agree.

Lemma strlen_append s t : strlen (s +:+ t) = strlen s + strlen t.
Proof.
  unfold strlen.
  assert (H : String.length (s +:+ t)
              = (String.length s + String.length t)%nat).
  { induction s as [|c s IH]; simpl; [done|]. by rewrite IH. }
  rewrite H. lia.
Qed.

Lemma char_at_append_l b s t i :
  i < strlen s -> char_at b (s +:+ t) i = char_at b s i.
Proof.
  unfold char_at, strlen. intros Hi. destruct (i <? 0) eqn:Hneg; [done|].
  apply Z.ltb_ge in Hneg.
  rewrite <- (String.append_correct1 s t (Z.to_nat i)) by lia. done.
Qed.

Lemma char_at_append_r b s t :
  char_at b (s +:+ t) (strlen s) = char_at b t 0.
Proof.
  unfold char_at, strlen.
  destruct (Z.of_nat _ <? 0) eqn:Hneg; [apply Z.ltb_lt in Hneg; lia|].
  destruct (0 <? 0) eqn:H0; [done|].
  rewrite Nat2Z.id. change (Z.to_nat 0) with 0%nat.
  by rewrite (String.append_correct2 s t 0).
Qed.

Lemma get_past_end s n : (String.length s <= n)%nat -> String.get n s = None.
Proof.
  revert n. induction s as [|c s IH]; intros n Hn; simpl in *; [by destruct n|].
  destruct n; [lia|]. apply IH. lia.
Qed.

Lemma char_at_end b s : char_at b s (strlen s) = Ascii.zero.
Proof.
  unfold char_at, strlen.
  destruct (Z.of_nat _ <? 0) eqn:Hneg; [apply Z.ltb_lt in Hneg; lia|].
  by rewrite Nat2Z.id, get_past_end.
Qed.

(** A string with a wildcard appended is trimmed to the string. *)
Lemma trim_len_star s : trim_len (s +:+ "*") = strlen s.
Proof.
  unfold trim_len. rewrite strlen_append.
  change (strlen "*") with 1. replace (strlen s + 1 - 1) with (strlen s) by lia.
  rewrite char_at_append_r.
  assert (0 <= strlen s) by (unfold strlen; lia).
  destruct (strlen s + 1 =? 0) eqn:H0; [apply Z.eqb_eq in H0; lia|]. done.
Qed.

Lemma trim_len_zero s : trim_len s = 0 <-> s = "" \/ s = "*".
Proof.
  split; [|by intros [-> | ->]].
  intros H. destruct s as [|c [|d s]]; [by left| |].
  - right. unfold trim_len, strlen, char_at, is_char in H. simpl in H.
    destruct (Ascii.eqb c "*") eqn:Hc; [|done].
    apply Ascii.eqb_eq in Hc. by subst.
  - pose proof (trim_len_bounds (String c (String d s))) as Hb.
    unfold trim_len in H, Hb. destruct (_ && _) in H, Hb;
      unfold strlen in H, Hb; simpl String.length in H, Hb; lia.
Qed.
End MatcherFacts.

(** The match length is never negative and never more than the two lengths
    allow, so that every [int] of the function stays in range for strings
    shorter than [INT_MAX / 2]. *)
Lemma eval_regexp_match_bounds rb xb re xp :
  0 <= mgmt_be_eval_regexp_match rb xb re xp <= strlen re + strlen xp + 1.
Proof.
  unfold mgmt_be_eval_regexp_match.
  pose proof (MatcherFacts.trim_len_bounds re). pose proof (MatcherFacts.trim_len_bounds xp).
  destruct (_ || _); [unfold strlen in *; lia|].
  destruct (MatcherFacts.final_exits rb xb re xp) as [_ (? & ? & ? & _)].
  pose proof (MatcherFacts.finish_bounds rb re (Matcher.final rb xb re xp)).
  lia.
Qed.

Lemma eval_regexp_match_trimmed_empty rb xb re xp :
  Matcher.trim_len re = 0 \/ Matcher.trim_len xp = 0 ->
  mgmt_be_eval_regexp_match rb xb re xp = 0.
Proof.
  unfold mgmt_be_eval_regexp_match. intros [-> | ->]; simpl; [done|].
  by rewrite orb_true_r.
Qed.

(** Appending a wildcard to the instance path changes nothing. *)
Lemma eval_regexp_match_star_xpath rb xb re xp :
  Matcher.trim_len xp = strlen xp ->
  mgmt_be_eval_regexp_match rb xb re (xp +:+ "*")
  = mgmt_be_eval_regexp_match rb xb re xp.
Proof.
  intros Hx. unfold mgmt_be_eval_regexp_match, Matcher.final, Matcher.fuel_for.
  rewrite MatcherFacts.trim_len_star, Hx.
  destruct (_ || _); [done|]. f_equal.
  apply MatcherFacts.loop_agree; [done|].
  intros i Hi. by apply MatcherFacts.char_at_append_l.
Qed.

(** Appending a wildcard to the pattern changes nothing. *)
Lemma eval_regexp_match_star_regexp rb xb re xp :
  Matcher.trim_len re = strlen re ->
  mgmt_be_eval_regexp_match rb xb (re +:+ "*") xp
  = mgmt_be_eval_regexp_match rb xb re xp.
Proof.
  intros Hr. unfold mgmt_be_eval_regexp_match, Matcher.final, Matcher.fuel_for.
  rewrite MatcherFacts.trim_len_star, Hr.
  destruct (_ || _); [done|].
  rewrite (MatcherFacts.loop_agree rb xb (re +:+ "*") re xp xp
             (strlen re) (Matcher.trim_len xp));
    [|intros i Hi; by apply MatcherFacts.char_at_append_l|done].
  pose proof (MatcherFacts.final_exits rb xb re xp) as [_ (Hb & _)].
  unfold Matcher.final, Matcher.fuel_for in Hb. rewrite Hr in Hb.
  set (s := Matcher.loop _ _ _ _ _ _ _ _) in *.
  unfold Matcher.finish.
  destruct (Z.eq_dec (Matcher.re_indx s) (strlen re)) as [He|Hne].
  - rewrite He, MatcherFacts.char_at_append_r, MatcherFacts.char_at_end.
    simpl. by rewrite !andb_false_r.
  - rewrite MatcherFacts.char_at_append_l by lia. done.
Qed.

(** * Properties of the resolver *)

Module ResolverFacts.

Section FirstLoop.

Variable eval_match : string -> string -> Z.
Variable xpath : string.

Local Abbreviation m_of e := (eval_match (xpath_regexp e) xpath).
Local Abbreviation max_of := (Spec.max_match_len eval_match).
Local Abbreviation kept := (Spec.kept_patterns eval_match).

Lemma max_match_len_snoc map e :
  max_of (map ++ [e]) xpath = Z.max (max_of map xpath) (m_of e).
Proof. unfold Spec.max_match_len. by rewrite foldl_snoc. Qed.

Lemma max_match_len_nonneg map : 0 <= max_of map xpath.
Proof.
  induction map as [|e map IH] using rev_ind; [done|].
  rewrite max_match_len_snoc. lia.
Qed.

Lemma max_match_len_upper map e :
  In e map -> m_of e <= max_of map xpath.
Proof.
  induction map as [|e' map IH] using rev_ind; [done|].
  rewrite max_match_len_snoc, in_app_iff. simpl.
  intros [H | [-> | []]]; [specialize (IH H)|]; lia.
Qed.

(** The patterns kept for a longer registry. *)
Lemma kept_patterns_snoc map e :
  kept (map ++ [e]) xpath =
    if (m_of e =? 0) || (m_of e <? max_of map xpath) then kept map xpath
    else if m_of e >? max_of map xpath then [e]
    else kept map xpath ++ [e].
Proof.
  unfold Spec.kept_patterns at 1.
  rewrite List.filter_app, max_match_len_snoc. simpl.
  pose proof (max_match_len_nonneg map) as Hnn.
  destruct (m_of e =? 0) eqn:H0; simpl.
  { apply Z.eqb_eq in H0. rewrite H0, Z.max_l by lia. simpl.
    by rewrite app_nil_r. }
  apply Z.eqb_neq in H0.
  destruct (m_of e <? max_of map xpath) eqn:Hlt; simpl.
  { apply Z.ltb_lt in Hlt. rewrite Z.max_l by lia.
    replace (m_of e =? max_of map xpath) with false
      by (symmetry; apply Z.eqb_neq; lia).
    by rewrite andb_false_r, app_nil_r. }
  apply Z.ltb_ge in Hlt. rewrite Z.max_r by lia.
  rewrite Z.eqb_refl, andb_true_r.
  replace (0 <? m_of e) with true by (symmetry; apply Z.ltb_lt; lia).
  destruct (m_of e >? max_of map xpath) eqn:Hgt.
  - rewrite Z.gtb_ltb in Hgt. apply Z.ltb_lt in Hgt.
    replace (List.filter _ map) with (@nil mgmt_be_xpath_regexp_map); [done|].
    symmetry. rewrite <- (List.filter_false map).
    apply List.filter_ext_in. intros e' He'.
    apply max_match_len_upper in He'.
    replace (m_of e' =? m_of e) with false
      by (symmetry; apply Z.eqb_neq; lia).
    apply andb_false_r.
  - rewrite Z.gtb_ltb in Hgt. apply Z.ltb_ge in Hgt.
    by replace (m_of e) with (max_of map xpath) by lia.
Qed.

(** The first loop of the resolver keeps the patterns of the maximum
    positive match length, in registry order, and ends with that maximum. *)
Lemma select_map_kept map :
  foldl (select_map eval_match xpath false) ([], 0) map
  = (be_subscrs <$> kept map xpath, max_of map xpath).
Proof.
  induction map as [|e map IH] using rev_ind; [done|].
  rewrite foldl_snoc, IH, kept_patterns_snoc, max_match_len_snoc.
  unfold select_map.
  pose proof (max_match_len_nonneg map) as Hnn.
  destruct (m_of e =? 0) eqn:H0; simpl.
  { apply Z.eqb_eq in H0. rewrite H0. f_equal. lia. }
  destruct (m_of e <? max_of map xpath) eqn:Hlt; simpl.
  { apply Z.ltb_lt in Hlt. f_equal. lia. }
  apply Z.ltb_ge in Hlt.
  destruct (m_of e >? max_of map xpath) eqn:Hgt.
  - rewrite Z.gtb_ltb in Hgt. apply Z.ltb_lt in Hgt. simpl. f_equal. lia.
  - rewrite fmap_app. simpl. f_equal. lia.
Qed.

(** For a root-scope path every pattern is kept. *)
Lemma select_map_root map acc mx :
  foldl (select_map eval_match xpath true) (acc, mx) map
  = (acc ++ (be_subscrs <$> map), mx).
Proof.
  revert acc. induction map as [|e map IH]; intros acc; simpl.
  - by rewrite app_nil_r.
  - rewrite IH. by rewrite <- app_assoc.
Qed.

End FirstLoop.


Section SecondLoop.

Variable max : nat.

Local Abbreviation info_ok := (subscr_info_ok max).

Lemma set_all_caps_all r : set_all_caps r = subscr_all.
Proof. done. Qed.

Lemma subscr_info_zero_ok : info_ok (subscr_info_zero max).
Proof.
  split; [apply length_replicate|].
  apply Forall_replicate. by left.
Qed.

Lemma init_clients_ok clients subs :
  info_ok subs -> info_ok (init_clients max clients subs).
Proof.
  revert subs. induction clients as [|id rest IH]; intros subs Hok; [done|].
  simpl. destruct (id =? max)%nat; [done|].
  destruct (id <? max)%nat; [|by apply IH].
  apply IH. destruct Hok as [Hlen Hall]. split.
  - by rewrite length_alter.
  - apply Forall_alter; [done|]. intros r _. by right.
Qed.

Lemma map_init_ok reg :
  Forall (fun e => info_ok (be_subscrs e)) (mgmt_be_xpath_map_init max reg).
Proof.
  unfold mgmt_be_xpath_map_init. apply Forall_fmap, Forall_true.
  intros r. simpl. apply init_clients_ok, subscr_info_zero_ok.
Qed.

Lemma copy_client_length src out id :
  List.length (copy_client src out id) = List.length out.
Proof.
  unfold copy_client. destruct (src !! id) as [r|]; [|done].
  destruct (subscribed r); [|done]. apply length_insert.
Qed.

Lemma copy_client_ne src out id j :
  id <> j -> copy_client src out id !! j = out !! j.
Proof.
  intros Hne. unfold copy_client. destruct (src !! id) as [r|]; [|done].
  destruct (subscribed r); [|done]. by apply list_lookup_insert_ne.
Qed.

(** The inner loop of the copy touches each client id once. *)
Lemma copy_clients_lookup src n a out j :
  foldl (copy_client src) out (seq a n) !! j
  = if decide (a <= j < a + n)%nat then copy_client src out j !! j
    else out !! j.
Proof.
  revert a out. induction n as [|n IH]; intros a out; simpl.
  - case_decide; [lia|done].
  - rewrite IH. destruct (decide (a = j)) as [->|Hne].
    + repeat case_decide; try lia. done.
    + rewrite (copy_client_ne src out a j) by done.
      repeat case_decide; try lia; [|done].
      unfold copy_client at 1 3. destruct (src !! j) as [r|]; [|by rewrite copy_client_ne].
      destruct (subscribed r); [|by rewrite copy_client_ne].
      destruct (decide (j < List.length out)%nat).
      * rewrite !list_lookup_insert_eq; [done|done|by rewrite copy_client_length].
      * rewrite !list_insert_ge; [by rewrite copy_client_ne| lia |rewrite copy_client_length; lia].
Qed.

Lemma copy_clients_length src l out :
  List.length (foldl (copy_client src) out l) = List.length out.
Proof.
  revert out. induction l as [|id l IH]; intros out; simpl; [done|].
  by rewrite IH, copy_client_length.
Qed.

(** One pattern copied into the result: the record of a subscribed client
    replaces what the result held. *)
Lemma copy_subscribed_lookup out src id r_out r_src :
  List.length out = max -> out !! id = Some r_out -> src !! id = Some r_src ->
  copy_subscribed max out src !! id
  = Some (if subscribed r_src then r_src else r_out).
Proof.
  intros Hlen Hout Hsrc. unfold copy_subscribed.
  rewrite copy_clients_lookup. apply lookup_lt_Some in Hout as Hlt.
  case_decide; [|lia]. unfold copy_client. rewrite Hsrc.
  destruct (subscribed r_src); [|done].
  by rewrite list_lookup_insert_eq.
Qed.

Lemma uniform_or r0 r :
  uniform r0 -> uniform r ->
  (if subscribed r then r else r0) = Spec.subscr_or r0 r
  /\ uniform (Spec.subscr_or r0 r).
Proof. intros [-> | ->] [-> | ->]; (split; [done|]); by (left + right). Qed.

(** The second loop over patterns with uniform records: the result holds
    the OR of the records. *)
Lemma copy_all_lookup maps out id r0 :
  List.length out = max -> out !! id = Some r0 -> uniform r0 ->
  Forall info_ok maps ->
  foldl (copy_subscribed max) out maps !! id
  = Some (foldl Spec.subscr_or r0
                ((fun m => default subscr_zero (m !! id)) <$> maps)).
Proof.
  intros Hlen Hout Hu Hok. revert out r0 Hlen Hout Hu.
  induction Hok as [|m maps [Hm1 Hm2] Hok IH]; intros out r0 Hlen Hout Hu;
    [done|].
  simpl. apply lookup_lt_Some in Hout as Hlt.
  destruct (lookup_lt_is_Some_2 m id) as [r Hr]; [lia|].
  rewrite Hr. simpl.
  assert (uniform r) as Hur by (eapply Forall_lookup_1; eauto).
  destruct (uniform_or r0 r Hu Hur) as [Heq Hu'].
  apply IH; [| |done].
  - unfold copy_subscribed. by rewrite copy_clients_length.
  - rewrite <- Heq. by apply copy_subscribed_lookup.
Qed.

Lemma copy_all_length maps out :
  List.length (foldl (copy_subscribed max) out maps) = List.length out.
Proof.
  revert out. induction maps as [|m maps IH]; intros out; simpl; [done|].
  rewrite IH. apply copy_clients_length.
Qed.

(** The second loop over registered patterns yields their union. *)
Lemma copy_all_union patterns :
  Forall (fun e => info_ok (be_subscrs e)) patterns ->
  foldl (copy_subscribed max) (subscr_info_zero max)
        (be_subscrs <$> patterns)
  = Spec.union_of max patterns.
Proof.
  intros Hok. apply list_eq. intros id. unfold Spec.union_of.
  rewrite list_lookup_fmap.
  destruct (decide (id < max)%nat) as [Hlt|Hge].
  - rewrite lookup_seq_lt by done. simpl.
    erewrite copy_all_lookup.
    + unfold Spec.union_at. by rewrite <- list_fmap_compose.
    + apply length_replicate.
    + by apply lookup_replicate_2.
    + by left.
    + by apply Forall_fmap.
  - rewrite lookup_seq_ge by lia. simpl. apply lookup_ge_None.
    rewrite copy_all_length. unfold subscr_info_zero.
    rewrite length_replicate. lia.
Qed.

End SecondLoop.

End ResolverFacts.

(** * Running the monad *)

Lemma bind_Ok {A B} (m : M A) (k : A -> M B) st y st'' :
  bind m k st = Ok (y, st'') ->
  exists x st', m st = Ok (x, st') /\ k x st' = Ok (y, st'').
Proof.
  unfold bind. destruct (m st) as [[x st']|f]; [|done]. eauto.
Qed.

Lemma ret_Ok {A} (x y : A) st st' : ret x st = Ok (y, st') -> y = x /\ st' = st.
Proof. unfold ret. by intros [= -> ->]. Qed.

Lemma gets_Ok {A} (f : state -> A) y st st' :
  gets f st = Ok (y, st') -> y = f st /\ st' = st.
Proof. unfold gets. by intros [= -> ->]. Qed.

Lemma modify_state_Ok f x st st' :
  modify_state f st = Ok (x, st') -> st' = f st.
Proof. unfold modify_state. by intros [= _ ->]. Qed.

Lemma assert_Ok b x st st' : assert b st = Ok (x, st') -> b = true /\ st' = st.
Proof. destruct b; [|done]. unfold assert, ret. by intros [= _ ->]. Qed.

Lemma load_Ok a ad st st' :
  load a st = Ok (ad, st') -> heap st !! a = Some ad /\ st' = st.
Proof.
  unfold load. destruct (heap st !! a) as [ad'|]; [|done]. by intros [= -> ->].
Qed.

Lemma store_Ok a ad x st st' :
  store a ad st = Ok (x, st') ->
  is_Some (heap st !! a) /\ st' = set_heap (<[a := ad]> (heap st)) st.
Proof.
  unfold store. destruct (heap st !! a) as [ad'|]; [|done].
  intros [= _ ->]. eauto.
Qed.

Lemma update_Ok a f x st st' :
  update a f st = Ok (x, st') ->
  exists ad, heap st !! a = Some ad
             /\ st' = set_heap (<[a := f ad]> (heap st)) st.
Proof.
  unfold update. intros H. apply bind_Ok in H as (ad & st1 & H1 & H2).
  apply load_Ok in H1 as [H1 ->]. apply store_Ok in H2 as [_ ->]. eauto.
Qed.

Lemma load_run a ad st : heap st !! a = Some ad -> load a st = Ok (ad, st).
Proof. unfold load. by intros ->. Qed.

Lemma store_run a ad0 ad st :
  heap st !! a = Some ad0 ->
  store a ad st = Ok (tt, set_heap (<[a := ad]> (heap st)) st).
Proof. unfold store. by intros ->. Qed.

Lemma update_run a f ad st :
  heap st !! a = Some ad ->
  update a f st = Ok (tt, set_heap (<[a := f ad]> (heap st)) st).
Proof.
  intros H. unfold update, bind. rewrite (load_run a ad st H).
  by rewrite (store_run a ad).
Qed.

(** Take apart a run that ended normally. *)
Ltac run_inv H :=
  lazymatch type of H with
  | bind _ _ _ = Ok _ =>
      let x := fresh "x" in let st := fresh "st" in
      let H1 := fresh "Hrun" in let H2 := fresh "Hrun" in
      apply bind_Ok in H as (x & st & H1 & H2);
      run_inv H1; run_inv H2
  | ret _ _ = Ok _ => apply ret_Ok in H as [? ?]; subst
  | gets _ _ = Ok _ => apply gets_Ok in H as [? ?]; subst
  | modify_state _ _ = Ok _ => apply modify_state_Ok in H; subst
  | assert _ _ = Ok _ => apply assert_Ok in H as [? ?]; subst
  | load _ _ = Ok _ => apply load_Ok in H as [? ?]; subst
  | store _ _ _ = Ok _ => apply store_Ok in H as [? ?]; subst
  | update _ _ _ = Ok _ =>
      let ad := fresh "ad" in let Hl := fresh "Hload" in
      apply update_Ok in H as (ad & Hl & ?); subst
  | raise _ _ = Ok _ => discriminate H
  | _ => idtac
  end.

(** * Pre- and postconditions *)

Lemma hoare_weaken {A} (P P' : state -> Prop) (Q Q' : A -> state -> Prop) m :
  hoare P m Q -> (forall st, P' st -> P st) ->
  (forall x st, Q x st -> Q' x st) -> hoare P' m Q'.
Proof. intros H HP HQ st x st' Hst Hrun. eapply HQ, H; eauto. Qed.

Lemma hoare_ret {A} (P : state -> Prop) (x : A) :
  hoare P (ret x) (fun y st => P st /\ y = x).
Proof. intros st y st' HP H. by apply ret_Ok in H as [-> ->]. Qed.

Lemma hoare_ret' {A} (P : state -> Prop) (Q : A -> state -> Prop) (x : A) :
  (forall st, P st -> Q x st) -> hoare P (ret x) Q.
Proof. intros HQ st y st' HP H. apply ret_Ok in H as [-> ->]. auto. Qed.

Lemma hoare_bind {A B} (P : state -> Prop) (R : A -> state -> Prop)
    (Q : B -> state -> Prop) (m : M A) (k : A -> M B) :
  hoare P m R -> (forall x, hoare (R x) (k x) Q) -> hoare P (bind m k) Q.
Proof.
  intros Hm Hk st y st'' HP H. apply bind_Ok in H as (x & st' & H1 & H2).
  eapply Hk; [|exact H2]. eapply Hm; eauto.
Qed.

Lemma hoare_load (P : state -> Prop) a :
  hoare P (load a) (fun ad st => P st /\ heap st !! a = Some ad).
Proof. intros st ad st' HP H. by apply load_Ok in H as [? ->]. Qed.

Lemma hoare_assert (P : state -> Prop) b :
  hoare P (assert b) (fun _ st => P st /\ b = true).
Proof. intros st ad st' HP H. by apply assert_Ok in H as [? ->]. Qed.

Lemma hoare_gets {A} (P : state -> Prop) (f : state -> A) :
  hoare P (gets f) (fun x st => P st /\ x = f st).
Proof. intros st ad st' HP H. by apply gets_Ok in H as [? ->]. Qed.

Lemma hoare_if {A} (P : state -> Prop) (Q : A -> state -> Prop)
    (b : bool) (m1 m2 : M A) :
  (b = true -> hoare P m1 Q) -> (b = false -> hoare P m2 Q) ->
  hoare P (if b then m1 else m2) Q.
Proof. destruct b; auto. Qed.

Lemma hoare_false {A} (P : state -> Prop) (m : M A) Q :
  (forall st, ~ P st) -> hoare P m Q.
Proof. intros HP st x st' Hst. by destruct (HP st). Qed.

(** * Keeping a property of the state *)

Section Preserves.

Context {P : state -> Prop}.

Lemma preserves_ret {A} (x : A) : preserves P (ret x).
Proof. intros st y st' HP H. by apply ret_Ok in H as [_ ->]. Qed.

Lemma preserves_bind {A B} (m : M A) (k : A -> M B) :
  preserves P m -> (forall x, preserves P (k x)) -> preserves P (bind m k).
Proof.
  intros Hm Hk st y st'' HP H. apply bind_Ok in H as (x & st' & H1 & H2).
  eapply Hk; [|exact H2]. eapply Hm; eauto.
Qed.

Lemma preserves_gets {A} (f : state -> A) : preserves P (gets f).
Proof. intros st y st' HP H. by apply gets_Ok in H as [_ ->]. Qed.

Lemma preserves_assert b : preserves P (assert b).
Proof. intros st y st' HP H. by apply assert_Ok in H as [_ ->]. Qed.

Lemma preserves_raise {A} f : preserves P (@raise A f).
Proof. intros st y st' HP H. discriminate H. Qed.

Lemma preserves_load a : preserves P (load a).
Proof. intros st y st' HP H. by apply load_Ok in H as [_ ->]. Qed.

Lemma preserves_if {A} (b : bool) (m1 m2 : M A) :
  preserves P m1 -> preserves P m2 -> preserves P (if b then m1 else m2).
Proof. by destruct b. Qed.

Lemma preserves_for_each {A} (l : list A) (body : A -> M unit) :
  (forall x, preserves P (body x)) -> preserves P (for_each l body).
Proof.
  intros Hb. induction l as [|x l IH]; simpl; [apply preserves_ret|].
  apply preserves_bind; [apply Hb|]. intros _. apply IH.
Qed.

Lemma preserves_discard {A} (m : M A) : preserves P m -> preserves P (discard m).
Proof.
  intros Hm. apply preserves_bind; [done|]. intros _. apply preserves_ret.
Qed.

Lemma preserves_element array i : preserves P (element array i).
Proof.
  unfold element.
  destruct (if 0 <=? i then array !! Z.to_nat i else None);
    [apply preserves_ret|apply preserves_raise].
Qed.

Lemma preserves_DBG args :
  preserves P args -> preserves P (MGMTD_BE_ADAPTER_DBG args).
Proof.
  intros Hargs. apply preserves_bind; [apply preserves_gets|]. intros debug.
  apply preserves_if; [done|apply preserves_ret].
Qed.

End Preserves.

(** The debug logs only read. *)
Ltac preserves_debug :=
  apply preserves_DBG;
  repeat first [ apply preserves_ret | apply preserves_load
               | apply preserves_element
               | apply preserves_bind; [|intros ?] ].

Lemma DBG_run args st :
  MGMTD_BE_ADAPTER_DBG args st
  = if mgmt_debug_be st then args st else Ok (tt, st).
Proof.
  unfold MGMTD_BE_ADAPTER_DBG, bind, gets. by destruct (mgmt_debug_be st).
Qed.

(** * The flag operations *)

Lemma check_flag_testbit v bit :
  CHECK_FLAG v (Z.shiftl 1 (Z.of_nat bit)) = Z.testbit v (Z.of_nat bit).
Proof.
  unfold CHECK_FLAG. rewrite Z.shiftl_1_l.
  destruct (Z.testbit v (Z.of_nat bit)) eqn:Hb.
  - apply negb_true_iff, Z.eqb_neq. intros H0.
    assert (Ht : Z.testbit (Z.land v (2 ^ Z.of_nat bit)) (Z.of_nat bit) = true).
    { rewrite Z.land_spec, Hb, Z.pow2_bits_true by lia. done. }
    rewrite H0 in Ht. by rewrite Z.bits_0 in Ht.
  - apply negb_false_iff, Z.eqb_eq. apply Z.bits_inj'. intros n Hn.
    rewrite Z.land_spec, Z.bits_0.
    destruct (Z.eq_dec n (Z.of_nat bit)) as [-> | Hne].
    + by rewrite Hb.
    + rewrite Z.pow2_bits_false by lia. apply andb_false_r.
Qed.

Lemma check_set_flag v bit :
  CHECK_FLAG (SET_FLAG v (Z.shiftl 1 (Z.of_nat bit)))
             (Z.shiftl 1 (Z.of_nat bit)) = true.
Proof.
  rewrite check_flag_testbit. unfold SET_FLAG.
  rewrite Z.lor_spec, Z.shiftl_1_l, Z.pow2_bits_true by lia.
  apply orb_true_r.
Qed.

Lemma check_unset_flag v bit :
  CHECK_FLAG (UNSET_FLAG v (Z.shiftl 1 (Z.of_nat bit)))
             (Z.shiftl 1 (Z.of_nat bit)) = false.
Proof.
  rewrite check_flag_testbit. unfold UNSET_FLAG.
  rewrite Z.land_spec, Z.lnot_spec, Z.shiftl_1_l, Z.pow2_bits_true by lia.
  apply andb_false_r.
Qed.

Lemma check_flag_zero bit :
  CHECK_FLAG 0 (Z.shiftl 1 (Z.of_nat bit)) = false.
Proof. rewrite check_flag_testbit. apply Z.bits_0. Qed.

(** * The invariant is kept *)

Section StateOk.

Variable MGMTD_BE_CLIENT_ID_MAX : nat.
Variable MGMTD_CLIENT_NAME_MAX_LEN : nat.
Variable writes_off_bit : nat.
Variable mgmt_be_client_name2id : string -> nat.
Variable get_packed_size : be_msg -> nat.
Variable byte_before : string -> ascii.

Local Abbreviation ok := (state_ok writes_off_bit).
Local Abbreviation wok := (writes_off_ok writes_off_bit).

(** A change of the state outside the heap, the registry and the address
    counter. *)
Lemma state_ok_other st st' :
  heap st' = heap st -> mgmt_be_adapters st' = mgmt_be_adapters st ->
  next_addr st' = next_addr st -> ok st -> ok st'.
Proof.
  intros Hh Hr Hn [H1 H2 H3 H4].
  split; rewrite ?Hh, ?Hr, ?Hn; done.
Qed.

(** Writing an adapter: its descriptor stays, unless it is not registered,
    and the write-off rule holds for what is written. *)
Lemma state_ok_store st a ad ad' :
  ok st -> heap st !! a = Some ad ->
  (a ∈ mgmt_be_adapters st -> conn_fd ad' = conn_fd ad) ->
  wok ad' ->
  ok (set_heap (<[a := ad']> (heap st)) st).
Proof.
  intros [H1 H2 H3 H4] Ha Hfd Hw. split; simpl.
  - by apply map_Forall_insert_2.
  - intros b Hb. destruct (decide (a = b)) as [->|Hne].
    + rewrite lookup_insert_eq. eauto.
    + rewrite lookup_insert_ne by done. by apply H2.
  - intros b. destruct (decide (a = b)) as [->|Hne].
    + intros _. apply H3. eauto.
    + rewrite lookup_insert_ne by done. apply H3.
  - intros b c bd cd Hb Hc Hbd Hcd Heq.
    assert (Hget : forall x xd, x ∈ mgmt_be_adapters st ->
              <[a := ad']> (heap st) !! x = Some xd ->
              exists xd0, heap st !! x = Some xd0 /\ conn_fd xd0 = conn_fd xd).
    { intros x xd Hx Hxd. destruct (decide (a = x)) as [->|Hne].
      - rewrite lookup_insert_eq in Hxd. injection Hxd as <-.
        exists ad. split; [done|]. symmetry. by apply Hfd.
      - rewrite lookup_insert_ne in Hxd by done. eauto. }
    destruct (Hget b bd Hb Hbd) as (bd0 & Hb0 & Hbf).
    destruct (Hget c cd Hc Hcd) as (cd0 & Hc0 & Hcf).
    apply (H4 b c bd0 cd0); try done. congruence.
Qed.

Lemma state_ok_del st a :
  ok st ->
  ok (set_mgmt_be_adapters (filter (fun p => p <> a) (mgmt_be_adapters st)) st).
Proof.
  intros [H1 H2 H3 H4]. split; simpl; [done| |done|].
  - intros b Hb. apply list_elem_of_filter in Hb as [_ Hb]. by apply H2.
  - intros b c bd cd Hb Hc. apply list_elem_of_filter in Hb as [_ Hb].
    apply list_elem_of_filter in Hc as [_ Hc]. by apply H4.
Qed.

Lemma state_ok_free st a :
  ok st -> a ∉ mgmt_be_adapters st ->
  ok (set_heap (delete a (heap st)) st).
Proof.
  intros [H1 H2 H3 H4] Ha. split; simpl.
  - by apply map_Forall_delete.
  - intros b Hb. rewrite lookup_delete_ne; [by apply H2|]. by intros ->.
  - intros b [bd Hb]. apply lookup_delete_Some in Hb as [_ Hb]. apply H3. eauto.
  - intros b c bd cd Hb Hc Hbd Hcd.
    apply lookup_delete_Some in Hbd as [_ Hbd].
    apply lookup_delete_Some in Hcd as [_ Hcd]. by apply (H4 b c).
Qed.

(** An update that leaves the descriptor and keeps the write-off rule. *)
Lemma preserves_update a f :
  (forall ad, conn_fd (f ad) = conn_fd ad /\ (wok ad -> wok (f ad))) ->
  preserves ok (update a f).
Proof.
  intros Hf st x st' Hok H. apply update_Ok in H as (ad & Hl & ->).
  destruct (Hf ad) as [Hfd Hw].
  apply (state_ok_store st a ad); [done..|].
  apply Hw. by apply (ok_writes_off _ _ Hok a).
Qed.

Lemma preserves_modify_other f :
  (forall st, heap (f st) = heap st
              /\ mgmt_be_adapters (f st) = mgmt_be_adapters st
              /\ next_addr (f st) = next_addr st) ->
  preserves ok (modify_state f).
Proof.
  intros Hf st x st' Hok H. apply modify_state_Ok in H as ->.
  destruct (Hf st) as (? & ? & ?). by apply (state_ok_other st).
Qed.

Lemma preserves_txn c : preserves ok (txn c).
Proof. by apply preserves_modify_other. Qed.

Lemma preserves_by_id_store i v :
  preserves ok (by_id_store MGMTD_BE_CLIENT_ID_MAX i v).
Proof.
  unfold by_id_store. apply preserves_if; [|apply preserves_raise].
  by apply preserves_modify_other.
Qed.

Lemma preserves_adapters_del a : preserves ok (mgmt_be_adapters_del a).
Proof.
  intros st x st' Hok H. apply modify_state_Ok in H as ->.
  by apply state_ok_del.
Qed.


(** An update leaves the registry. *)
Lemma update_registry a f x st st' :
  update a f st = Ok (x, st') ->
  mgmt_be_adapters st' = mgmt_be_adapters st.
Proof. intros H. by apply update_Ok in H as (ad & _ & ->). Qed.

Lemma preserves_update_registry (Q : list nat -> Prop) a f :
  preserves (fun st => Q (mgmt_be_adapters st)) (update a f).
Proof. intros st x st' HQ H. by rewrite (update_registry a f x st st' H). Qed.

Lemma preserves_and {A} (P Q : state -> Prop) (m : M A) :
  preserves P m -> preserves Q m -> preserves (fun st => P st /\ Q st) m.
Proof.
  intros HP HQ st x st' [H1 H2] Hrun.
  split; [eapply HP|eapply HQ]; eauto.
Qed.

Lemma set_event_neutral (f : adapter -> adapter) :
  (forall ad, conn_fd (f ad) = conn_fd ad /\ flags (f ad) = flags ad
              /\ (conn_write_ev (f ad) = conn_write_ev ad
                  \/ conn_write_ev (f ad) = false)) ->
  forall ad, conn_fd (f ad) = conn_fd ad /\ (wok ad -> wok (f ad)).
Proof.
  intros Hf ad. destruct (Hf ad) as (Hfd & Hfl & Hw). split; [done|].
  unfold writes_off_ok. rewrite Hfl. intros H1 H2.
  destruct Hw as [-> | ->]; auto.
Qed.

(** An update of a field other than the descriptor, the flags and the write
    event. *)
Ltac neutral :=
  apply preserves_update, set_event_neutral; intro; simpl; auto.

Lemma preserves_register_event a ev :
  ev <> MGMTD_BE_CONN_WRITE ->
  preserves ok (mgmt_be_adapter_register_event a ev).
Proof.
  intros Hev. destruct ev; simpl; try done; try neutral;
    apply preserves_assert.
Qed.

Lemma preserves_lock a : preserves ok (mgmt_be_adapter_lock a).
Proof. unfold mgmt_be_adapter_lock. neutral. Qed.

Lemma hoare_xfree a :
  hoare (fun st => ok st /\ a ∉ mgmt_be_adapters st) (xfree a) (fun _ => ok).
Proof.
  intros st x st' [Hok Hnot] H. apply modify_state_Ok in H as ->.
  by apply state_ok_free.
Qed.

Lemma hoare_adapters_del a :
  hoare ok (mgmt_be_adapters_del a)
        (fun _ st => ok st /\ a ∉ mgmt_be_adapters st).
Proof.
  intros st x st' Hok H. apply modify_state_Ok in H as ->.
  split; [by apply state_ok_del|]. simpl.
  intros Hin. by apply list_elem_of_filter in Hin as [Hin _].
Qed.

(** An update the invariant allows, on an adapter outside the registry. *)
Ltac neutral_out a :=
  apply preserves_and;
  [neutral | apply (preserves_update_registry (fun l => a ∉ l))].

Lemma preserves_unlock a : preserves ok (mgmt_be_adapter_unlock a).
Proof.
  unfold mgmt_be_adapter_unlock.
  apply preserves_bind; [apply preserves_load|]. intros ad.
  apply preserves_bind; [apply preserves_assert|]. intros ?.
  apply preserves_bind; [neutral|]. intros ?.
  apply preserves_bind; [apply preserves_load|]. intros ad'.
  apply preserves_if; [|apply preserves_ret].
  eapply hoare_bind; [apply hoare_adapters_del|]. intros ?.
  do 6 (eapply hoare_bind; [neutral_out a|intros ?]).
  apply hoare_xfree.
Qed.

Lemma preserves_cleanup_adapters :
  preserves ok (mgmt_be_cleanup_adapters).
Proof.
  unfold mgmt_be_cleanup_adapters, FOREACH_ADAPTER_IN_LIST.
  apply preserves_bind; [apply preserves_gets|]. intros l.
  apply preserves_for_each. apply preserves_unlock.
Qed.

(** [mgmt_be_adapter_disconnect] changes the descriptor of an adapter it
    takes off the registry. *)
Lemma preserves_disconnect a :
  preserves ok (mgmt_be_adapter_disconnect MGMTD_BE_CLIENT_ID_MAX a).
Proof.
  unfold mgmt_be_adapter_disconnect.
  (* Up to [mgmt_be_adapters_del], the invariant holds for the registry
     without [a]. *)
  set (ok_but := fun st =>
         ok (set_mgmt_be_adapters
               (filter (fun p => p <> a) (mgmt_be_adapters st)) st)).
  assert (Hupd : forall f, (forall ad, wok ad -> wok (f ad)) ->
            preserves ok_but (update a f)).
  { intros f Hw st y st' Hok Hr. apply update_Ok in Hr as (ad & Hl & ->).
    unfold ok_but in *.
    apply (state_ok_store _ a ad (f ad) Hok Hl); [|].
    - simpl. intros Hin. by apply list_elem_of_filter in Hin as [Hin _].
    - apply Hw. apply (ok_writes_off _ _ Hok a ad Hl). }
  assert (Hother : forall f,
            (forall st, heap (f st) = heap st
                        /\ mgmt_be_adapters (f st) = mgmt_be_adapters st
                        /\ next_addr (f st) = next_addr st) ->
            preserves ok_but (modify_state f)).
  { intros f Hf st y st' Hok Hr. apply modify_state_Ok in Hr as ->.
    unfold ok_but in *. destruct (Hf st) as (Hh & Hr & Hn).
    eapply state_ok_other; [..|exact Hok]; simpl; by rewrite ?Hh, ?Hr, ?Hn. }
  eapply hoare_weaken with (P := ok_but) (Q := fun _ => ok);
    [|intros st; apply state_ok_del|done].
  apply hoare_bind with (R := fun _ => ok_but);
    [apply preserves_load|]. intros ad.
  apply hoare_bind with (R := fun _ => ok_but).
  { apply preserves_if; [by apply Hupd|apply preserves_ret]. }
  intros ?. apply hoare_bind with (R := fun _ => ok_but);
    [by apply Hother|]. intros ?.
  apply hoare_bind with (R := fun _ => ok_but);
    [apply preserves_load|]. intros ad1.
  apply hoare_bind with (R := fun _ => ok_but).
  { apply preserves_if; [|apply preserves_ret].
    apply preserves_bind; [|intros ?; by apply Hupd].
    unfold by_id_store. apply preserves_if; [|apply preserves_raise].
    by apply Hother. }
  intros ?. apply hoare_bind with (R := fun _ => ok).
  { intros st y st' Hok Hr. by apply modify_state_Ok in Hr as ->. }
  intros ?. apply preserves_unlock.
Qed.

Lemma preserves_cleanup_old_conn a :
  preserves ok (mgmt_be_adapter_cleanup_old_conn MGMTD_BE_CLIENT_ID_MAX
                  MGMTD_CLIENT_NAME_MAX_LEN a).
Proof.
  unfold mgmt_be_adapter_cleanup_old_conn, FOREACH_ADAPTER_IN_LIST.
  apply preserves_bind; [apply preserves_gets|]. intros l.
  apply preserves_for_each. intros old.
  apply preserves_if; [|apply preserves_ret].
  apply preserves_bind; [apply preserves_load|]. intros ad.
  apply preserves_bind; [apply preserves_load|]. intros old_ad.
  apply preserves_if; [apply preserves_disconnect|apply preserves_ret].
Qed.

Lemma preserves_handle_msg a msg :
  preserves ok (mgmt_be_adapter_handle_msg MGMTD_BE_CLIENT_ID_MAX
                  MGMTD_CLIENT_NAME_MAX_LEN mgmt_be_client_name2id a msg).
Proof.
  unfold mgmt_be_adapter_handle_msg.
  apply preserves_bind; [|intros ?; apply preserves_ret].
  destruct msg; try apply preserves_ret;
    try (apply preserves_bind; [preserves_debug|intros ?; apply preserves_txn]).
  apply preserves_if; [|apply preserves_ret].
  apply preserves_bind; [neutral|]. intros ?.
  apply preserves_bind; [neutral|]. intros ?.
  apply preserves_bind; [apply preserves_load|]. intros ad1.
  apply preserves_bind.
  { apply preserves_if; [apply preserves_disconnect|apply preserves_ret]. }
  intros ?. apply preserves_bind; [apply preserves_load|]. intros ad2.
  apply preserves_bind; [apply preserves_by_id_store|]. intros ?.
  apply preserves_cleanup_old_conn.
Qed.

Lemma preserves_proc_msgbufs a frames more :
  preserves ok (mgmt_be_adapter_proc_msgbufs MGMTD_BE_CLIENT_ID_MAX
                  MGMTD_CLIENT_NAME_MAX_LEN mgmt_be_client_name2id
                  a frames more).
Proof.
  unfold mgmt_be_adapter_proc_msgbufs, mgmt_msg_procbufs.
  apply preserves_bind.
  - apply preserves_bind; [apply preserves_load|]. intros ?.
    apply preserves_bind; [|intros ?; apply preserves_ret].
    apply preserves_for_each. intros [msg|]; simpl; [|preserves_debug].
    apply preserves_bind; [preserves_debug|]. intros ?.
    apply preserves_bind; [apply preserves_handle_msg|].
    intros ?. apply preserves_ret.
  - intros again. apply preserves_if; [|apply preserves_ret].
    by apply preserves_register_event.
Qed.

Lemma preserves_read a rv :
  preserves ok (mgmt_be_adapter_read MGMTD_BE_CLIENT_ID_MAX a rv).
Proof.
  unfold mgmt_be_adapter_read, mgmt_msg_read.
  apply preserves_bind.
  { apply preserves_bind; [apply preserves_load|].
    intros ?. apply preserves_ret. }
  intros []; [|by apply preserves_register_event|apply preserves_disconnect].
  apply preserves_bind; [|intros ?]; by apply preserves_register_event.
Qed.

Lemma preserves_conn_init a txn_in_progress conn_rv :
  preserves ok (mgmt_be_adapter_conn_init MGMTD_BE_CLIENT_ID_MAX a
                  txn_in_progress conn_rv).
Proof.
  unfold mgmt_be_adapter_conn_init.
  apply preserves_bind; [apply preserves_load|]. intros ad.
  apply preserves_bind; [apply preserves_assert|]. intros ?.
  apply preserves_if; [by apply preserves_register_event|].
  apply preserves_bind; [apply preserves_txn|]. intros ?.
  apply preserves_if; [apply preserves_disconnect|apply preserves_ret].
Qed.

(** ** The write path *)

Local Abbreviation WRITES_OFF :=
  (MGMTD_BE_ADAPTER_FLAGS_WRITES_OFF writes_off_bit).

(** An update of the adapter at [a], of which [phi] is known. *)
Lemma hoare_update_at a f (phi psi : adapter -> Prop) :
  (forall ad, phi ad -> wok ad ->
              conn_fd (f ad) = conn_fd ad /\ wok (f ad) /\ psi (f ad)) ->
  hoare (fun st => ok st /\ at_adapter st a phi) (update a f)
        (fun _ st => ok st /\ at_adapter st a psi).
Proof.
  intros Hf st y st' [Hok (ad & Hl & Hphi)] Hr.
  apply update_Ok in Hr as (ad' & Hl' & ->).
  assert (ad' = ad) as -> by congruence.
  destruct (Hf ad Hphi (ok_writes_off _ _ Hok a ad Hl)) as (Hfd & Hw & Hpsi).
  split; [by apply (state_ok_store st a ad)|].
  exists (f ad). simpl. by rewrite lookup_insert_eq.
Qed.

Lemma hoare_load_at (P : state -> Prop) a (phi : adapter -> Prop) :
  hoare (fun st => P st /\ at_adapter st a phi) (load a)
        (fun ad st => (P st /\ at_adapter st a phi) /\ phi ad).
Proof.
  intros st ad st' [HP (ad' & Hl & Hphi)] Hr.
  apply load_Ok in Hr as [Hl' ->].
  assert (ad' = ad) as -> by congruence. unfold at_adapter. eauto.
Qed.

Lemma hoare_register_write a (phi : adapter -> Prop) :
  (forall ad, phi ad -> CHECK_FLAG (flags ad) WRITES_OFF = false) ->
  hoare (fun st => ok st /\ at_adapter st a phi)
        (mgmt_be_adapter_register_event a MGMTD_BE_CONN_WRITE)
        (fun _ st => ok st /\ at_adapter st a (fun ad => conn_write_ev ad = true)).
Proof.
  intros Hphi. simpl.
  eapply hoare_bind.
  { apply (hoare_update_at a _ phi (fun ad => conn_write_ev ad = true)).
    intros ad Had _. split; [done|]. split; [|done].
    unfold writes_off_ok. simpl. by rewrite (Hphi ad Had). }
  intros ?. eapply hoare_bind; [apply hoare_load|]. intros ad.
  intros st y st' [HP _] [_ ->]%assert_Ok. done.
Qed.

Lemma hoare_sched_msg_write a :
  hoare ok (mgmt_be_adapter_sched_msg_write writes_off_bit a)
    (fun _ st => ok st /\ at_adapter st a (fun ad =>
       CHECK_FLAG (flags ad) WRITES_OFF = false -> conn_write_ev ad = true)).
Proof.
  unfold mgmt_be_adapter_sched_msg_write.
  eapply hoare_bind; [apply hoare_load|]. intros ad.
  apply hoare_if; intros Hflag.
  - apply negb_true_iff in Hflag.
    eapply hoare_weaken.
    + apply (hoare_register_write a (fun ad' => ad' = ad)). by intros ? ->.
    + intros st [Hok Hl]. split; [done|]. by exists ad.
    + intros ? st [Hok (ad' & Hl & Hw)]. split; [done|]. by exists ad'.
  - apply negb_false_iff in Hflag.
    intros st y st' [Hok Hl] [_ ->]%ret_Ok. split; [done|].
    exists ad. split; [done|]. congruence.
Qed.

Lemma preserves_sched_msg_write a :
  preserves ok (mgmt_be_adapter_sched_msg_write writes_off_bit a).
Proof.
  eapply hoare_weaken; [apply hoare_sched_msg_write|done|].
  by intros ? st [? _].
Qed.

Lemma hoare_writes_on a :
  hoare ok (mgmt_be_adapter_writes_on writes_off_bit a)
    (fun _ st => ok st /\ at_adapter st a (fun ad =>
       CHECK_FLAG (flags ad) WRITES_OFF = false /\ conn_write_ev ad = true)).
Proof.
  unfold mgmt_be_adapter_writes_on.
  eapply hoare_bind with
    (R := fun _ st => ok st /\ at_adapter st a (fun ad =>
            CHECK_FLAG (flags ad) WRITES_OFF = false)).
  { intros st y st' Hok Hr. apply update_Ok in Hr as (ad & Hl & ->).
    split.
    - apply (state_ok_store st a ad); [done..|].
      unfold writes_off_ok. simpl.
      unfold MGMTD_BE_ADAPTER_FLAGS_WRITES_OFF.
      by rewrite check_unset_flag.
    - eexists. simpl. rewrite lookup_insert_eq. split; [done|]. simpl.
      apply check_unset_flag. }
  intros ?. unfold mgmt_be_adapter_sched_msg_write.
  eapply hoare_bind; [apply hoare_load_at|]. intros ad.
  apply hoare_if; intros Hflag.
  - eapply hoare_weaken.
    + apply (hoare_register_write a (fun ad' =>
               CHECK_FLAG (flags ad') WRITES_OFF = false)). done.
    + by intros st [[Hok Hat] _].
    + intros ? st [Hok (ad' & Hl & Hw)]. split; [done|].
      exists ad'. split; [done|]. split; [|done].
      destruct (CHECK_FLAG (flags ad') WRITES_OFF) eqn:Hc; [|done].
      by rewrite (ok_writes_off _ _ Hok a ad' Hl Hc) in Hw.
  - apply hoare_false. intros st [_ Hc].
    apply negb_false_iff in Hflag. congruence.
Qed.

Lemma hoare_writes_off a :
  hoare (fun st => ok st /\ at_adapter st a (fun ad => conn_write_ev ad = false))
    (mgmt_be_adapter_writes_off writes_off_bit a)
    (fun _ st => ok st /\ at_adapter st a (fun ad =>
       CHECK_FLAG (flags ad) WRITES_OFF = true /\ conn_write_ev ad = false)).
Proof.
  unfold mgmt_be_adapter_writes_off.
  apply hoare_update_at. intros ad Hw _. simpl.
  split; [done|]. split; [by intros _|]. split; [|done].
  apply check_set_flag.
Qed.

(** The write handler, fired: the write event is cleared first, and it was
    armed, so that [WRITES_OFF] was not set. *)
Lemma hoare_fire_write a drained rv :
  hoare (fun st => ok st /\ armed st a conn_write_ev)
    (fire a (set_conn_write_ev false)
          (mgmt_be_adapter_write MGMTD_BE_CLIENT_ID_MAX writes_off_bit
                                 a drained rv))
    (fun _ st => ok st).
Proof.
  unfold fire.
  set (clear := fun ad => CHECK_FLAG (flags ad) WRITES_OFF = false
                          /\ conn_write_ev ad = false).
  eapply hoare_bind with (R := fun _ st => ok st /\ at_adapter st a clear).
  { eapply hoare_weaken;
      [apply (hoare_update_at a _ (fun ad => conn_write_ev ad = true) clear)
      |by intros st [? ?]|done].
    intros ad Harmed Hw. split; [done|]. split; [by intros _|].
    split; [|done]. simpl. unfold writes_off_ok in Hw.
    destruct (CHECK_FLAG (flags ad) WRITES_OFF); [|done].
    rewrite Hw in Harmed; done. }
  intros ?. unfold mgmt_be_adapter_write, mgmt_msg_write.
  eapply hoare_bind with (R := fun r st => ok st /\ at_adapter st a clear).
  { eapply hoare_bind with (R := fun _ st => ok st /\ at_adapter st a clear).
    - apply hoare_update_at. intros ad [Hc Hw] Hok. simpl.
      split; [done|]. split; [done|]. done.
    - intros ?. by apply hoare_ret'. }
  intros [].
  - intros st y st' [Hok _] [_ ->]%assert_Ok. done.
  - eapply hoare_weaken;
      [apply (hoare_register_write a clear)|done|by intros ? st [? _]].
    by intros ad [? _].
  - eapply hoare_bind with (R := fun _ => ok).
    + eapply hoare_weaken; [apply hoare_writes_off| |by intros ? st [? _]].
      intros st [Hok (ad & Hl & _ & Hw)]. split; [done|]. by exists ad.
    + intros ?. by apply preserves_register_event.
  - eapply hoare_weaken; [apply preserves_disconnect|by intros st [? _]|done].
Qed.

Lemma preserves_resume_writes a :
  preserves ok (mgmt_be_adapter_resume_writes writes_off_bit a).
Proof.
  unfold mgmt_be_adapter_resume_writes.
  apply preserves_bind; [apply preserves_load|]. intros ad.
  apply preserves_bind; [apply preserves_assert|]. intros ?.
  eapply hoare_weaken; [apply hoare_writes_on|done|by intros ? st [? _]].
Qed.

Lemma preserves_send_msg a msg :
  preserves ok (mgmt_be_adapter_send_msg writes_off_bit get_packed_size a msg).
Proof.
  unfold mgmt_be_adapter_send_msg, mgmt_msg_send_msg.
  apply preserves_bind; [apply preserves_load|]. intros ad.
  apply preserves_if; [apply preserves_ret|].
  apply preserves_bind.
  { apply preserves_bind; [neutral|]. intros ?. apply preserves_ret. }
  intros rv. apply preserves_bind; [apply preserves_sched_msg_write|].
  intros ?. apply preserves_ret.
Qed.

Lemma preserves_iter_and_get_cfg xpath node parms :
  preserves ok (mgmt_be_iter_and_get_cfg MGMTD_BE_CLIENT_ID_MAX byte_before
                  xpath node parms).
Proof.
  unfold mgmt_be_iter_and_get_cfg.
  apply preserves_bind; [apply preserves_gets|]. intros map.
  destruct (mgmt_be_get_subscr_info_for_xpath _ _ _ _ _) as [rc [info|]];
    [|apply preserves_ret].
  apply preserves_if; [apply preserves_ret|].
  apply preserves_bind; [apply preserves_load|]. intros ad.
  destruct (info !! id ad) as [r|]; [|apply preserves_raise].
  apply preserves_if; [apply preserves_ret|].
  destruct (nb_config_diff_created _ _ _) as [seq root].
  apply preserves_bind; [neutral|]. intros ?. apply preserves_ret.
Qed.

Lemma preserves_get_adapter_config a ds_ctx :
  preserves ok (mgmt_be_get_adapter_config MGMTD_BE_CLIENT_ID_MAX byte_before
                  a ds_ctx).
Proof.
  unfold mgmt_be_get_adapter_config, mgmt_ds_iter_data.
  apply preserves_bind; [apply preserves_load|]. intros ad.
  apply preserves_bind.
  { apply preserves_if; [|apply preserves_ret].
    apply preserves_bind; [by apply preserves_modify_other|]. intros ?.
    apply preserves_bind; [|intros ?; apply preserves_ret].
    generalize ({| parms_adapter := a; parms_seq := 0 |}).
    induction (ds_ctx "/") as [|n nodes IH]; intros parms; simpl.
    - apply preserves_ret.
    - apply preserves_bind; [apply preserves_iter_and_get_cfg|].
      intros parms'. apply IH. }
  intros ?. apply preserves_bind; [apply preserves_load|]. intros ad'.
  apply preserves_ret.
Qed.

(** ** Creating an adapter *)

(** The linear search of the registry. *)
Lemma find_by_Ok test l r st st' :
  find_by test l st = Ok (r, st') ->
  st' = st
  /\ match r with
     | Some a => a ∈ l /\ at_adapter st a (fun ad => test ad = true)
     | None => forall b bd, b ∈ l -> heap st !! b = Some bd -> test bd = false
     end.
Proof.
  revert r. induction l as [|a l IH]; intros r Hr; simpl in Hr.
  - apply ret_Ok in Hr as [-> ->]. split; [done|]. by intros b bd Hb%elem_of_nil.
  - apply bind_Ok in Hr as (ad & st1 & H1 & H2). apply load_Ok in H1 as [Hl ->].
    destruct (test ad) eqn:Ht.
    + apply ret_Ok in H2 as [-> ->]. split; [done|]. split; [left|].
      by exists ad.
    + destruct (IH r H2) as [-> Hrest]. split; [done|]. destruct r as [b|].
      * destruct Hrest as [Hb Hat]. split; [by right|done].
      * intros b bd Hb Hbd. apply elem_of_cons in Hb as [-> | Hb].
        -- congruence.
        -- by apply (Hrest b bd).
Qed.

Lemma hoare_xcalloc fd :
  hoare (fun st => ok st
                   /\ forall b bd, b ∈ mgmt_be_adapters st ->
                         heap st !! b = Some bd -> conn_fd bd <> fd)
        xcalloc
        (fun a st => creating writes_off_bit a fd st
                     /\ at_adapter st a (fun ad => flags ad = 0)).
Proof.
  intros st a st' [Hok Hfd] Hr. unfold xcalloc in Hr. injection Hr as <- <-.
  destruct Hok as [H1 H2 H3 H4].
  assert (Hnew : next_addr st ∉ mgmt_be_adapters st).
  { intros Hin. specialize (H3 _ (H2 _ Hin)). lia. }
  assert (Hne : forall b, b ∈ mgmt_be_adapters st -> next_addr st <> b).
  { intros b Hb Heq. apply Hnew. by rewrite Heq. }
  split; [split; [split|split]|]; simpl.
  - apply map_Forall_insert_2; [|done].
    unfold writes_off_ok, MGMTD_BE_ADAPTER_FLAGS_WRITES_OFF. simpl.
    by rewrite check_flag_zero.
  - intros b Hb. rewrite lookup_insert_ne by auto. auto.
  - intros b. destruct (decide (next_addr st = b)) as [<-|Hneq]; [lia|].
    rewrite lookup_insert_ne by done. intros Hb. specialize (H3 b Hb). lia.
  - intros b c bd cd Hb Hc. rewrite !lookup_insert_ne by auto. by apply H4.
  - done.
  - intros b bd Hb. rewrite lookup_insert_ne by auto. by apply Hfd.
  - exists adapter_zero. simpl. by rewrite lookup_insert_eq.
Qed.

(** An update of the adapter that is being set up. *)
Lemma hoare_update_creating a fd f (phi psi : adapter -> Prop) :
  (forall ad, phi ad -> wok ad -> wok (f ad) /\ psi (f ad)) ->
  hoare (fun st => creating writes_off_bit a fd st /\ at_adapter st a phi)
        (update a f)
        (fun _ st => creating writes_off_bit a fd st /\ at_adapter st a psi).
Proof.
  intros Hf st y st' [(Hok & Hout & Hfd) (ad & Hl & Hphi)] Hr.
  apply update_Ok in Hr as (ad' & Hl' & ->).
  assert (ad' = ad) as -> by congruence.
  destruct (Hf ad Hphi (ok_writes_off _ _ Hok a ad Hl)) as [Hw Hpsi].
  split; [split; [|split]|]; simpl.
  - by apply (state_ok_store st a ad).
  - done.
  - intros b bd Hb. rewrite lookup_insert_ne by (by intros ->). by apply Hfd.
  - exists (f ad). simpl. by rewrite lookup_insert_eq.
Qed.

Lemma hoare_add_tail a fd :
  hoare (fun st => creating writes_off_bit a fd st
                   /\ at_adapter st a (fun ad => conn_fd ad = fd))
        (mgmt_be_adapters_add_tail a) (fun _ => ok).
Proof.
  intros st y st' [([H1 H2 H3 H4] & Hout & Hfd) (ad & Hl & Had)] Hr.
  apply modify_state_Ok in Hr as ->. split; simpl; [done| |done|].
  - intros b [Hb | ->%list_elem_of_singleton]%elem_of_app; [auto|eauto].
  - intros b c bd cd [Hb | ->%list_elem_of_singleton]%elem_of_app
                     [Hc | ->%list_elem_of_singleton]%elem_of_app Hbd Hcd Heq.
    + by apply (H4 b c bd cd).
    + assert (cd = ad) as -> by congruence. by destruct (Hfd b bd Hb Hbd); congruence.
    + assert (bd = ad) as -> by congruence. by destruct (Hfd c cd Hc Hcd); congruence.
    + done.
Qed.

Lemma preserves_create_adapter fd from :
  preserves ok (mgmt_be_create_adapter MGMTD_BE_CLIENT_ID_MAX
                  MGMTD_CLIENT_NAME_MAX_LEN fd from).
Proof.
  unfold mgmt_be_create_adapter, mgmt_be_find_adapter_by_fd.
  eapply hoare_bind with
    (R := fun found st => ok st /\
            (found = None -> forall b bd, b ∈ mgmt_be_adapters st ->
               heap st !! b = Some bd -> conn_fd bd <> fd)).
  { intros st found st' Hok Hr.
    apply bind_Ok in Hr as (l & st1 & H1 & H2). apply gets_Ok in H1 as [-> ->].
    apply find_by_Ok in H2 as [-> Hfound]. split; [done|]. intros ->.
    intros b bd Hb Hbd. specialize (Hfound b bd Hb Hbd). simpl in Hfound.
    by apply Z.eqb_neq in Hfound. }
  intros found. eapply hoare_bind with (R := fun _ => ok);
    [|intros a; apply preserves_bind;
      [by apply preserves_register_event|intros ?; apply preserves_ret]].
  destruct found as [a|].
  { apply hoare_ret'. by intros st [? _]. }
  eapply hoare_bind.
  { eapply hoare_weaken; [apply (hoare_xcalloc fd)| |done].
    intros st [Hok Hfd]. split; [done|by apply Hfd]. }
  intros a. set (wr := fun ad => flags ad = 0 /\ conn_fd ad = fd).
  assert (Hwok : forall ad, flags ad = 0 -> wok ad).
  { intros ad Hfl. unfold writes_off_ok, MGMTD_BE_ADAPTER_FLAGS_WRITES_OFF.
    by rewrite Hfl, check_flag_zero. }
  eapply hoare_bind with
    (R := fun _ st => creating writes_off_bit a fd st /\ at_adapter st a wr).
  { apply hoare_update_creating. intros ad Hfl _. by split; [apply Hwok|]. }
  intros ?. eapply hoare_bind;
    [apply (hoare_update_creating a fd _ wr wr);
     intros ad [Hfl Hcf] _; by split; [apply Hwok|]|intros ?].
  eapply hoare_bind;
    [apply (hoare_update_creating a fd _ wr wr);
     intros ad [Hfl Hcf] _; by split; [apply Hwok|]|intros ?].
  eapply hoare_bind;
    [apply (hoare_update_creating a fd _ wr wr);
     intros ad [Hfl Hcf] _; by split; [apply Hwok|]|].
  intros ?. eapply hoare_bind;
    [apply (hoare_update_creating a fd _ wr wr);
     intros ad' [Hfl Hcf] _; by split; [apply Hwok|]|intros ?].
  eapply hoare_bind;
    [apply (hoare_update_creating a fd _ wr wr);
     intros ad' [Hfl Hcf] _; by split; [apply Hwok|]|intros ?].
  eapply hoare_bind;
    [apply (hoare_update_creating a fd _ wr wr);
     intros ad' [Hfl Hcf] _; by split; [apply Hwok|]|intros ?].
  eapply hoare_bind with (R := fun _ => ok).
  { eapply hoare_weaken; [apply (hoare_add_tail a fd)| |done].
    intros st [Hcr (ad' & Hl & _ & Hcf)]. split; [done|]. by exists ad'. }
  intros ?. eapply hoare_bind with (R := fun _ => ok); [neutral|].
  intros ?. by apply hoare_ret'.
Qed.

(** ** Every step keeps the invariant *)

Local Abbreviation run_act :=
  (run MGMTD_BE_CLIENT_ID_MAX MGMTD_CLIENT_NAME_MAX_LEN writes_off_bit
       mgmt_be_client_name2id get_packed_size byte_before).

Lemma hoare_run act :
  hoare (fun st => ok st /\ enabled st act) (run_act act) (fun _ => ok).
Proof.
  destruct act; simpl; try apply hoare_fire_write;
    (eapply hoare_weaken with (P := ok) (Q := fun _ => ok);
       [|by intros st [? _]|done]);
    unfold fire, mgmt_be_create_txn, mgmt_be_destroy_txn,
      mgmt_be_send_cfg_data_create_req, mgmt_be_send_cfg_apply_req,
      mgmt_be_send_txn_req, mgmt_be_send_cfgdata_create_req,
      mgmt_be_send_cfgapply_req, mgmt_be_adapter_destroy;
    try (apply preserves_bind; [neutral|intros ?]);
    try apply preserves_discard;
    try apply preserves_lock; try apply preserves_unlock;
    try apply preserves_cleanup_adapters;
    auto using preserves_conn_init, preserves_read, preserves_proc_msgbufs,
      preserves_resume_writes, preserves_create_adapter, preserves_lock,
      preserves_unlock, preserves_cleanup_adapters,
      preserves_get_adapter_config, preserves_send_msg.
Qed.

Lemma init_ok reg debug st :
  mgmt_be_adapter_init MGMTD_BE_CLIENT_ID_MAX reg
    (set_mgmt_debug_be debug state_zero) = Ok (0, st) ->
  ok st.
Proof.
  intros [= <-]. split; simpl.
  - apply map_Forall_empty.
  - by intros a Ha%elem_of_nil.
  - intros a [ad Ha]. by rewrite lookup_empty in Ha.
  - by intros a b ad bd Ha%elem_of_nil.
Qed.

(** The invariant holds in every reachable state. *)
Lemma reachable_ok reg st :
  reachable MGMTD_BE_CLIENT_ID_MAX MGMTD_CLIENT_NAME_MAX_LEN writes_off_bit
            mgmt_be_client_name2id get_packed_size byte_before reg st ->
  ok st.
Proof.
  induction 1 as [debug st Hinit | st act st' Hreach IH [Hen Hrun]].
  - by apply (init_ok reg debug).
  - by apply (hoare_run act st tt st').
Qed.

End StateOk.

(** * Sending *)

Section Send.

Variable writes_off_bit : nat.
Variable get_packed_size : be_msg -> nat.

Local Abbreviation send_msg :=
  (mgmt_be_adapter_send_msg writes_off_bit get_packed_size).
Local Abbreviation WRITES_OFF :=
  (MGMTD_BE_ADAPTER_FLAGS_WRITES_OFF writes_off_bit).

(** On a closed connection nothing is done. *)
Lemma send_msg_closed st a ad msg :
  heap st !! a = Some ad -> conn_fd ad = -1 ->
  send_msg a msg st = Ok (-1, st).
Proof.
  intros Hl Hfd. unfold mgmt_be_adapter_send_msg, bind.
  rewrite (load_run a ad st Hl), Hfd. done.
Qed.

(** On an open connection the message is queued, its size is returned, and
    the write event is armed unless [WRITES_OFF] is set. *)
Lemma send_msg_open st a ad msg :
  heap st !! a = Some ad -> conn_fd ad <> -1 ->
  send_msg a msg st
  = Ok (Z.of_nat (get_packed_size msg),
        set_heap
          (<[a := (if CHECK_FLAG (flags ad) WRITES_OFF then fun x => x
                   else set_conn_write_ev true)
                    (set_mstate (mstate ad ++ [msg]) ad)]> (heap st)) st).
Proof.
  intros Hl Hfd. unfold mgmt_be_adapter_send_msg, bind.
  rewrite (load_run a ad st Hl).
  destruct (conn_fd ad =? -1) eqn:Hc; [by apply Z.eqb_eq in Hc|].
  unfold mgmt_msg_send_msg, bind. rewrite (update_run a _ ad st Hl).
  unfold ret at 1. unfold mgmt_be_adapter_sched_msg_write, bind.
  erewrite load_run; [|simpl; apply lookup_insert_eq]. simpl.
  destruct (CHECK_FLAG (flags ad) WRITES_OFF); simpl.
  - done.
  - unfold bind. erewrite update_run; [|simpl; apply lookup_insert_eq].
    erewrite load_run; [|simpl; apply lookup_insert_eq]. simpl.
    unfold ret. by rewrite !insert_insert_eq.
Qed.

End Send.

(** * Who clears [WRITES_OFF] *)

Section FlagKept.

Variable MGMTD_BE_CLIENT_ID_MAX : nat.
Variable MGMTD_CLIENT_NAME_MAX_LEN : nat.
Variable writes_off_bit : nat.
Variable mgmt_be_client_name2id : string -> nat.
Variable get_packed_size : be_msg -> nat.
Variable byte_before : string -> ascii.

Variables (a : ptr) (st0 : state).

Local Abbreviation WRITES_OFF :=
  (MGMTD_BE_ADAPTER_FLAGS_WRITES_OFF writes_off_bit).
Local Abbreviation kept := (flag_kept writes_off_bit a st0).

Lemma flag_kept_refl : kept st0.
Proof. split; [done|]. intros ad' Hl _. by exists ad'. Qed.

Lemma kept_update b f :
  (b = a -> forall x, CHECK_FLAG (flags x) WRITES_OFF = true ->
                      CHECK_FLAG (flags (f x)) WRITES_OFF = true) ->
  preserves kept (update b f).
Proof.
  intros Hf st y st' [Hn Hk] Hr. apply update_Ok in Hr as (ad & Hl & ->).
  split; [done|]. simpl. intros ad'.
  destruct (decide (b = a)) as [->|Hne].
  - rewrite lookup_insert_eq. intros [= <-] Hlt.
    destruct (Hk ad Hl Hlt) as (ad0 & Hl0 & Hc). exists ad0. split; [done|].
    intros H0. apply (Hf eq_refl), Hc, H0.
  - rewrite lookup_insert_ne by done. apply Hk.
Qed.

Lemma kept_modify f :
  (forall st, heap (f st) = heap st /\ next_addr (f st) = next_addr st) ->
  preserves kept (modify_state f).
Proof.
  intros Hf st y st' [Hn Hk] Hr. apply modify_state_Ok in Hr as ->.
  destruct (Hf st) as [Hh Hx]. split; rewrite ?Hh, ?Hx; done.
Qed.

Lemma kept_xfree b : preserves kept (xfree b).
Proof.
  intros st y st' [Hn Hk] Hr. apply modify_state_Ok in Hr as ->.
  split; [done|]. simpl. intros ad' Hl. apply lookup_delete_Some in Hl as [_ Hl].
  by apply Hk.
Qed.

Lemma kept_xcalloc : preserves kept xcalloc.
Proof.
  intros st y st' [Hn Hk] Hr. unfold xcalloc in Hr. injection Hr as <- <-.
  split; simpl; [lia|]. intros ad' Hl Hlt.
  rewrite lookup_insert_ne in Hl by lia. by apply Hk.
Qed.

Lemma kept_find_by test l : preserves kept (find_by test l).
Proof. intros st r st' Hk Hr. by apply find_by_Ok in Hr as [-> _]. Qed.

(** The steps of the code, taken apart. *)
Ltac kept_leaf :=
  first
    [ apply kept_update; intros ? ? ?; simpl;
      first [ assumption
            | apply check_set_flag ]
    | apply kept_modify; intros ?; simpl; done
    | apply kept_xfree
    | apply kept_xcalloc
    | apply kept_find_by ].

Ltac kept_step :=
  first
    [ apply preserves_ret
    | apply preserves_load
    | apply preserves_assert
    | apply preserves_gets
    | apply preserves_raise
    | apply preserves_DBG
    | apply preserves_element
    | kept_leaf
    | apply preserves_for_each; intros ?
    | apply preserves_discard
    | apply preserves_if
    | match goal with
      | |- preserves _ (match ?x with _ => _ end) => destruct x
      end
    | apply preserves_bind; [|intros ?] ].

Lemma kept_unlock b : preserves kept (mgmt_be_adapter_unlock b).
Proof. unfold mgmt_be_adapter_unlock. repeat kept_step. Qed.

Lemma kept_disconnect b :
  preserves kept (mgmt_be_adapter_disconnect MGMTD_BE_CLIENT_ID_MAX b).
Proof.
  unfold mgmt_be_adapter_disconnect, by_id_store, txn, mgmt_be_adapters_del.
  repeat first [apply kept_unlock | kept_step].
Qed.


Lemma kept_register_event b ev :
  preserves kept (mgmt_be_adapter_register_event b ev).
Proof. destruct ev; simpl; repeat kept_step. Qed.

Lemma kept_cleanup_old_conn b :
  preserves kept (mgmt_be_adapter_cleanup_old_conn MGMTD_BE_CLIENT_ID_MAX
                    MGMTD_CLIENT_NAME_MAX_LEN b).
Proof.
  unfold mgmt_be_adapter_cleanup_old_conn, FOREACH_ADAPTER_IN_LIST.
  repeat first [apply kept_disconnect | kept_step].
Qed.

Lemma kept_handle_msg b msg :
  preserves kept (mgmt_be_adapter_handle_msg MGMTD_BE_CLIENT_ID_MAX
                    MGMTD_CLIENT_NAME_MAX_LEN mgmt_be_client_name2id b msg).
Proof.
  unfold mgmt_be_adapter_handle_msg, by_id_store, txn.
  apply preserves_bind; [|intros ?; apply preserves_ret].
  destruct msg;
    repeat first [apply kept_disconnect | apply kept_cleanup_old_conn
                 | kept_step].
Qed.

Lemma kept_proc_msgbufs b frames more :
  preserves kept (mgmt_be_adapter_proc_msgbufs MGMTD_BE_CLIENT_ID_MAX
                    MGMTD_CLIENT_NAME_MAX_LEN mgmt_be_client_name2id
                    b frames more).
Proof.
  unfold mgmt_be_adapter_proc_msgbufs, mgmt_msg_procbufs,
    mgmt_be_adapter_process_msg.
  repeat first [apply kept_handle_msg | apply kept_register_event | kept_step].
Qed.

Lemma kept_read b rv :
  preserves kept (mgmt_be_adapter_read MGMTD_BE_CLIENT_ID_MAX b rv).
Proof.
  unfold mgmt_be_adapter_read, mgmt_msg_read.
  repeat first [apply kept_disconnect | apply kept_register_event | kept_step].
Qed.

Lemma kept_conn_init b txn_in_progress conn_rv :
  preserves kept (mgmt_be_adapter_conn_init MGMTD_BE_CLIENT_ID_MAX b
                    txn_in_progress conn_rv).
Proof.
  unfold mgmt_be_adapter_conn_init, txn.
  repeat first [apply kept_disconnect | apply kept_register_event | kept_step].
Qed.

Lemma kept_sched_msg_write b :
  preserves kept (mgmt_be_adapter_sched_msg_write writes_off_bit b).
Proof.
  unfold mgmt_be_adapter_sched_msg_write.
  repeat first [apply kept_register_event | kept_step].
Qed.

Lemma kept_write b drained rv :
  preserves kept (mgmt_be_adapter_write MGMTD_BE_CLIENT_ID_MAX writes_off_bit
                    b drained rv).
Proof.
  unfold mgmt_be_adapter_write, mgmt_msg_write, mgmt_be_adapter_writes_off.
  repeat first [apply kept_disconnect | apply kept_register_event | kept_step].
Qed.

(** The [WRITES_ON] handler of another adapter. *)
Lemma kept_resume_writes b :
  b <> a -> preserves kept (mgmt_be_adapter_resume_writes writes_off_bit b).
Proof.
  intros Hne. unfold mgmt_be_adapter_resume_writes, mgmt_be_adapter_writes_on.
  apply preserves_bind; [apply preserves_load|]. intros ad.
  apply preserves_bind; [apply preserves_assert|]. intros ?.
  apply preserves_bind; [by apply kept_update|]. intros ?.
  apply kept_sched_msg_write.
Qed.

Lemma kept_send_msg b msg :
  preserves kept (mgmt_be_adapter_send_msg writes_off_bit get_packed_size
                    b msg).
Proof.
  unfold mgmt_be_adapter_send_msg, mgmt_msg_send_msg.
  repeat first [apply kept_sched_msg_write | kept_step].
Qed.

Lemma kept_get_adapter_config b ds_ctx :
  preserves kept (mgmt_be_get_adapter_config MGMTD_BE_CLIENT_ID_MAX
                    byte_before b ds_ctx).
Proof.
  unfold mgmt_be_get_adapter_config, mgmt_ds_iter_data.
  apply preserves_bind; [apply preserves_load|]. intros ad.
  apply preserves_bind; [|intros ?; repeat kept_step].
  apply preserves_if; [|apply preserves_ret].
  apply preserves_bind; [kept_leaf|]. intros ?.
  apply preserves_bind; [|intros ?; apply preserves_ret].
  generalize ({| parms_adapter := b; parms_seq := 0 |}).
  induction (ds_ctx "/") as [|n nodes IH]; intros parms; simpl.
  - apply preserves_ret.
  - apply preserves_bind; [|intros ?; apply IH].
    unfold mgmt_be_iter_and_get_cfg.
    apply preserves_bind; [apply preserves_gets|]. intros map.
    destruct (mgmt_be_get_subscr_info_for_xpath _ _ _ _ _) as [rc [info|]];
      [|apply preserves_ret].
    apply preserves_if; [apply preserves_ret|].
    apply preserves_bind; [apply preserves_load|]. intros ad'.
    destruct (info !! id ad') as [r|]; [|apply preserves_raise].
    apply preserves_if; [apply preserves_ret|].
    destruct (nb_config_diff_created _ _ _) as [seq root].
    repeat kept_step.
Qed.

Lemma kept_create_adapter fd from :
  preserves kept (mgmt_be_create_adapter MGMTD_BE_CLIENT_ID_MAX
                    MGMTD_CLIENT_NAME_MAX_LEN fd from).
Proof.
  unfold mgmt_be_create_adapter, mgmt_be_find_adapter_by_fd,
    mgmt_be_adapter_lock, mgmt_be_adapters_add_tail.
  repeat first [apply kept_register_event | kept_step].
Qed.

Local Abbreviation run_act :=
  (run MGMTD_BE_CLIENT_ID_MAX MGMTD_CLIENT_NAME_MAX_LEN writes_off_bit
       mgmt_be_client_name2id get_packed_size byte_before).

(** Every action but the [WRITES_ON] handler of the adapter leaves a flag
    that is set. *)
Lemma kept_run act : act <> FireWritesOn a -> preserves kept (run_act act).
Proof.
  intros Hact.
  destruct act; simpl;
    unfold fire, mgmt_be_create_txn, mgmt_be_destroy_txn,
      mgmt_be_send_cfg_data_create_req, mgmt_be_send_cfg_apply_req,
      mgmt_be_send_txn_req, mgmt_be_send_cfgdata_create_req,
      mgmt_be_send_cfgapply_req, mgmt_be_adapter_destroy,
      mgmt_be_cleanup_adapters, FOREACH_ADAPTER_IN_LIST,
      mgmt_be_adapter_lock;
    try (apply preserves_bind; [kept_leaf|intros ?]);
    try apply preserves_discard;
    try (apply kept_resume_writes; congruence);
    auto using kept_conn_init, kept_read, kept_write, kept_proc_msgbufs,
      kept_create_adapter, kept_unlock, kept_get_adapter_config,
      kept_send_msg.
  - kept_leaf.
  - repeat first [apply kept_unlock | kept_step].
Qed.

End FlagKept.

(** * Disconnecting *)

Section Disconnect.

Variable MGMTD_BE_CLIENT_ID_MAX : nat.

Lemma heap_set_heap h st : heap (set_heap h st) = h.
Proof. done. Qed.

Lemma set_heap_twice h2 h1 st : set_heap h2 (set_heap h1 st) = set_heap h2 st.
Proof. done. Qed.

Lemma unlock_run st a ad :
  heap st !! a = Some ad ->
  mgmt_be_adapter_unlock a st
  = if refcount ad =? 0 then Fault AssertionFailed
    else Ok (tt,
             if refcount ad - 1 =? 0
             then set_heap (delete a (heap st))
                    (set_mgmt_be_adapters
                       (filter (fun p => p <> a) (mgmt_be_adapters st)) st)
             else set_heap (<[a := set_refcount (refcount ad - 1) ad]>
                              (heap st)) st).
Proof.
  intros Hl. unfold mgmt_be_adapter_unlock, bind.
  rewrite (load_run a ad st Hl).
  destruct (refcount ad =? 0); [done|]. cbn [negb assert ret].
  rewrite (update_run a _ ad st Hl).
  erewrite load_run; [|rewrite heap_set_heap; apply lookup_insert_eq].
  cbn [refcount set_refcount].
  destruct (refcount ad - 1 =? 0); [|done].
  unfold mgmt_be_adapters_del, modify_state.
  set (st1 := set_mgmt_be_adapters _ _).
  assert (Hh : heap st1 = <[a := set_refcount (refcount ad - 1) ad]> (heap st))
    by done.
  assert (Hdel : set_heap (delete a (heap st))
                   (set_mgmt_be_adapters
                      (filter (fun p => p <> a) (mgmt_be_adapters st)) st)
                 = set_heap (delete a (heap st)) st1) by done.
  rewrite Hdel. clearbody st1.
  do 6 (erewrite update_run;
        [|rewrite ?heap_set_heap, ?Hh; apply lookup_insert_eq];
        rewrite ?set_heap_twice, ?heap_set_heap).
  unfold xfree, modify_state. rewrite set_heap_twice, heap_set_heap, Hh.
  by rewrite !delete_insert_eq.
Qed.


(** [mgmt_be_adapter_disconnect] on an allocated adapter: it fails the
    assertion of [mgmt_be_adapter_unlock] when no reference is left, and
    leaves [disconnect_state] otherwise. *)
Lemma disconnect_run st a ad :
  heap st !! a = Some ad ->
  mgmt_be_adapter_disconnect MGMTD_BE_CLIENT_ID_MAX a st
  = if refcount ad =? 0 then Fault AssertionFailed
    else Ok (tt, disconnect_state MGMTD_BE_CLIENT_ID_MAX a ad st).
Proof.
  intros Hl. unfold mgmt_be_adapter_disconnect, disconnect_state, disconnected.
  unfold bind at 1. rewrite (load_run a ad st Hl).
  unfold bind at 1.
  destruct (0 <=? conn_fd ad) eqn:Hfd.
  - rewrite (update_run a _ ad st Hl). unfold bind at 1, txn, modify_state.
    unfold bind at 1. erewrite load_run; [|simpl; apply lookup_insert_eq].
    simpl id. unfold bind at 1.
    destruct (id ad <? MGMTD_BE_CLIENT_ID_MAX)%nat eqn:Hid.
    + unfold by_id_store. rewrite Hid. unfold bind at 1, modify_state.
      erewrite update_run; [|simpl; apply lookup_insert_eq].
      unfold bind at 1, mgmt_be_adapters_del, modify_state.
      erewrite unlock_run; [|simpl; apply lookup_insert_eq].
      simpl. destruct (refcount ad =? 0); [done|].
      destruct (refcount ad - 1 =? 0); do 2 f_equal; unfold set_heap; simpl;
        f_equal; rewrite ?insert_insert_eq, ?delete_insert_eq; try done.
      by rewrite list_filter_filter_l by done.
    + unfold ret at 1. unfold bind at 1, mgmt_be_adapters_del, modify_state.
      erewrite unlock_run; [|simpl; apply lookup_insert_eq].
      simpl. destruct (refcount ad =? 0); [done|].
      destruct (refcount ad - 1 =? 0); do 2 f_equal; unfold set_heap; simpl;
        f_equal; rewrite ?insert_insert_eq, ?delete_insert_eq; try done.
      by rewrite list_filter_filter_l by done.
  - unfold ret at 1. unfold bind at 1, txn, modify_state.
    unfold bind at 1. erewrite load_run; [|simpl; exact Hl].
    simpl id. unfold bind at 1.
    destruct (id ad <? MGMTD_BE_CLIENT_ID_MAX)%nat eqn:Hid.
    + unfold by_id_store. rewrite Hid. unfold bind at 1, modify_state.
      erewrite update_run; [|simpl; exact Hl].
      unfold bind at 1, mgmt_be_adapters_del, modify_state.
      erewrite unlock_run; [|simpl; apply lookup_insert_eq].
      simpl. destruct (refcount ad =? 0); [done|].
      destruct (refcount ad - 1 =? 0); do 2 f_equal; unfold set_heap; simpl;
        f_equal; rewrite ?insert_insert_eq, ?delete_insert_eq; try done.
      by rewrite list_filter_filter_l by done.
    + unfold ret at 1. unfold bind at 1, mgmt_be_adapters_del, modify_state.
      erewrite unlock_run; [|simpl; exact Hl].
      simpl. destruct (refcount ad =? 0); [done|].
      destruct (refcount ad - 1 =? 0); do 2 f_equal; unfold set_heap; simpl;
        f_equal; try done.
      by rewrite list_filter_filter_l by done.
Qed.

End Disconnect.

(** * Reaching a state by steps *)

Lemma enabledb_enabled st act : enabledb st act = true -> enabled st act.
Proof.
  destruct act; simpl; try done; unfold armedb, armed;
    destruct (heap st !! a) as [ad|]; try done; eauto.
Qed.

Lemma steps_reachable max nlen bit name2id psize bb reg l st st' :
  reachable max nlen bit name2id psize bb reg st ->
  steps (run max nlen bit name2id psize bb) l st = Some st' ->
  reachable max nlen bit name2id psize bb reg st'.
Proof.
  revert st. induction l as [|act l IH]; intros st Hreach Hs; simpl in Hs.
  - by injection Hs as <-.
  - destruct (enabledb st act) eqn:Hen; [|done].
    destruct (run _ _ _ _ _ _ act st) as [[[] st1]|] eqn:Hrun; [|done].
    apply (IH st1); [|done].
    apply (reachable_step _ _ _ _ _ _ _ st act); [done|].
    split; [by apply enabledb_enabled|done].
Qed.

(** * The config walk *)

Section Walk.

Variable MGMTD_BE_CLIENT_ID_MAX : nat.
Variable byte_before : string -> ascii.

Local Abbreviation iter_fn :=
  (mgmt_be_iter_and_get_cfg MGMTD_BE_CLIENT_ID_MAX byte_before).
Local Abbreviation emit_for st :=
  (emit MGMTD_BE_CLIENT_ID_MAX byte_before (mgmt_xpath_map st)).

Lemma get_subscr_info_length eval_match map xpath :
  List.length (get_subscr_info MGMTD_BE_CLIENT_ID_MAX eval_match map xpath)
  = MGMTD_BE_CLIENT_ID_MAX.
Proof.
  unfold get_subscr_info. rewrite ResolverFacts.copy_all_length.
  apply length_replicate.
Qed.

(** The callback of the walk on one node. *)
Lemma iter_and_get_cfg_run st a ad n seq :
  heap st !! a = Some ad -> (id ad < MGMTD_BE_CLIENT_ID_MAX)%nat ->
  let res := emit_for st (id ad) (seq, cfg_chgs ad) n in
  exists st',
    iter_fn (node_xpath n) n {| parms_adapter := a; parms_seq := seq |} st
    = Ok ({| parms_adapter := a; parms_seq := fst res |}, st')
    /\ heap st' !! a = Some (set_cfg_chgs (snd res) ad)
    /\ ds_iter_log st' = ds_iter_log st
    /\ mgmt_xpath_map st' = mgmt_xpath_map st.
Proof.
  intros Hl Hid res. unfold mgmt_be_iter_and_get_cfg.
  unfold bind at 1, gets at 1.
  unfold mgmt_be_get_subscr_info_for_xpath, get_subscr_info_for_xpath.
  change (negb (0 =? 0)) with false. cbv iota.
  cbn [parms_adapter parms_seq].
  unfold bind at 1. rewrite (load_run a ad st Hl).
  unfold res, emit, client_subscribed.
  destruct (lookup_lt_is_Some_2
              (get_subscr_info MGMTD_BE_CLIENT_ID_MAX
                 (eval_regexp_match byte_before) (mgmt_xpath_map st)
                 (node_xpath n)) (id ad)) as [r Hr].
  { by rewrite get_subscr_info_length. }
  rewrite Hr. destruct (subscribed r); simpl.
  - destruct (nb_config_diff_created n seq (cfg_chgs ad)) as [seq' root].
    unfold bind. rewrite (update_run a _ ad st Hl). unfold ret.
    eexists. split; [done|]. simpl. by rewrite lookup_insert_eq.
  - exists st. split; [done|]. by destruct ad.
Qed.

(** The walk over the nodes the datastore yields. *)
Lemma iter_nodes_run nodes st a ad seq :
  heap st !! a = Some ad -> (id ad < MGMTD_BE_CLIENT_ID_MAX)%nat ->
  let res := foldl (emit_for st (id ad)) (seq, cfg_chgs ad) nodes in
  exists st',
    iter_nodes nodes iter_fn {| parms_adapter := a; parms_seq := seq |} st
    = Ok ({| parms_adapter := a; parms_seq := fst res |}, st')
    /\ heap st' !! a = Some (set_cfg_chgs (snd res) ad)
    /\ ds_iter_log st' = ds_iter_log st
    /\ mgmt_xpath_map st' = mgmt_xpath_map st.
Proof.
  revert st ad seq. induction nodes as [|n nodes IH]; intros st ad seq Hl Hid.
  - simpl. exists st. split; [done|]. by destruct ad.
  - simpl. destruct (iter_and_get_cfg_run st a ad n seq Hl Hid)
      as (st1 & Hrun & Hl1 & Hlog1 & Hmap1).
    unfold bind. rewrite Hrun.
    destruct (IH st1 _ (fst (emit_for st (id ad) (seq, cfg_chgs ad) n)) Hl1 Hid)
      as (st2 & Hrun2 & Hl2 & Hlog2 & Hmap2).
    rewrite Hrun2. simpl in *. rewrite Hmap1.
    destruct (emit_for st (id ad) (seq, cfg_chgs ad) n) as [seq1 root1].
    simpl in *. exists st2. split; [done|].
    rewrite Hmap1 in Hl2. split; [by rewrite Hl2|]. split; congruence.
Qed.

(** The paths of the changes after a walk: those there before and those of
    the subscribed nodes. *)
Lemma emitted_xpaths map i nodes acc x :
  (exists c, c ∈ snd (foldl (emit MGMTD_BE_CLIENT_ID_MAX byte_before map i)
                            acc nodes) /\ cb_xpath c = x)
  <-> (exists c, c ∈ snd acc /\ cb_xpath c = x)
      \/ (exists n, n ∈ nodes /\ node_xpath n = x
                    /\ client_subscribed MGMTD_BE_CLIENT_ID_MAX byte_before
                         map x i = true).
Proof.
  revert acc. induction nodes as [|n nodes IH]; intros acc; simpl.
  - split; [by left|]. intros [H|(n & Hn & _)]; [done|].
    by apply elem_of_nil in Hn.
  - rewrite IH. unfold emit.
    destruct (client_subscribed _ _ _ (node_xpath n) i) eqn:Hsub.
    + unfold nb_config_diff_created. simpl.
      destruct (existsb _ (snd acc)) eqn:Hex.
      * apply existsb_exists in Hex as (c & Hc & Heq).
        apply String.eqb_eq in Heq. apply list_elem_of_In in Hc.
        split.
        -- intros [H|(m & Hm & Hx & Hs)]; [by left|].
           right. exists m. split; [by right|done].
        -- intros [H|(m & Hm & Hx & Hs)]; [by left|].
           apply elem_of_cons in Hm as [->|Hm].
           ++ left. exists c. split; [done|]. congruence.
           ++ right. eauto.
      * split.
        -- intros [(c & Hc & Hx)|(m & Hm & Hx & Hs)].
           ++ apply elem_of_app in Hc as [Hc|Hc%list_elem_of_singleton].
              ** left. eauto.
              ** subst c. simpl in Hx. right. exists n.
                 split; [by left|]. split; [done|]. by rewrite <- Hx.
           ++ right. exists m. split; [by right|done].
        -- intros [(c & Hc & Hx)|(m & Hm & Hx & Hs)].
           ++ left. exists c. split; [|done]. apply elem_of_app. by left.
           ++ apply elem_of_cons in Hm as [->|Hm].
              ** left. eexists. split; [apply elem_of_app; right; by left|done].
              ** right. eauto.
    + split.
      * intros [H|(m & Hm & Hx & Hs)]; [by left|].
        right. exists m. split; [by right|done].
      * intros [H|(m & Hm & Hx & Hs)]; [by left|].
        apply elem_of_cons in Hm as [->|Hm]; [congruence|]. right. eauto.
Qed.

End Walk.

Lemma root_xp_iff xpath :
  is_cstring xpath = true ->
  root_xp xpath = true <-> xpath = "/" \/ xpath = "/*".
Proof.
  intros Hc. split; [|by intros [-> | ->]].
  unfold root_xp. rewrite !andb_true_iff, orb_true_iff.
  unfold is_char. rewrite !Ascii.eqb_eq.
  intros [[Hlen H0] H1].
  destruct xpath as [|c [|d [|e s]]].
  - discriminate H0.
  - left. unfold char_at in H0. simpl in H0. by subst.
  - right. unfold char_at in H0, H1. simpl in H0, H1. subst c.
    destruct H1 as [-> | ->]; [discriminate Hc|done].
  - apply Z.leb_le in Hlen. unfold strlen in Hlen.
    simpl String.length in Hlen. lia.
Qed.

Lemma not_root_xp_resolve xpath :
  root_xp xpath = false ->
  String.eqb xpath "/" || String.eqb xpath "/*" = false.
Proof.
  intros H. destruct (String.eqb_spec xpath "/") as [-> | _]; [done|].
  destruct (String.eqb_spec xpath "/*") as [-> | _]; done.
Qed.

(** C1: for an xpath that is not root-scope, the first loop of
    [mgmt_be_get_subscr_info_for_xpath] keeps exactly the registered
    patterns of the maximum positive match length, and the result is the
    union of their subscriber records, the capability fields of a client
    OR-ed over the kept patterns. *)
Theorem resolve_longest_match max byte_before reg xpath out :
  (List.length reg <= MGMTD_BE_MAX_NUM_XPATH_MAP)%nat ->
  root_xp xpath = false ->
  let map := mgmt_be_xpath_map_init max reg in
  let eval := eval_regexp_match byte_before in
  let kept := Spec.kept_patterns eval map xpath in
  fst (foldl (select_map eval xpath (root_xp xpath)) ([], 0) map)
    = be_subscrs <$> kept
  /\ mgmt_be_get_subscr_info_for_xpath max byte_before map xpath (Some out)
     = (0, Some (Spec.resolve eval max map xpath))
  /\ Spec.resolve eval max map xpath = Spec.union_at kept <$> seq 0 max.
Proof.
  intros _ Hroot map eval kept.
  assert (Hsel : fst (foldl (select_map eval xpath (root_xp xpath)) ([], 0) map)
                 = be_subscrs <$> kept).
  { rewrite Hroot. unfold kept. by rewrite ResolverFacts.select_map_kept. }
  assert (Hres : Spec.resolve eval max map xpath
                 = Spec.union_at kept <$> seq 0 max).
  { unfold Spec.resolve. by rewrite not_root_xp_resolve. }
  split; [done|]. split; [|done].
  unfold mgmt_be_get_subscr_info_for_xpath, get_subscr_info_for_xpath,
    get_subscr_info. fold eval map. rewrite Hsel, Hres.
  do 2 f_equal. apply ResolverFacts.copy_all_union.
  unfold kept, Spec.kept_patterns.
  eapply List.incl_Forall; [apply List.incl_filter|].
  apply ResolverFacts.map_init_ok.
Qed.

Lemma resolve_longest_match_witness :
  let reg := [ {| reg_xpath_regexp := "/a/*"; be_clients := [0; 2]%nat |};
               {| reg_xpath_regexp := "/a/b/*"; be_clients := [1; 2]%nat |} ] in
  let map := mgmt_be_xpath_map_init 2 reg in
  let eval := eval_regexp_match (fun _ => Ascii.zero) in
  ((List.length reg <= MGMTD_BE_MAX_NUM_XPATH_MAP)%nat
   /\ root_xp "/a/b/c" = false)
  /\ (fst (foldl (select_map eval "/a/b/c" (root_xp "/a/b/c")) ([], 0) map)
      = be_subscrs <$> Spec.kept_patterns eval map "/a/b/c"
      /\ mgmt_be_get_subscr_info_for_xpath 2 (fun _ => Ascii.zero) map
           "/a/b/c" (Some [])
         = (0, Some (Spec.resolve eval 2 map "/a/b/c"))
      /\ Spec.resolve eval 2 map "/a/b/c"
         = Spec.union_at (Spec.kept_patterns eval map "/a/b/c") <$> seq 0 2).
Proof.
  split.
  - split; [vm_compute; lia | reflexivity].
  - apply (resolve_longest_match 2 (fun _ => Ascii.zero)
             [ {| reg_xpath_regexp := "/a/*"; be_clients := [0; 2]%nat |};
               {| reg_xpath_regexp := "/a/b/*"; be_clients := [1; 2]%nat |} ]
             "/a/b/c" []); [vm_compute; lia | reflexivity].
Defined.

(** C2: the paths "/" and "/*", and only these, are root-scope; for them
    [mgmt_be_get_subscr_info_for_xpath] returns the union of the subscriber
    records of every registered pattern, whatever the matcher would
    compute. *)
Theorem resolve_root_scope max byte_before reg xpath out :
  (List.length reg <= MGMTD_BE_MAX_NUM_XPATH_MAP)%nat ->
  is_cstring xpath = true ->
  let map := mgmt_be_xpath_map_init max reg in
  (root_xp xpath = true <-> xpath = "/" \/ xpath = "/*")
  /\ (forall eval_match,
        get_subscr_info_for_xpath max eval_match map "/" (Some out)
        = (0, Some (Spec.union_of max map))
        /\ get_subscr_info_for_xpath max eval_match map "/*" (Some out)
           = (0, Some (Spec.union_of max map)))
  /\ mgmt_be_get_subscr_info_for_xpath max byte_before map "/" (Some out)
     = (0, Some (Spec.union_of max map))
  /\ mgmt_be_get_subscr_info_for_xpath max byte_before map "/*" (Some out)
     = (0, Some (Spec.union_of max map)).
Proof.
  intros _ Hc map. split; [by apply root_xp_iff|].
  assert (H : forall eval_match x, root_xp x = true ->
            get_subscr_info_for_xpath max eval_match map x (Some out)
            = (0, Some (Spec.union_of max map))).
  { intros eval_match x Hx. unfold get_subscr_info_for_xpath, get_subscr_info.
    rewrite Hx, ResolverFacts.select_map_root. simpl.
    do 2 f_equal. apply ResolverFacts.copy_all_union.
    apply ResolverFacts.map_init_ok. }
  split; [intros eval_match; split; by apply H|].
  split; by apply H.
Qed.

Lemma resolve_root_scope_witness :
  let reg := xpath_static_map_reg (Some 0%nat) 1 in
  let map := mgmt_be_xpath_map_init 1 reg in
  ((List.length reg <= MGMTD_BE_MAX_NUM_XPATH_MAP)%nat
   /\ is_cstring "/*" = true)
  /\ ((root_xp "/*" = true <-> "/*" = "/" \/ "/*" = "/*")
      /\ (forall eval_match,
            get_subscr_info_for_xpath 1 eval_match map "/" (Some [])
            = (0, Some (Spec.union_of 1 map))
            /\ get_subscr_info_for_xpath 1 eval_match map "/*" (Some [])
               = (0, Some (Spec.union_of 1 map)))
      /\ mgmt_be_get_subscr_info_for_xpath 1 (fun _ => Ascii.zero) map "/"
           (Some [])
         = (0, Some (Spec.union_of 1 map))
      /\ mgmt_be_get_subscr_info_for_xpath 1 (fun _ => Ascii.zero) map "/*"
           (Some [])
         = (0, Some (Spec.union_of 1 map))).
Proof.
  split.
  - split; [vm_compute; lia | reflexivity].
  - apply (resolve_root_scope 1 (fun _ => Ascii.zero)
             (xpath_static_map_reg (Some 0%nat) 1) "/*" []);
      [vm_compute; lia | reflexivity].
Defined.

(** C4: the match length [mgmt_be_eval_regexp_match] returns is never
    negative, and every registered pattern matched against itself, its
    trailing wildcard included, gives a positive length. *)
Theorem match_len_nonneg_self_positive :
  (forall rb xb p x, 0 <= mgmt_be_eval_regexp_match rb xb p x)
  /\ (forall staticd max rb xb,
        Forall (fun e => 0 < mgmt_be_eval_regexp_match rb xb (xpath_regexp e)
                                                       (xpath_regexp e))
               (mgmt_be_xpath_map_init max (xpath_static_map_reg staticd max))).
Proof.
  split.
  - intros. apply eval_regexp_match_bounds.
  - intros staticd max rb xb. unfold mgmt_be_xpath_map_init.
    apply Forall_fmap. unfold xpath_static_map_reg.
    repeat constructor; simpl; vm_compute; reflexivity.
Qed.

(** C9: a single trailing wildcard on the pattern, on the instance path or
    on both is ignored by [mgmt_be_eval_regexp_match]: appending it to a
    string that does not end in a wildcard changes nothing, whatever the
    other string is; a side that is empty after the trim (the string was ""
    or "*") gives 0, and so the match of any string against "" or "*", on
    either side, is 0. *)
Theorem trailing_wildcard_trimmed rb xb p x :
  (Matcher.trim_len p = strlen p ->
   mgmt_be_eval_regexp_match rb xb (p +:+ "*") x
   = mgmt_be_eval_regexp_match rb xb p x)
  /\ (Matcher.trim_len x = strlen x ->
      mgmt_be_eval_regexp_match rb xb p (x +:+ "*")
      = mgmt_be_eval_regexp_match rb xb p x)
  /\ (Matcher.trim_len p = strlen p -> Matcher.trim_len x = strlen x ->
      mgmt_be_eval_regexp_match rb xb (p +:+ "*") (x +:+ "*")
      = mgmt_be_eval_regexp_match rb xb p x)
  /\ (forall q, Matcher.trim_len q = 0 <-> q = "" \/ q = "*")
  /\ (forall q y, Matcher.trim_len q = 0 \/ Matcher.trim_len y = 0 ->
                  mgmt_be_eval_regexp_match rb xb q y = 0)
  /\ (forall q, mgmt_be_eval_regexp_match rb xb q "" = 0
                /\ mgmt_be_eval_regexp_match rb xb q "*" = 0
                /\ mgmt_be_eval_regexp_match rb xb "" q = 0
                /\ mgmt_be_eval_regexp_match rb xb "*" q = 0).
Proof.
  split; [apply eval_regexp_match_star_regexp|].
  split; [apply eval_regexp_match_star_xpath|].
  split.
  { intros Hp Hx. rewrite eval_regexp_match_star_xpath by done.
    by apply eval_regexp_match_star_regexp. }
  split; [apply MatcherFacts.trim_len_zero|].
  split; [apply eval_regexp_match_trimmed_empty|].
  intros q. repeat split; apply eval_regexp_match_trimmed_empty;
    (by left) || (by right).
Qed.

(** A pattern of the registry, which ends in a wildcard, against a path and
    against the path with a wildcard appended; and a wildcard appended on
    both sides. *)
Lemma trailing_wildcard_trimmed_witness :
  (Matcher.trim_len "/frr-vrf:lib" = strlen "/frr-vrf:lib"
   /\ Matcher.trim_len "/frr-vrf:lib/vrf" = strlen "/frr-vrf:lib/vrf")
  /\ mgmt_be_eval_regexp_match "000" "000" ("/frr-vrf:lib" +:+ "*")
                               "/frr-vrf:lib/vrf"
     = mgmt_be_eval_regexp_match "000" "000" "/frr-vrf:lib" "/frr-vrf:lib/vrf"
  /\ mgmt_be_eval_regexp_match "000" "000" "/frr-vrf:lib/*"
                               ("/frr-vrf:lib/vrf" +:+ "*")
     = mgmt_be_eval_regexp_match "000" "000" "/frr-vrf:lib/*"
                                 "/frr-vrf:lib/vrf"
  /\ mgmt_be_eval_regexp_match "000" "000" ("/frr-vrf:lib" +:+ "*")
                               ("/frr-vrf:lib/vrf" +:+ "*")
     = mgmt_be_eval_regexp_match "000" "000" "/frr-vrf:lib" "/frr-vrf:lib/vrf".
Proof.
  split; [split; reflexivity|].
  split.
  { exact (proj1 (trailing_wildcard_trimmed "000" "000" "/frr-vrf:lib"
                    "/frr-vrf:lib/vrf") eq_refl). }
  split.
  { exact (proj1 (proj2 (trailing_wildcard_trimmed "000" "000"
                           "/frr-vrf:lib/*" "/frr-vrf:lib/vrf")) eq_refl). }
  exact (proj1 (proj2 (proj2 (trailing_wildcard_trimmed "000" "000"
                                "/frr-vrf:lib" "/frr-vrf:lib/vrf")))
           eq_refl eq_refl).
Defined.

(** The first scenario of the specification, evaluated: "/a/b/c" matches
    "/a/b/*" longer than "/a/*"; for "/a/x" the two patterns tie with
    length 1, so that the resolver keeps both. *)
Example longest_match_scenario :
  let eval := eval_regexp_match (fun _ => Ascii.zero) in
  eval "/a/*" "/a/b/c" = 1 /\ eval "/a/b/*" "/a/b/c" = 2
  /\ eval "/a/*" "/a/x" = 1 /\ eval "/a/b/*" "/a/x" = 1.
Proof. repeat split; vm_compute; reflexivity. Qed.

Section WritePath.

Variable MGMTD_BE_CLIENT_ID_MAX : nat.
Variable writes_off_bit : nat.

Local Abbreviation WRITES_OFF :=
  (MGMTD_BE_ADAPTER_FLAGS_WRITES_OFF writes_off_bit).

(** The framer reports writes-off: the flag is set and the [WRITES_ON]
    timer is armed; the write event is not touched. *)
Lemma write_writes_off st a ad drained :
  heap st !! a = Some ad ->
  exists st' ad',
    mgmt_be_adapter_write MGMTD_BE_CLIENT_ID_MAX writes_off_bit a drained
                          MSW_SCHED_WRITES_OFF st = Ok (tt, st')
    /\ heap st' !! a = Some ad'
    /\ CHECK_FLAG (flags ad') WRITES_OFF = true
    /\ conn_writes_on ad' = true
    /\ conn_write_ev ad' = conn_write_ev ad.
Proof.
  intros Hl. unfold mgmt_be_adapter_write, mgmt_msg_write, bind.
  rewrite (update_run a _ ad st Hl). unfold ret at 1.
  unfold mgmt_be_adapter_writes_off, bind.
  erewrite update_run; [|simpl; apply lookup_insert_eq].
  simpl. erewrite update_run; [|simpl; apply lookup_insert_eq].
  do 2 eexists. split; [done|]. simpl. rewrite lookup_insert_eq.
  split; [done|]. simpl. split; [apply check_set_flag|done].
Qed.

(** The [WRITES_ON] timer fires: the flag is cleared and the write event is
    armed. *)
Lemma resume_writes_run st a ad :
  heap st !! a = Some ad -> 0 <= conn_fd ad ->
  exists st' ad',
    mgmt_be_adapter_resume_writes writes_off_bit a st = Ok (tt, st')
    /\ heap st' !! a = Some ad'
    /\ CHECK_FLAG (flags ad') WRITES_OFF = false
    /\ conn_write_ev ad' = true.
Proof.
  intros Hl Hfd. unfold mgmt_be_adapter_resume_writes, bind.
  rewrite (load_run a ad st Hl).
  replace (0 <=? conn_fd ad) with true by (symmetry; by apply Z.leb_le).
  simpl. unfold mgmt_be_adapter_writes_on, bind.
  rewrite (update_run a _ ad st Hl).
  unfold mgmt_be_adapter_sched_msg_write, bind.
  erewrite load_run; [|simpl; apply lookup_insert_eq]. simpl.
  unfold MGMTD_BE_ADAPTER_FLAGS_WRITES_OFF. rewrite check_unset_flag. simpl.
  unfold bind. erewrite update_run; [|simpl; apply lookup_insert_eq].
  erewrite load_run; [|simpl; apply lookup_insert_eq]. simpl.
  do 2 eexists. split; [done|]. simpl. rewrite lookup_insert_eq.
  split; [done|]. simpl. split; [apply check_unset_flag|done].
Qed.

End WritePath.

(** C8: in every reachable state an adapter with [WRITES_OFF] set has no
    write event armed; a send on such an adapter does not arm the write
    event; when the framer reports writes-off the write handler sets the
    flag and arms the [WRITES_ON] timer; only the [WRITES_ON] handler of the
    adapter clears the flag, and it arms the write event again. *)
Theorem writes_off_no_write_armed max nlen bit name2id psize bb :
  let WRITES_OFF := MGMTD_BE_ADAPTER_FLAGS_WRITES_OFF bit in
  (forall reg st a ad,
     reachable max nlen bit name2id psize bb reg st ->
     heap st !! a = Some ad ->
     CHECK_FLAG (flags ad) WRITES_OFF = true -> conn_write_ev ad = false)
  /\ (forall st a ad msg,
        heap st !! a = Some ad ->
        CHECK_FLAG (flags ad) WRITES_OFF = true ->
        exists rv st' ad',
          mgmt_be_adapter_send_msg bit psize a msg st = Ok (rv, st')
          /\ heap st' !! a = Some ad'
          /\ conn_write_ev ad' = conn_write_ev ad)
  /\ (forall st a ad drained,
        heap st !! a = Some ad ->
        exists st' ad',
          mgmt_be_adapter_write max bit a drained MSW_SCHED_WRITES_OFF st
          = Ok (tt, st')
          /\ heap st' !! a = Some ad'
          /\ CHECK_FLAG (flags ad') WRITES_OFF = true
          /\ conn_writes_on ad' = true
          /\ conn_write_ev ad' = conn_write_ev ad)
  /\ (forall reg st act st' a ad ad',
        reachable max nlen bit name2id psize bb reg st ->
        step max nlen bit name2id psize bb st act st' ->
        heap st !! a = Some ad -> heap st' !! a = Some ad' ->
        CHECK_FLAG (flags ad) WRITES_OFF = true ->
        CHECK_FLAG (flags ad') WRITES_OFF = false ->
        act = FireWritesOn a)
  /\ (forall st a ad,
        heap st !! a = Some ad -> 0 <= conn_fd ad ->
        exists st' ad',
          mgmt_be_adapter_resume_writes bit a st = Ok (tt, st')
          /\ heap st' !! a = Some ad'
          /\ CHECK_FLAG (flags ad') WRITES_OFF = false
          /\ conn_write_ev ad' = true).
Proof.
  intros WRITES_OFF. repeat split.
  - intros reg st a ad Hreach Hl.
    apply (reachable_ok max nlen bit name2id psize bb) in Hreach.
    apply (ok_writes_off _ _ Hreach a ad Hl).
  - intros st a ad msg Hl Hflag.
    destruct (decide (conn_fd ad = -1)) as [Hfd|Hfd].
    + exists (-1), st, ad. by rewrite (send_msg_closed bit psize st a ad).
    + do 3 eexists. rewrite (send_msg_open bit psize st a ad) by done.
      split; [done|]. simpl. rewrite lookup_insert_eq. split; [done|].
      fold WRITES_OFF. by rewrite Hflag.
  - intros st a ad drained. apply write_writes_off.
  - intros reg st act st' a ad ad' Hreach [Hen Hrun] Hl Hl' Hset Hclr.
    apply (reachable_ok max nlen bit name2id psize bb) in Hreach.
    assert (Hlt : (a < next_addr st)%nat)
      by (apply (ok_allocated _ _ Hreach); eauto).
    assert (Hkept : act <> FireWritesOn a -> False).
    { intros Hact.
      destruct (kept_run max nlen bit name2id psize bb a st act Hact
                  st tt st' (flag_kept_refl bit a st) Hrun) as [_ Hk].
      destruct (Hk ad' Hl' Hlt) as (ad0 & Hl0 & Hc).
      assert (ad0 = ad) as -> by congruence.
      fold WRITES_OFF in Hc. rewrite (Hc Hset) in Hclr. done. }
    destruct act; try (exfalso; apply Hkept; discriminate).
    destruct (decide (a0 = a)) as [->|Hne]; [done|].
    exfalso. apply Hkept. congruence.
  - intros st a ad. apply resume_writes_run.
Qed.

Lemma disconnect_Ok max a st st' :
  mgmt_be_adapter_disconnect max a st = Ok (tt, st') ->
  exists ad, heap st !! a = Some ad /\ refcount ad <> 0
             /\ st' = disconnect_state max a ad st.
Proof.
  intros Hr. destruct (heap st !! a) as [ad|] eqn:Hl.
  - rewrite (disconnect_run max st a ad Hl) in Hr.
    destruct (refcount ad =? 0) eqn:Hrc; [done|].
    apply Z.eqb_neq in Hrc. injection Hr as <-. eauto.
  - unfold mgmt_be_adapter_disconnect, bind, load in Hr. by rewrite Hl in Hr.
Qed.

Lemma disconnected_closed max ad :
  conn_fd (disconnected max ad) < 0
  /\ (max <= id (disconnected max ad))%nat
  /\ refcount (disconnected max ad) = refcount ad - 1.
Proof.
  unfold disconnected.
  destruct (0 <=? conn_fd ad) eqn:Hfd; simpl;
    destruct (id ad <? max)%nat eqn:Hid; simpl;
    try apply Z.leb_gt in Hfd; try apply Nat.ltb_ge in Hid; lia.
Qed.

(** Two disconnects in a row of a referenced adapter. When the first call
    dropped the last reference, the second reads the freed adapter.
    Otherwise the second call finds the descriptor closed and the adapter
    out of the registry and of the by-id index, and leaves them so, but it
    notifies the transaction module once more and drops one more
    reference. *)
Lemma disconnect_twice_run max st a ad :
  heap st !! a = Some ad -> 0 < refcount ad ->
  (mgmt_be_adapter_disconnect max a ;;; mgmt_be_adapter_disconnect max a) st
  = if refcount ad =? 1 then Fault UseAfterFree
    else Ok (tt, disconnect_state max a (disconnected max ad)
                   (disconnect_state max a ad st)).
Proof.
  intros Hl Hrc. unfold bind. rewrite (disconnect_run max st a ad Hl).
  destruct (Z.eqb_spec (refcount ad) 0); [lia|].
  destruct (Z.eqb_spec (refcount ad) 1) as [H1|H1].
  - assert (Hl1 : heap (disconnect_state max a ad st) !! a = None).
    { unfold disconnect_state. cbn [heap].
      destruct (Z.eqb_spec (refcount ad - 1) 0); [|lia].
      apply lookup_delete_eq. }
    unfold mgmt_be_adapter_disconnect, bind, load. by rewrite Hl1.
  - assert (Hl1 : heap (disconnect_state max a ad st) !! a
                  = Some (disconnected max ad)).
    { unfold disconnect_state. cbn [heap].
      destruct (Z.eqb_spec (refcount ad - 1) 0); [lia|].
      apply lookup_insert_eq. }
    rewrite (disconnect_run max _ a _ Hl1).
    destruct (disconnected_closed max ad) as (_ & _ & ->).
    by destruct (Z.eqb_spec (refcount ad - 1) 0); [lia|].
Qed.

(** C5: [mgmt_be_adapter_disconnect] is not idempotent. The second call on
    an adapter with one reference reads the adapter the first call freed. On
    an adapter with a second reference, the second call notifies the
    transaction module again and drops that reference, which its holder
    never released: the adapter is freed. The event loop makes such a
    second call: a disconnect cancels no event, so after the read handler
    has disconnected an adapter on end of file, the write event that is
    still armed fires and its handler disconnects once more. *)
Theorem disconnect_twice_fails :
  let one := Example.after [CallCreateAdapter 7 0] in
  let two := Example.after [CallCreateAdapter 7 0; CallLock 0%nat] in
  (mgmt_be_adapter_disconnect 1 0%nat ;;; mgmt_be_adapter_disconnect 1 0%nat)
    one = Fault UseAfterFree
  /\ (exists st1 st2,
        mgmt_be_adapter_disconnect 1 0%nat two = Ok (tt, st1)
        /\ mgmt_be_adapter_disconnect 1 0%nat st1 = Ok (tt, st2)
        /\ (refcount <$> heap two !! 0%nat) = Some 2
        /\ (refcount <$> heap st1 !! 0%nat) = Some 1
        /\ heap st2 !! 0%nat = None
        /\ txn_log st1 = [txn_notify_be_adapter_conn 0%nat false]
        /\ txn_log st2 = [txn_notify_be_adapter_conn 0%nat false;
                          txn_notify_be_adapter_conn 0%nat false])
  /\ (exists st,
        steps (run 1 32 0 Example.name2id (fun _ => 10%nat)
                   (fun _ => Ascii.zero))
              [CallCreateAdapter 7 0; CallLock 0%nat; CallCreateTxn 0%nat 1;
               FireConnRead 0%nat MSR_DISCONNECT;
               FireConnWrite 0%nat 0 MSW_DISCONNECT] Example.started
        = Some st
        /\ heap st !! 0%nat = None
        /\ txn_log st = [txn_notify_be_adapter_conn 0%nat false;
                         txn_notify_be_adapter_conn 0%nat false]).
Proof.
  intros one two. split; [|split].
  - assert (Hl : heap one !! 0%nat = Some (new_adapter 1 32 7 0))
      by (vm_compute; reflexivity).
    by rewrite (disconnect_twice_run 1 one 0%nat _ Hl).
  - do 2 eexists.
    split; [vm_compute; reflexivity|].
    split; [vm_compute; reflexivity|].
    split; [vm_compute; reflexivity|].
    split; [vm_compute; reflexivity|].
    split; [vm_compute; reflexivity|].
    split; vm_compute; reflexivity.
  - eexists. split; [vm_compute; reflexivity|].
    split; vm_compute; reflexivity.
Qed.

(** C7: a send on an allocated adapter returns a negative status exactly
    when the connection is closed ([conn_fd] is -1), and then nothing is
    queued and the state is left as it was; so for [mgmt_be_create_txn],
    [mgmt_be_destroy_txn], [mgmt_be_send_cfg_data_create_req],
    [mgmt_be_send_cfg_apply_req] and [mgmt_be_adapter_send_msg] itself. *)
Theorem send_on_closed_connection bit psize st a ad txn_id batch_id cfg_req
    end_of_data msg :
  heap st !! a = Some ad ->
  Forall (fun op : M Z =>
            exists rv st',
              op st = Ok (rv, st')
              /\ (rv < 0 <-> conn_fd ad = -1)
              /\ (conn_fd ad = -1 -> rv = -1 /\ st' = st))
         [ mgmt_be_create_txn bit psize a txn_id;
           mgmt_be_destroy_txn bit psize a txn_id;
           mgmt_be_send_cfg_data_create_req bit psize a txn_id batch_id
                                            cfg_req end_of_data;
           mgmt_be_send_cfg_apply_req bit psize a txn_id;
           mgmt_be_adapter_send_msg bit psize a msg ].
Proof.
  intros Hl.
  assert (H : forall m, exists rv st',
            mgmt_be_adapter_send_msg bit psize a m st = Ok (rv, st')
            /\ (rv < 0 <-> conn_fd ad = -1)
            /\ (conn_fd ad = -1 -> rv = -1 /\ st' = st)).
  { intros m. destruct (decide (conn_fd ad = -1)) as [Hfd|Hfd].
    - exists (-1), st. rewrite (send_msg_closed bit psize st a ad) by done.
      split; [done|]. split; [|done]. split; [done|lia].
    - do 2 eexists. rewrite (send_msg_open bit psize st a ad) by done.
      split; [done|]. split; [|done]. split; [lia|done]. }
  repeat constructor; apply H.
Qed.

Lemma send_on_closed_connection_witness :
  let st := Example.after [CallCreateAdapter 7 0; CallLock 0%nat;
                           FireConnRead 0%nat MSR_DISCONNECT] in
  exists ad,
    heap st !! 0%nat = Some ad
    /\ conn_fd ad = -1
    /\ Forall (fun op : M Z =>
                 exists rv st',
                   op st = Ok (rv, st')
                   /\ (rv < 0 <-> conn_fd ad = -1)
                   /\ (conn_fd ad = -1 -> rv = -1 /\ st' = st))
              [ mgmt_be_create_txn 0 (fun _ => 10%nat) 0%nat 1;
                mgmt_be_destroy_txn 0 (fun _ => 10%nat) 0%nat 1;
                mgmt_be_send_cfg_data_create_req 0 (fun _ => 10%nat) 0%nat
                                                 1 1 [] true;
                mgmt_be_send_cfg_apply_req 0 (fun _ => 10%nat) 0%nat 1;
                mgmt_be_adapter_send_msg 0 (fun _ => 10%nat) 0%nat
                                         SUBSCR_REPLY ].
Proof.
  intros st. eexists. split; [vm_compute; reflexivity|].
  split; [reflexivity|].
  apply (send_on_closed_connection 0 (fun _ => 10%nat) st 0%nat).
  vm_compute; reflexivity.
Defined.

(** * Creating an adapter for a descriptor that has one *)

Section Create.

Variable MGMTD_BE_CLIENT_ID_MAX : nat.
Variable MGMTD_CLIENT_NAME_MAX_LEN : nat.

Lemma find_by_total test l st :
  (forall b, b ∈ l -> is_Some (heap st !! b)) ->
  exists r, find_by test l st = Ok (r, st).
Proof.
  induction l as [|b l IH]; intros Hall; simpl; [by exists None|].
  destruct (Hall b) as [bd Hb]; [by left|].
  unfold bind. rewrite (load_run b bd st Hb).
  destruct (test bd); [by exists (Some b)|].
  apply IH. intros c Hc. apply Hall. by right.
Qed.

(** The adapter that has the descriptor is returned, with its [CONN_INIT]
    event armed and nothing else changed. *)
Lemma create_adapter_existing bit st fd from a ad :
  state_ok bit st ->
  a ∈ mgmt_be_adapters st -> heap st !! a = Some ad -> conn_fd ad = fd ->
  mgmt_be_create_adapter MGMTD_BE_CLIENT_ID_MAX MGMTD_CLIENT_NAME_MAX_LEN
    fd from st
  = Ok (a, set_heap (<[a := set_conn_init_ev true ad]> (heap st)) st).
Proof.
  intros Hok Ha Hl Hfd.
  unfold mgmt_be_create_adapter, mgmt_be_find_adapter_by_fd.
  unfold bind at 1. unfold bind at 1. unfold gets at 1.
  destruct (find_by_total (fun ad => conn_fd ad =? fd) (mgmt_be_adapters st) st
              (ok_registered _ _ Hok)) as [r Hr].
  rewrite Hr. apply find_by_Ok in Hr as [_ Hr]. destruct r as [b|].
  - destruct Hr as [Hb (bd & Hbd & Ht)]. apply Z.eqb_eq in Ht.
    assert (b = a) as -> by (apply (ok_fd _ _ Hok b a bd ad); congruence).
    unfold bind, ret at 1. simpl.
    by rewrite (update_run a _ ad st Hl).
  - specialize (Hr a ad Ha Hl). simpl in Hr. apply Z.eqb_neq in Hr. done.
Qed.

(** Whenever [mgmt_be_create_adapter] returns, the [CONN_INIT] event of the
    adapter it returns is armed. *)
Lemma create_adapter_conn_init st fd from a st' :
  mgmt_be_create_adapter MGMTD_BE_CLIENT_ID_MAX MGMTD_CLIENT_NAME_MAX_LEN
    fd from st = Ok (a, st') ->
  at_adapter st' a (fun ad => conn_init_ev ad = true).
Proof.
  unfold mgmt_be_create_adapter. intros Hr.
  apply bind_Ok in Hr as (found & st1 & _ & Hr).
  apply bind_Ok in Hr as (a0 & st2 & _ & Hr).
  apply bind_Ok in Hr as (? & st3 & Hev & Hr).
  apply ret_Ok in Hr as [-> ->]. simpl in Hev.
  apply update_Ok in Hev as (ad & Hl & ->).
  eexists. simpl. by rewrite lookup_insert_eq.
Qed.

End Create.

(** C10: in a reachable state, [mgmt_be_create_adapter] for a descriptor
    that a registered adapter has returns that adapter, allocates nothing
    and leaves name, id, reference count and registry as they are: only the
    [CONN_INIT] event of the adapter is armed; whenever it returns, the
    [CONN_INIT] event of the returned adapter is armed; and the registered
    adapters have pairwise distinct descriptors. *)
Theorem create_adapter_per_fd max nlen bit name2id psize bb reg st fd from :
  reachable max nlen bit name2id psize bb reg st ->
  (forall a ad,
     a ∈ mgmt_be_adapters st -> heap st !! a = Some ad -> conn_fd ad = fd ->
     mgmt_be_create_adapter max nlen fd from st
     = Ok (a, set_heap (<[a := set_conn_init_ev true ad]> (heap st)) st))
  /\ (forall a st',
        mgmt_be_create_adapter max nlen fd from st = Ok (a, st') ->
        at_adapter st' a (fun ad => conn_init_ev ad = true))
  /\ (forall a b ad bd,
        a ∈ mgmt_be_adapters st -> b ∈ mgmt_be_adapters st ->
        heap st !! a = Some ad -> heap st !! b = Some bd ->
        conn_fd ad = conn_fd bd -> a = b).
Proof.
  intros Hreach.
  apply (reachable_ok max nlen bit name2id psize bb) in Hreach.
  split; [|split].
  - intros a ad. by apply create_adapter_existing with (bit := bit).
  - intros a st'. apply create_adapter_conn_init.
  - apply (ok_fd _ _ Hreach).
Qed.




(** * A subscription of an unknown client *)

(** A [SUBSCR_REQ] whose client name resolves to no id never runs to its
    end: after the disconnect the handler reads the adapter again, which is
    freed if the disconnect dropped its last reference, and writes
    [mgmt_be_adapters_by_id[adapter->id]] with the id
    [MGMTD_BE_CLIENT_ID_MAX] or more otherwise. *)
Lemma handle_subscr_req_unknown max nlen name2id st a ad client_name
    subscribe xpaths :
  heap st !! a = Some ad ->
  strlen client_name <> 0 ->
  (max <= name2id (strlcpy client_name nlen))%nat ->
  mgmt_be_adapter_handle_msg max nlen name2id a
    (SUBSCR_REQ client_name subscribe xpaths) st
  = Fault (if refcount ad =? 0 then AssertionFailed
           else if refcount ad - 1 =? 0 then UseAfterFree
           else OutOfBounds).
Proof.
  intros Hl Hname Hid. unfold mgmt_be_adapter_handle_msg.
  apply Z.eqb_neq in Hname. rewrite Hname. cbn [negb].
  unfold bind at 1. unfold bind at 1.
  rewrite (update_run a _ ad st Hl).
  unfold bind at 1.
  erewrite update_run; [|rewrite heap_set_heap; apply lookup_insert_eq].
  rewrite set_heap_twice, heap_set_heap, insert_insert_eq.
  cbn [name set_name].
  set (ad1 := set_id _ _).
  assert (Hid1 : (max <=? id ad1)%nat = true) by (by apply Nat.leb_le).
  unfold bind at 1.
  erewrite load_run; [|rewrite heap_set_heap; apply lookup_insert_eq].
  rewrite Hid1. unfold bind at 1.
  erewrite disconnect_run; [|rewrite heap_set_heap; apply lookup_insert_eq].
  change (refcount ad1) with (refcount ad).
  destruct (refcount ad =? 0); [done|].
  unfold bind at 1. unfold load at 1.
  unfold disconnect_state at 1. cbn [heap]. rewrite heap_set_heap.
  change (refcount ad1) with (refcount ad).
  destruct (refcount ad - 1 =? 0).
  - by rewrite lookup_delete_eq.
  - rewrite lookup_insert_eq. unfold bind at 1, by_id_store.
    destruct (disconnected_closed max ad1) as (_ & Hge & _).
    by apply Nat.ltb_ge in Hge as ->.
Qed.

(** C3: the code at a [SUBSCR_REQ] with a client name that resolves to no
    id. The adapter is disconnected, and the handler goes on: for an adapter
    with one reference it reads the adapter it has just freed; for an
    adapter with one more reference it writes
    [mgmt_be_adapters_by_id[MGMTD_BE_CLIENT_ID_MAX]], past the end of the
    array. And after a reconnect of a known client the by-id cell of its id
    is NULL, not the new adapter. *)
Theorem subscr_req_unknown_client :
  let handle_msg := mgmt_be_adapter_handle_msg 1 32 Example.name2id in
  Example.name2id "bogus" = 1%nat
  /\ handle_msg 0%nat (SUBSCR_REQ "bogus" true [])
                (Example.after [CallCreateAdapter 7 0])
     = Fault UseAfterFree
  /\ handle_msg 0%nat (SUBSCR_REQ "bogus" true [])
                (Example.after [CallCreateAdapter 7 0; CallLock 0%nat])
     = Fault OutOfBounds
  /\ let st := Example.after
                 [CallCreateAdapter 7 0; FireConnRead 0%nat MSR_SCHED_BOTH;
                  FireProcMsg 0%nat [Some (SUBSCR_REQ "staticd" true [])] false;
                  CallCreateAdapter 9 0; FireConnRead 1%nat MSR_SCHED_BOTH;
                  FireProcMsg 1%nat [Some (SUBSCR_REQ "staticd" true [])] false]
     in
     mgmt_be_adapters st = [1%nat]
     /\ (id <$> heap st !! 1%nat) = Some 0%nat
     /\ mgmt_be_adapters_by_id st !! 0%nat = None.
Proof. repeat split; vm_compute; reflexivity. Qed.

Lemma create_adapter_per_fd_witness :
  let st := Example.after [CallCreateAdapter 7 0] in
  reachable 1 32 0 Example.name2id (fun _ => 10%nat) (fun _ => Ascii.zero)
            (xpath_static_map_reg (Some 0%nat) 1) st
  /\ exists ad,
       heap st !! 0%nat = Some ad
       /\ mgmt_be_create_adapter 1 32 7 0 st
          = Ok (0%nat, set_heap (<[0%nat := set_conn_init_ev true ad]> (heap st)) st).
Proof.
  intros st.
  assert (Hreach : reachable 1 32 0 Example.name2id (fun _ => 10%nat)
                     (fun _ => Ascii.zero)
                     (xpath_static_map_reg (Some 0%nat) 1) st).
  { apply (steps_reachable _ _ _ _ _ _ _ [CallCreateAdapter 7 0]
             Example.started).
    - by apply reachable_init with (debug := false).
    - vm_compute. reflexivity. }
  split; [exact Hreach|].
  eexists. split; [vm_compute; reflexivity|].
  refine (proj1 (create_adapter_per_fd 1 32 0 Example.name2id (fun _ => 10%nat)
                   (fun _ => Ascii.zero) (xpath_static_map_reg (Some 0%nat) 1)
                   st 7 0 Hreach) 0%nat _ _ _ _);
    [vm_compute; set_solver | vm_compute; reflexivity | reflexivity].
Defined.

Lemma writes_off_no_write_armed_witness :
  let st := Example.after
              [CallCreateAdapter 7 0; CallCreateTxn 0%nat 1;
               FireConnWrite 0%nat 0 MSW_SCHED_WRITES_OFF] in
  reachable 1 32 0 Example.name2id (fun _ => 10%nat) (fun _ => Ascii.zero)
            (xpath_static_map_reg (Some 0%nat) 1) st
  /\ exists ad,
       heap st !! 0%nat = Some ad
       /\ CHECK_FLAG (flags ad) (MGMTD_BE_ADAPTER_FLAGS_WRITES_OFF 0) = true
       /\ conn_writes_on ad = true
       /\ conn_write_ev ad = false.
Proof.
  intros st.
  assert (Hreach : reachable 1 32 0 Example.name2id (fun _ => 10%nat)
                     (fun _ => Ascii.zero)
                     (xpath_static_map_reg (Some 0%nat) 1) st).
  { apply (steps_reachable _ _ _ _ _ _ _
             [CallCreateAdapter 7 0; CallCreateTxn 0%nat 1;
              FireConnWrite 0%nat 0 MSW_SCHED_WRITES_OFF]
             Example.started).
    - by apply reachable_init with (debug := false).
    - vm_compute. reflexivity. }
  split; [exact Hreach|].
  eexists. split; [vm_compute; reflexivity|].
  split; [vm_compute; reflexivity|]. split; [reflexivity|].
  refine (proj1 (writes_off_no_write_armed 1 32 0 Example.name2id
                   (fun _ => 10%nat) (fun _ => Ascii.zero))
                (xpath_static_map_reg (Some 0%nat) 1) st 0%nat _ Hreach _ _);
    vm_compute; reflexivity.
Defined.

(** * Creating an adapter for a new descriptor *)

Section CreateNew.

Variable MGMTD_BE_CLIENT_ID_MAX : nat.
Variable MGMTD_CLIENT_NAME_MAX_LEN : nat.

(** The states [mgmt_be_create_adapter] goes through: the heap [h] and the
    registry [l] over the rest of [st]. *)
Local Abbreviation during st h l :=
  ({| heap := h; next_addr := S (next_addr st); mgmt_be_adapters := l;
      mgmt_be_adapters_by_id := mgmt_be_adapters_by_id st;
      mgmt_xpath_map := mgmt_xpath_map st;
      mgmt_be_adapter_tm := mgmt_be_adapter_tm st;
      txn_log := txn_log st; ds_iter_log := ds_iter_log st;
      mgmt_debug_be := mgmt_debug_be st |}).

Lemma update_during st h l a ad f :
  update a f (during st (<[a := ad]> h) l)
  = Ok (tt, during st (<[a := f ad]> h) l).
Proof.
  erewrite update_run; [|apply lookup_insert_eq].
  unfold set_heap. cbn. by rewrite insert_insert_eq.
Qed.

Lemma find_by_none test l st :
  (forall b, b ∈ l -> is_Some (heap st !! b)) ->
  (forall b bd, b ∈ l -> heap st !! b = Some bd -> test bd = false) ->
  find_by test l st = Ok (None, st).
Proof.
  intros Hall Hno.
  destruct (find_by_total test l st Hall) as [[b|] Hr]; [|done].
  apply find_by_Ok in Hr as [_ [Hb (bd & Hbd & Ht)]].
  rewrite (Hno b bd Hb Hbd) in Ht. done.
Qed.

Lemma create_adapter_new bit st fd from :
  state_ok bit st ->
  (forall b bd, b ∈ mgmt_be_adapters st -> heap st !! b = Some bd ->
                conn_fd bd <> fd) ->
  mgmt_be_create_adapter MGMTD_BE_CLIENT_ID_MAX MGMTD_CLIENT_NAME_MAX_LEN
    fd from st
  = Ok (next_addr st,
        created_state MGMTD_BE_CLIENT_ID_MAX MGMTD_CLIENT_NAME_MAX_LEN
                      fd from st).
Proof.
  intros Hok Hfd.
  unfold mgmt_be_create_adapter, mgmt_be_find_adapter_by_fd.
  unfold bind at 1. unfold bind at 1. unfold gets at 1.
  rewrite find_by_none; [|apply (ok_registered _ _ Hok)|].
  2:{ intros b bd Hb Hbd. apply Z.eqb_neq. by apply (Hfd b bd). }
  unfold bind at 1. unfold bind at 1. unfold xcalloc.
  change (set_next_addr _ (set_heap (<[next_addr st := adapter_zero]> (heap st)) st))
    with (during st (<[next_addr st := adapter_zero]> (heap st))
                 (mgmt_be_adapters st)).
  unfold mgmt_be_adapter_lock, mgmt_be_adapter_register_event.
  do 7 (unfold bind at 1; rewrite update_during).
  unfold bind at 1. unfold mgmt_be_adapters_add_tail, modify_state.
  change (set_mgmt_be_adapters _ (during st ?h ?l))
    with (during st h (mgmt_be_adapters st ++ [next_addr st])).
  unfold bind at 1. rewrite update_during.
  unfold ret at 1. unfold bind at 1. rewrite update_during.
  unfold ret. reflexivity.
Qed.

End CreateNew.

(** * What every step of the daemon keeps *)

(** The steps of the code, taken apart, for a property that [leaf] shows
    for the writes. *)
Ltac chain_step leaf :=
  first
    [ apply preserves_ret
    | apply preserves_load
    | apply preserves_assert
    | apply preserves_gets
    | apply preserves_raise
    | apply preserves_DBG
    | apply preserves_element
    | leaf
    | apply preserves_for_each; intros ?
    | apply preserves_discard
    | apply preserves_if
    | match goal with
      | |- preserves _ (match ?x with _ => _ end) => destruct x
      end
    | apply preserves_bind; [|intros ?] ].

Section Chain.

Variable MGMTD_BE_CLIENT_ID_MAX : nat.
Variable MGMTD_CLIENT_NAME_MAX_LEN : nat.
Variable writes_off_bit : nat.
Variable mgmt_be_client_name2id : string -> nat.
Variable get_packed_size : be_msg -> nat.
Variable byte_before : string -> ascii.

Local Abbreviation ok := (state_ok writes_off_bit).
Local Abbreviation run_act :=
  (run MGMTD_BE_CLIENT_ID_MAX MGMTD_CLIENT_NAME_MAX_LEN writes_off_bit
       mgmt_be_client_name2id get_packed_size byte_before).

(** A property of the state that is kept by every benign write of an
    adapter, by every write outside the heap, the registry and the fields
    of [mgmt_be_adapter_init], by the three functions that allocate, free,
    link and unlink adapters, and by the read event. *)
Variable Q : state -> Prop.

Hypothesis Q_update : forall a f, benign f -> preserves Q (update a f).
Hypothesis Q_modify : forall f,
  (forall st, heap (f st) = heap st
              /\ mgmt_be_adapters (f st) = mgmt_be_adapters st
              /\ mgmt_xpath_map (f st) = mgmt_xpath_map st
              /\ mgmt_be_adapter_tm (f st) = mgmt_be_adapter_tm st) ->
  preserves Q (modify_state f).
Hypothesis Q_unlock : forall a, preserves Q (mgmt_be_adapter_unlock a).
Hypothesis Q_disconnect : forall a,
  preserves Q (mgmt_be_adapter_disconnect MGMTD_BE_CLIENT_ID_MAX a).
Hypothesis Q_create : forall fd from,
  hoare (fun st => ok st /\ Q st)
        (mgmt_be_create_adapter MGMTD_BE_CLIENT_ID_MAX
                                MGMTD_CLIENT_NAME_MAX_LEN fd from)
        (fun _ => Q).
Hypothesis Q_fire_read : forall a rv,
  hoare (fun st => ok st /\ Q st) (run_act (FireConnRead a rv)) (fun _ => Q).

Ltac leaf :=
  first
    [ apply Q_update; intros ?; simpl; split; [lia|split; [done|auto]]
    | apply Q_modify; intros ?; simpl; done
    | apply Q_unlock
    | apply Q_disconnect ].

Lemma chain_register_event a ev :
  preserves Q (mgmt_be_adapter_register_event a ev).
Proof. destruct ev; simpl; repeat chain_step leaf. Qed.

Lemma chain_cleanup_old_conn a :
  preserves Q (mgmt_be_adapter_cleanup_old_conn MGMTD_BE_CLIENT_ID_MAX
                 MGMTD_CLIENT_NAME_MAX_LEN a).
Proof.
  unfold mgmt_be_adapter_cleanup_old_conn, FOREACH_ADAPTER_IN_LIST.
  repeat chain_step leaf.
Qed.

Lemma chain_handle_msg a msg :
  preserves Q (mgmt_be_adapter_handle_msg MGMTD_BE_CLIENT_ID_MAX
                 MGMTD_CLIENT_NAME_MAX_LEN mgmt_be_client_name2id a msg).
Proof.
  unfold mgmt_be_adapter_handle_msg, by_id_store, txn.
  apply preserves_bind; [|intros ?; apply preserves_ret].
  destruct msg; repeat first [apply chain_cleanup_old_conn | chain_step leaf].
Qed.

Lemma chain_proc_msgbufs a frames more :
  preserves Q (mgmt_be_adapter_proc_msgbufs MGMTD_BE_CLIENT_ID_MAX
                 MGMTD_CLIENT_NAME_MAX_LEN mgmt_be_client_name2id
                 a frames more).
Proof.
  unfold mgmt_be_adapter_proc_msgbufs, mgmt_msg_procbufs,
    mgmt_be_adapter_process_msg.
  repeat first [apply chain_handle_msg | apply chain_register_event
               | chain_step leaf].
Qed.

Lemma chain_read a rv :
  preserves Q (mgmt_be_adapter_read MGMTD_BE_CLIENT_ID_MAX a rv).
Proof.
  unfold mgmt_be_adapter_read, mgmt_msg_read.
  repeat first [apply chain_register_event | chain_step leaf].
Qed.

Lemma chain_conn_init a txn_in_progress conn_rv :
  preserves Q (mgmt_be_adapter_conn_init MGMTD_BE_CLIENT_ID_MAX a
                 txn_in_progress conn_rv).
Proof.
  unfold mgmt_be_adapter_conn_init, txn.
  repeat first [apply chain_register_event | chain_step leaf].
Qed.

Lemma chain_sched_msg_write a :
  preserves Q (mgmt_be_adapter_sched_msg_write writes_off_bit a).
Proof.
  unfold mgmt_be_adapter_sched_msg_write.
  repeat first [apply chain_register_event | chain_step leaf].
Qed.

Lemma chain_write a drained rv :
  preserves Q (mgmt_be_adapter_write MGMTD_BE_CLIENT_ID_MAX writes_off_bit
                 a drained rv).
Proof.
  unfold mgmt_be_adapter_write, mgmt_msg_write, mgmt_be_adapter_writes_off.
  repeat first [apply chain_register_event | chain_step leaf].
Qed.

Lemma chain_resume_writes a :
  preserves Q (mgmt_be_adapter_resume_writes writes_off_bit a).
Proof.
  unfold mgmt_be_adapter_resume_writes, mgmt_be_adapter_writes_on.
  repeat first [apply chain_sched_msg_write | chain_step leaf].
Qed.

Lemma chain_send_msg a msg :
  preserves Q (mgmt_be_adapter_send_msg writes_off_bit get_packed_size a msg).
Proof.
  unfold mgmt_be_adapter_send_msg, mgmt_msg_send_msg.
  repeat first [apply chain_sched_msg_write | chain_step leaf].
Qed.

Lemma chain_get_adapter_config a ds_ctx :
  preserves Q (mgmt_be_get_adapter_config MGMTD_BE_CLIENT_ID_MAX
                 byte_before a ds_ctx).
Proof.
  unfold mgmt_be_get_adapter_config, mgmt_ds_iter_data.
  apply preserves_bind; [apply preserves_load|]. intros ad.
  apply preserves_bind; [|intros ?; repeat chain_step leaf].
  apply preserves_if; [|apply preserves_ret].
  apply preserves_bind; [leaf|]. intros ?.
  apply preserves_bind; [|intros ?; apply preserves_ret].
  generalize ({| parms_adapter := a; parms_seq := 0 |}).
  induction (ds_ctx "/") as [|n nodes IH]; intros parms; simpl.
  - apply preserves_ret.
  - apply preserves_bind; [|intros ?; apply IH].
    unfold mgmt_be_iter_and_get_cfg.
    apply preserves_bind; [apply preserves_gets|]. intros map.
    destruct (mgmt_be_get_subscr_info_for_xpath _ _ _ _ _) as [rc [info|]];
      [|apply preserves_ret].
    apply preserves_if; [apply preserves_ret|].
    apply preserves_bind; [apply preserves_load|]. intros ad'.
    destruct (info !! id ad') as [r|]; [|apply preserves_raise].
    apply preserves_if; [apply preserves_ret|].
    destruct (nb_config_diff_created _ _ _) as [seq root].
    repeat chain_step leaf.
Qed.

Lemma chain_create fd from :
  hoare (fun st => ok st /\ Q st)
        (discard (mgmt_be_create_adapter MGMTD_BE_CLIENT_ID_MAX
                    MGMTD_CLIENT_NAME_MAX_LEN fd from))
        (fun _ => Q).
Proof.
  intros st x st' HP Hr. unfold discard in Hr.
  apply bind_Ok in Hr as (a & st1 & Hc & Hr). apply ret_Ok in Hr as [_ ->].
  by apply (Q_create fd from st a st1).
Qed.

(** Every step keeps the property, in a state that satisfies the invariant
    of the registry. *)
Lemma chain_run act :
  hoare (fun st => ok st /\ Q st) (run_act act) (fun _ => Q).
Proof.
  destruct act; try apply Q_fire_read; simpl; try apply chain_create;
    (eapply hoare_weaken with (P := Q) (Q := fun _ => Q);
       [|by intros st [_ ?]|done]);
    unfold fire, mgmt_be_create_txn, mgmt_be_destroy_txn,
      mgmt_be_send_cfg_data_create_req, mgmt_be_send_cfg_apply_req,
      mgmt_be_send_txn_req, mgmt_be_send_cfgdata_create_req,
      mgmt_be_send_cfgapply_req, mgmt_be_adapter_destroy,
      mgmt_be_cleanup_adapters, FOREACH_ADAPTER_IN_LIST,
      mgmt_be_adapter_lock;
    try (apply preserves_bind; [leaf|intros ?]);
    try apply preserves_discard;
    auto using chain_conn_init, chain_read, chain_write, chain_proc_msgbufs,
      chain_resume_writes, chain_get_adapter_config, chain_send_msg.
  all: by repeat chain_step leaf.
Qed.

(** So the property holds in every reachable state, when it holds after
    [mgmt_be_adapter_init]. *)
Lemma chain_reachable reg st :
  (forall debug st0,
     mgmt_be_adapter_init MGMTD_BE_CLIENT_ID_MAX reg
       (set_mgmt_debug_be debug state_zero) = Ok (0, st0) -> Q st0) ->
  reachable MGMTD_BE_CLIENT_ID_MAX MGMTD_CLIENT_NAME_MAX_LEN writes_off_bit
            mgmt_be_client_name2id get_packed_size byte_before reg st ->
  Q st.
Proof.
  intros Hinit.
  induction 1 as [debug st Hi | st act st' Hreach IH [Hen Hrun]].
  - by apply (Hinit debug).
  - apply (chain_run act st tt st'); [|done]. split; [|done].
    exact (reachable_ok _ _ _ _ _ _ reg st Hreach).
Qed.

End Chain.

(** * References, the registry and the running map *)

Lemma unlock_Ok a st st' :
  mgmt_be_adapter_unlock a st = Ok (tt, st') ->
  exists ad, heap st !! a = Some ad /\ refcount ad <> 0
    /\ st' = if refcount ad - 1 =? 0
             then set_heap (delete a (heap st))
                    (set_mgmt_be_adapters
                       (filter (fun p => p <> a) (mgmt_be_adapters st)) st)
             else set_heap (<[a := set_refcount (refcount ad - 1) ad]>
                              (heap st)) st.
Proof.
  intros Hr. destruct (heap st !! a) as [ad|] eqn:Hl.
  - rewrite (unlock_run st a ad Hl) in Hr.
    destruct (refcount ad =? 0) eqn:Hrc; [done|].
    apply Z.eqb_neq in Hrc. injection Hr as <-. eauto.
  - unfold mgmt_be_adapter_unlock, bind, load in Hr. by rewrite Hl in Hr.
Qed.

(** [mgmt_be_create_adapter] either finds the adapter of the descriptor or
    sets up a new one. *)
Lemma create_adapter_cases max nlen bit st fd from a st' :
  state_ok bit st ->
  mgmt_be_create_adapter max nlen fd from st = Ok (a, st') ->
  (exists ad, a ∈ mgmt_be_adapters st /\ heap st !! a = Some ad
              /\ conn_fd ad = fd
              /\ st' = set_heap (<[a := set_conn_init_ev true ad]> (heap st)) st)
  \/ ((forall b bd, b ∈ mgmt_be_adapters st -> heap st !! b = Some bd ->
                    conn_fd bd <> fd)
      /\ a = next_addr st /\ st' = created_state max nlen fd from st).
Proof.
  intros Hok Hr.
  destruct (find_by_total (fun ad => conn_fd ad =? fd) (mgmt_be_adapters st) st
              (ok_registered _ _ Hok)) as [r Hf].
  apply find_by_Ok in Hf as [_ Hf]. destruct r as [b|].
  - left. destruct Hf as [Hb (bd & Hbd & Ht)]. apply Z.eqb_eq in Ht.
    rewrite (create_adapter_existing max nlen bit st fd from b bd) in Hr
      by done.
    injection Hr as <- <-. by exists bd.
  - right.
    assert (Hno : forall b bd, b ∈ mgmt_be_adapters st ->
              heap st !! b = Some bd -> conn_fd bd <> fd).
    { intros b bd Hb Hbd. apply Z.eqb_neq. by apply (Hf b bd). }
    rewrite (create_adapter_new max nlen bit st fd from) in Hr by done.
    injection Hr as <- <-. done.
Qed.

Section StateOk2.

Variable MGMTD_BE_CLIENT_ID_MAX : nat.
Variable MGMTD_CLIENT_NAME_MAX_LEN : nat.
Variable writes_off_bit : nat.
Variable mgmt_be_client_name2id : string -> nat.
Variable get_packed_size : be_msg -> nat.
Variable byte_before : string -> ascii.
Variable map : list mgmt_be_xpath_regexp_map.

Local Abbreviation ok2 := (state_ok2 map).

Lemma ok2_update_refs a f :
  (forall ad, refcount ad <= refcount (f ad)) -> preserves ok2 (update a f).
Proof.
  intros Hf st x st' (Hrefs & Hnd & Hst) Hr.
  apply update_Ok in Hr as (ad & Hl & ->). split; [|done].
  apply map_Forall_insert_2; [|done].
  specialize (Hrefs a ad Hl). specialize (Hf ad). simpl in *. lia.
Qed.

Lemma ok2_update a f : benign f -> preserves ok2 (update a f).
Proof. intros Hf. apply ok2_update_refs. intros ad. apply (Hf ad). Qed.

Lemma ok2_modify f :
  (forall st, heap (f st) = heap st
              /\ mgmt_be_adapters (f st) = mgmt_be_adapters st
              /\ mgmt_xpath_map (f st) = mgmt_xpath_map st
              /\ mgmt_be_adapter_tm (f st) = mgmt_be_adapter_tm st) ->
  preserves ok2 (modify_state f).
Proof.
  intros Hf st x st' (Hrefs & Hnd & Hm & Ht) Hr.
  apply modify_state_Ok in Hr as ->. destruct (Hf st) as (H1 & H2 & H3 & H4).
  unfold state_ok2, refs_ok, statics_are. by rewrite H1, H2, H3, H4.
Qed.

Lemma ok2_unlock a : preserves ok2 (mgmt_be_adapter_unlock a).
Proof.
  intros st [] st' (Hrefs & Hnd & Hst) Hr.
  apply unlock_Ok in Hr as (ad & Hl & Hrc & ->).
  destruct (Z.eqb_spec (refcount ad - 1) 0) as [Hz|Hnz].
  - split; [by apply map_Forall_delete|]. split; [|done].
    by apply NoDup_filter.
  - split; [|done]. apply map_Forall_insert_2; [|done].
    specialize (Hrefs a ad Hl). simpl in *. lia.
Qed.

Lemma ok2_disconnect a :
  preserves ok2 (mgmt_be_adapter_disconnect MGMTD_BE_CLIENT_ID_MAX a).
Proof.
  intros st [] st' (Hrefs & Hnd & Hst) Hr.
  apply disconnect_Ok in Hr as (ad & Hl & Hrc & ->).
  unfold state_ok2, refs_ok, disconnect_state. cbn.
  split; [|split; [by apply NoDup_filter|done]].
  destruct (Z.eqb_spec (refcount ad - 1) 0) as [Hz|Hnz].
  - by apply map_Forall_delete.
  - apply map_Forall_insert_2; [|done].
    destruct (disconnected_closed MGMTD_BE_CLIENT_ID_MAX ad) as (_ & _ & ->).
    specialize (Hrefs a ad Hl). simpl in *. lia.
Qed.

Lemma ok2_create fd from :
  hoare (fun st => state_ok writes_off_bit st /\ ok2 st)
        (mgmt_be_create_adapter MGMTD_BE_CLIENT_ID_MAX
                                MGMTD_CLIENT_NAME_MAX_LEN fd from)
        (fun _ => ok2).
Proof.
  intros st a st' [Hok (Hrefs & Hnd & Hst)] Hr.
  apply (create_adapter_cases _ _ _ _ _ _ _ _ Hok) in Hr
    as [(ad & Ha & Hl & Hfd & ->)|(Hno & -> & ->)].
  - split; [|done]. apply map_Forall_insert_2; [|done].
    apply (Hrefs a ad Hl).
  - unfold state_ok2, refs_ok, created_state. cbn.
    split; [|split; [|done]].
    + apply map_Forall_insert_2; [done|done].
    + apply NoDup_app. split; [done|]. split; [|apply NoDup_singleton].
      intros b Hb Hb'. apply list_elem_of_singleton in Hb' as ->.
      apply (ok_registered _ _ Hok), (ok_allocated _ _ Hok) in Hb. lia.
Qed.

Lemma ok2_fire_read a rv :
  hoare (fun st => state_ok writes_off_bit st /\ ok2 st)
        (run MGMTD_BE_CLIENT_ID_MAX MGMTD_CLIENT_NAME_MAX_LEN writes_off_bit
             mgmt_be_client_name2id get_packed_size byte_before
             (FireConnRead a rv))
        (fun _ => ok2).
Proof.
  eapply hoare_weaken with (P := ok2) (Q := fun _ => ok2);
    [|by intros st [_ ?]|done].
  simpl. unfold fire. apply preserves_bind.
  - apply ok2_update_refs. intros ad. simpl. lia.
  - intros ?. apply chain_read; auto using ok2_update, ok2_modify, ok2_unlock,
      ok2_disconnect.
Qed.

Lemma init_ok2 reg debug st :
  map = mgmt_be_xpath_map_init MGMTD_BE_CLIENT_ID_MAX reg ->
  mgmt_be_adapter_init MGMTD_BE_CLIENT_ID_MAX reg
    (set_mgmt_debug_be debug state_zero) = Ok (0, st) ->
  ok2 st.
Proof.
  intros -> [= <-]. split; [apply map_Forall_empty|].
  split; [apply NoDup_nil_2|done].
Qed.

(** The three properties hold in every reachable state. *)
Lemma reachable_ok2 reg st :
  map = mgmt_be_xpath_map_init MGMTD_BE_CLIENT_ID_MAX reg ->
  reachable MGMTD_BE_CLIENT_ID_MAX MGMTD_CLIENT_NAME_MAX_LEN writes_off_bit
            mgmt_be_client_name2id get_packed_size byte_before reg st ->
  ok2 st.
Proof.
  intros Hmap. apply chain_reachable.
  - apply ok2_update.
  - apply ok2_modify.
  - apply ok2_unlock.
  - apply ok2_disconnect.
  - apply ok2_create.
  - apply ok2_fire_read.
  - intros debug st0. by apply init_ok2.
Qed.

End StateOk2.

(** * Registered adapters listen *)

Section Listening.

Variable MGMTD_BE_CLIENT_ID_MAX : nat.
Variable MGMTD_CLIENT_NAME_MAX_LEN : nat.
Variable writes_off_bit : nat.
Variable mgmt_be_client_name2id : string -> nat.
Variable get_packed_size : be_msg -> nat.
Variable byte_before : string -> ascii.

(** The property for all adapters but the one at [a]. *)
Local Abbreviation listening_but a st :=
  (forall b bd, heap st !! b = Some bd -> b <> a ->
     if bool_decide (b ∈ mgmt_be_adapters st) then conn_read_ev bd = true
     else conn_fd bd < 0).

Lemma listening_insert st a ad' :
  listening_but a st ->
  (if bool_decide (a ∈ mgmt_be_adapters st) then conn_read_ev ad' = true
   else conn_fd ad' < 0) ->
  listening (set_heap (<[a := ad']> (heap st)) st).
Proof.
  intros Hbut Ha b bd. cbn [heap mgmt_be_adapters set_heap].
  destruct (decide (b = a)) as [->|Hne].
  - rewrite lookup_insert_eq. by intros [= <-].
  - rewrite lookup_insert_ne by done. intros Hb. by apply Hbut.
Qed.

Lemma listening_remove st a h :
  listening_but a st ->
  (forall b, b <> a -> h !! b = heap st !! b) ->
  (forall ad, h !! a = Some ad -> conn_fd ad < 0) ->
  listening (set_heap h (set_mgmt_be_adapters
                           (filter (fun p => p <> a) (mgmt_be_adapters st))
                           st)).
Proof.
  intros Hbut Hh Ha b bd. cbn [heap mgmt_be_adapters set_heap
                               set_mgmt_be_adapters].
  destruct (decide (b = a)) as [->|Hne].
  - intros Hl. rewrite bool_decide_eq_false_2.
    + by apply Ha.
    + intros Hin. by apply list_elem_of_filter in Hin as [? _].
  - rewrite Hh by done. intros Hb. specialize (Hbut b bd Hb Hne).
    destruct (decide (b ∈ mgmt_be_adapters st)) as [Hin|Hout].
    + rewrite bool_decide_eq_true_2 in Hbut by done.
      rewrite bool_decide_eq_true_2; [done|].
      by apply list_elem_of_filter.
    + rewrite bool_decide_eq_false_2 in Hbut by done.
      rewrite bool_decide_eq_false_2; [done|].
      intros Hin. by apply list_elem_of_filter in Hin as [_ ?].
Qed.

Lemma listening_is_but a st : listening st -> listening_but a st.
Proof. intros H b bd Hb _. by apply H. Qed.

Lemma listening_update a f : benign f -> preserves listening (update a f).
Proof.
  intros Hf st x st' Hlis Hr. apply update_Ok in Hr as (ad & Hl & ->).
  apply listening_insert; [by apply listening_is_but|].
  specialize (Hlis a ad Hl). destruct (Hf ad) as (_ & Hfd & Hev).
  destruct (bool_decide _); [by apply Hev|by rewrite Hfd].
Qed.

Lemma listening_modify f :
  (forall st, heap (f st) = heap st
              /\ mgmt_be_adapters (f st) = mgmt_be_adapters st
              /\ mgmt_xpath_map (f st) = mgmt_xpath_map st
              /\ mgmt_be_adapter_tm (f st) = mgmt_be_adapter_tm st) ->
  preserves listening (modify_state f).
Proof.
  intros Hf st x st' Hlis Hr. apply modify_state_Ok in Hr as ->.
  destruct (Hf st) as (H1 & H2 & _). unfold listening. by rewrite H1, H2.
Qed.

Lemma listening_unlock a : preserves listening (mgmt_be_adapter_unlock a).
Proof.
  intros st [] st' Hlis Hr.
  apply unlock_Ok in Hr as (ad & Hl & Hrc & ->).
  destruct (refcount ad - 1 =? 0).
  - apply listening_remove; [by apply listening_is_but| |].
    + intros b Hb. by apply lookup_delete_ne.
    + intros ad'. by rewrite lookup_delete_eq.
  - apply listening_insert; [by apply listening_is_but|].
    apply (Hlis a ad Hl).
Qed.

(** After a disconnect, whatever the read event of the adapter was. *)
Lemma listening_disconnect_state a ad st :
  listening_but a st -> heap st !! a = Some ad ->
  listening (disconnect_state MGMTD_BE_CLIENT_ID_MAX a ad st).
Proof.
  intros Hbut Hl.
  set (h := if refcount ad - 1 =? 0 then delete a (heap st)
            else <[a := disconnected MGMTD_BE_CLIENT_ID_MAX ad]> (heap st)).
  assert (Hrest : listening
            (set_heap h (set_mgmt_be_adapters
                           (filter (fun p => p <> a) (mgmt_be_adapters st))
                           st))).
  { apply listening_remove; [done| |].
    - intros b Hb. unfold h. destruct (_ =? 0);
        [by apply lookup_delete_ne|by apply lookup_insert_ne].
    - intros ad'. unfold h. destruct (_ =? 0).
      + by rewrite lookup_delete_eq.
      + rewrite lookup_insert_eq. intros [= <-].
        apply disconnected_closed. }
  intros b bd Hb. by apply (Hrest b bd).
Qed.

Lemma listening_disconnect a :
  preserves listening (mgmt_be_adapter_disconnect MGMTD_BE_CLIENT_ID_MAX a).
Proof.
  intros st [] st' Hlis Hr.
  apply disconnect_Ok in Hr as (ad & Hl & Hrc & ->).
  apply listening_disconnect_state; [by apply listening_is_but|done].
Qed.

Lemma listening_create fd from :
  hoare (fun st => state_ok writes_off_bit st /\ listening st)
        (mgmt_be_create_adapter MGMTD_BE_CLIENT_ID_MAX
                                MGMTD_CLIENT_NAME_MAX_LEN fd from)
        (fun _ => listening).
Proof.
  intros st a st' [Hok Hlis] Hr.
  apply (create_adapter_cases _ _ _ _ _ _ _ _ Hok) in Hr
    as [(ad & Ha & Hl & Hfd & ->)|(Hno & -> & ->)].
  - apply listening_insert; [by apply listening_is_but|].
    apply (Hlis a ad Hl).
  - intros b bd. cbn [heap mgmt_be_adapters created_state].
    destruct (decide (b = next_addr st)) as [->|Hne].
    + rewrite lookup_insert_eq. intros [= <-].
      rewrite bool_decide_eq_true_2; [done|].
      apply elem_of_app. right. by left.
    + rewrite lookup_insert_ne by done. intros Hb.
      specialize (Hlis b bd Hb).
      destruct (decide (b ∈ mgmt_be_adapters st)) as [Hin|Hout].
      * rewrite bool_decide_eq_true_2 in Hlis by done.
        rewrite bool_decide_eq_true_2; [done|]. apply elem_of_app. by left.
      * rewrite bool_decide_eq_false_2 in Hlis by done.
        rewrite bool_decide_eq_false_2; [done|].
        intros Hin. apply elem_of_app in Hin as [?|Hin]; [done|].
        by apply list_elem_of_singleton in Hin.
Qed.

(** The read handler arms the read event again, or disconnects. *)
Lemma listening_fire_read a rv :
  hoare (fun st => state_ok writes_off_bit st /\ listening st)
        (run MGMTD_BE_CLIENT_ID_MAX MGMTD_CLIENT_NAME_MAX_LEN writes_off_bit
             mgmt_be_client_name2id get_packed_size byte_before
             (FireConnRead a rv))
        (fun _ => listening).
Proof.
  intros st [] st' [_ Hlis] Hr. simpl in Hr. unfold fire in Hr.
  apply bind_Ok in Hr as ([] & st1 & Hclear & Hr).
  apply update_Ok in Hclear as (ad & Hl & ->).
  set (ad1 := set_conn_read_ev false ad) in *.
  set (st1 := set_heap (<[a := ad1]> (heap st)) st) in *.
  assert (Hl1 : heap st1 !! a = Some ad1) by apply lookup_insert_eq.
  assert (Hbut : listening_but a st1).
  { intros b bd Hb Hne. unfold st1 in Hb. cbn [heap set_heap] in Hb.
    rewrite lookup_insert_ne in Hb by done. by apply Hlis. }
  unfold mgmt_be_adapter_read, mgmt_msg_read in Hr.
  apply bind_Ok in Hr as (rv' & st2 & Hrd & Hr).
  apply bind_Ok in Hrd as (? & st3 & Hld & Hrd).
  apply load_Ok in Hld as [_ ->]. apply ret_Ok in Hrd as [-> ->].
  assert (Harm : forall ad2 (s : state),
            heap s = <[a := ad2]> (heap st) ->
            mgmt_be_adapters s = mgmt_be_adapters st ->
            conn_fd ad2 = conn_fd ad ->
            mgmt_be_adapter_register_event a MGMTD_BE_CONN_READ s
            = Ok (tt, st') -> listening st').
  { intros ad2 s Hh Hreg Hfd Hrun. cbn in Hrun.
    apply update_Ok in Hrun as (ad3 & Hl3 & ->).
    rewrite Hh, lookup_insert_eq in Hl3. injection Hl3 as <-.
    intros b bd. cbn [heap mgmt_be_adapters set_heap]. rewrite Hh, Hreg.
    rewrite insert_insert_eq.
    destruct (decide (b = a)) as [->|Hne].
    - rewrite lookup_insert_eq. intros [= <-].
      specialize (Hlis a ad Hl).
      destruct (bool_decide _); [done|]. cbn. by rewrite Hfd.
    - rewrite lookup_insert_ne by done. apply Hlis. }
  destruct rv.
  - apply bind_Ok in Hr as ([] & st4 & Hproc & Hr). cbn in Hproc.
    apply update_Ok in Hproc as (ad4 & Hl4 & ->).
    rewrite Hl1 in Hl4. injection Hl4 as <-.
    apply (Harm (set_proc_msg_ev true ad1) _) in Hr; try done.
    unfold st1. cbn [heap set_heap]. by rewrite insert_insert_eq.
  - by apply (Harm ad1 st1) in Hr.
  - apply disconnect_Ok in Hr as (ad5 & Hl5 & _ & ->).
    by apply listening_disconnect_state.
Qed.

(** Every registered adapter listens, in every reachable state. *)
Lemma reachable_listening reg st :
  reachable MGMTD_BE_CLIENT_ID_MAX MGMTD_CLIENT_NAME_MAX_LEN writes_off_bit
            mgmt_be_client_name2id get_packed_size byte_before reg st ->
  listening st.
Proof.
  apply chain_reachable.
  - apply listening_update.
  - apply listening_modify.
  - apply listening_unlock.
  - apply listening_disconnect.
  - apply listening_create.
  - apply listening_fire_read.
  - intros debug st0 [= <-]. intros a ad Hl. cbn in Hl.
    by rewrite lookup_empty in Hl.
Qed.

End Listening.


(** The states of the small daemon are reachable. *)
Lemma example_reachable l st :
  steps (run 1 32 0 Example.name2id (fun _ => 10%nat) (fun _ => Ascii.zero))
        l Example.started = Some st ->
  reachable 1 32 0 Example.name2id (fun _ => 10%nat) (fun _ => Ascii.zero)
            (xpath_static_map_reg (Some 0%nat) 1) st.
Proof.
  apply steps_reachable. by apply reachable_init with (debug := false).
Qed.

(** X1: in every state the daemon reaches, every allocated adapter holds
    at least one reference: so [mgmt_be_adapter_unlock] and
    [mgmt_be_adapter_disconnect] of an allocated adapter never fail the
    assertion of [mgmt_be_adapter_unlock] and run to their end; the unlock
    frees the adapter and unlinks it exactly when it drops the last
    reference. *)
Theorem reachable_adapters_referenced max nlen bit name2id psize bb reg st
    a ad :
  reachable max nlen bit name2id psize bb reg st ->
  heap st !! a = Some ad ->
  0 < refcount ad
  /\ mgmt_be_adapter_unlock a st
     = Ok (tt, if refcount ad =? 1
               then set_heap (delete a (heap st))
                      (set_mgmt_be_adapters
                         (filter (fun p => p <> a) (mgmt_be_adapters st)) st)
               else set_heap (<[a := set_refcount (refcount ad - 1) ad]>
                                (heap st)) st)
  /\ mgmt_be_adapter_disconnect max a st
     = Ok (tt, disconnect_state max a ad st).
Proof.
  intros Hreach Hl.
  destruct (reachable_ok2 max nlen bit name2id psize bb
              (mgmt_be_xpath_map_init max reg) reg st eq_refl Hreach)
    as (Hrefs & _).
  specialize (Hrefs a ad Hl). simpl in Hrefs. split; [done|].
  rewrite (unlock_run st a ad Hl), (disconnect_run max st a ad Hl).
  destruct (Z.eqb_spec (refcount ad) 0); [lia|].
  split; [|done].
  by destruct (Z.eqb_spec (refcount ad - 1) 0), (Z.eqb_spec (refcount ad) 1);
    try lia.
Qed.

Lemma reachable_adapters_referenced_witness :
  let st := Example.after [CallCreateAdapter 7 0; CallLock 0%nat] in
  reachable 1 32 0 Example.name2id (fun _ => 10%nat) (fun _ => Ascii.zero)
            (xpath_static_map_reg (Some 0%nat) 1) st
  /\ exists ad,
       heap st !! 0%nat = Some ad
       /\ refcount ad = 2
       /\ mgmt_be_adapter_disconnect 1 0%nat st
          = Ok (tt, disconnect_state 1 0%nat ad st).
Proof.
  intros st.
  assert (Hreach : reachable 1 32 0 Example.name2id (fun _ => 10%nat)
                     (fun _ => Ascii.zero)
                     (xpath_static_map_reg (Some 0%nat) 1) st).
  { apply (example_reachable [CallCreateAdapter 7 0; CallLock 0%nat]).
    vm_compute. reflexivity. }
  split; [exact Hreach|].
  eexists. split; [vm_compute; reflexivity|]. split; [reflexivity|].
  refine (proj2 (proj2 (reachable_adapters_referenced 1 32 0 Example.name2id
                          (fun _ => 10%nat) (fun _ => Ascii.zero)
                          (xpath_static_map_reg (Some 0%nat) 1)
                          st 0%nat _ Hreach _))).
  vm_compute. reflexivity.
Defined.

(** X2: in every state the daemon reaches, the registry links no adapter
    twice and no adapter that has been freed; and an adapter that is
    allocated lies below the next address. *)
Theorem reachable_registry max nlen bit name2id psize bb reg st :
  reachable max nlen bit name2id psize bb reg st ->
  NoDup (mgmt_be_adapters st)
  /\ (forall a, a ∈ mgmt_be_adapters st -> is_Some (heap st !! a))
  /\ (forall a, is_Some (heap st !! a) -> (a < next_addr st)%nat).
Proof.
  intros Hreach.
  destruct (reachable_ok2 max nlen bit name2id psize bb
              (mgmt_be_xpath_map_init max reg) reg st eq_refl Hreach)
    as (_ & Hnd & _).
  pose proof (reachable_ok _ _ _ _ _ _ reg st Hreach) as Hok.
  split; [done|]. split; [apply (ok_registered _ _ Hok)|].
  apply (ok_allocated _ _ Hok).
Qed.

Lemma reachable_registry_witness :
  let st := Example.after [CallCreateAdapter 7 0; CallCreateAdapter 9 0;
                           CallCreateAdapter 7 0;
                           FireConnRead 0%nat MSR_DISCONNECT] in
  reachable 1 32 0 Example.name2id (fun _ => 10%nat) (fun _ => Ascii.zero)
            (xpath_static_map_reg (Some 0%nat) 1) st
  /\ mgmt_be_adapters st = [1%nat]
  /\ NoDup (mgmt_be_adapters st).
Proof.
  intros st.
  assert (Hreach : reachable 1 32 0 Example.name2id (fun _ => 10%nat)
                     (fun _ => Ascii.zero)
                     (xpath_static_map_reg (Some 0%nat) 1) st).
  { apply (example_reachable [CallCreateAdapter 7 0; CallCreateAdapter 9 0;
                              CallCreateAdapter 7 0;
                              FireConnRead 0%nat MSR_DISCONNECT]).
    vm_compute. reflexivity. }
  split; [exact Hreach|]. split; [vm_compute; reflexivity|].
  exact (proj1 (reachable_registry 1 32 0 Example.name2id (fun _ => 10%nat)
                  (fun _ => Ascii.zero) (xpath_static_map_reg (Some 0%nat) 1)
                  st Hreach)).
Defined.

(** X3: [mgmt_be_adapter_init] builds the running map once: in every state
    the daemon reaches the running map is the one
    [mgmt_be_xpath_map_init] made of the static registry, no function has
    written it since, and a further call of [mgmt_be_adapter_init] returns
    0 and changes nothing. *)
Theorem reachable_xpath_map max nlen bit name2id psize bb reg st reg' :
  reachable max nlen bit name2id psize bb reg st ->
  mgmt_xpath_map st = mgmt_be_xpath_map_init max reg
  /\ mgmt_be_adapter_tm st = true
  /\ mgmt_be_adapter_init max reg' st = Ok (0, st).
Proof.
  intros Hreach.
  destruct (reachable_ok2 max nlen bit name2id psize bb
              (mgmt_be_xpath_map_init max reg) reg st eq_refl Hreach)
    as (_ & _ & Hmap & Htm).
  split; [done|]. split; [done|].
  unfold mgmt_be_adapter_init, bind, gets. by rewrite Htm.
Qed.

Lemma reachable_xpath_map_witness :
  let st := Example.after [CallCreateAdapter 7 0;
                           FireConnRead 0%nat MSR_SCHED_BOTH;
                           FireProcMsg 0%nat
                             [Some (SUBSCR_REQ "staticd" true ["/x/*"])] false]
  in
  reachable 1 32 0 Example.name2id (fun _ => 10%nat) (fun _ => Ascii.zero)
            (xpath_static_map_reg (Some 0%nat) 1) st
  /\ mgmt_xpath_map st
     = mgmt_be_xpath_map_init 1 (xpath_static_map_reg (Some 0%nat) 1)
  /\ mgmt_be_adapter_tm st = true
  /\ mgmt_be_adapter_init 1 [] st = Ok (0, st).
Proof.
  intros st.
  assert (Hreach : reachable 1 32 0 Example.name2id (fun _ => 10%nat)
                     (fun _ => Ascii.zero)
                     (xpath_static_map_reg (Some 0%nat) 1) st).
  { apply (example_reachable
             [CallCreateAdapter 7 0; FireConnRead 0%nat MSR_SCHED_BOTH;
              FireProcMsg 0%nat
                [Some (SUBSCR_REQ "staticd" true ["/x/*"])] false]).
    vm_compute. reflexivity. }
  split; [exact Hreach|].
  exact (reachable_xpath_map 1 32 0 Example.name2id (fun _ => 10%nat)
           (fun _ => Ascii.zero) (xpath_static_map_reg (Some 0%nat) 1)
           st [] Hreach).
Defined.

(** X4: in every state the daemon reaches, the resolver returns 0 and, for
    every path, what the specification calls resolve: the union, with the
    capabilities OR-ed, of the subscribers of all patterns for the paths
    "/" and "/*", and of the patterns of the greatest positive match length
    for any other path. *)
Theorem reachable_resolve max nlen bit name2id psize bb reg st xpath out :
  reachable max nlen bit name2id psize bb reg st ->
  is_cstring xpath = true ->
  mgmt_be_get_subscr_info_for_xpath max bb (mgmt_xpath_map st) xpath
                                    (Some out)
  = (0, Some (Spec.resolve (eval_regexp_match bb) max (mgmt_xpath_map st)
                           xpath)).
Proof.
  intros Hreach Hc.
  destruct (reachable_ok2 max nlen bit name2id psize bb
              (mgmt_be_xpath_map_init max reg) reg st eq_refl Hreach)
    as (_ & _ & -> & _).
  unfold mgmt_be_get_subscr_info_for_xpath, get_subscr_info_for_xpath,
    get_subscr_info, Spec.resolve.
  destruct (root_xp xpath) eqn:Hroot.
  - apply (root_xp_iff xpath Hc) in Hroot.
    assert (String.eqb xpath "/" || String.eqb xpath "/*" = true) as ->
      by (by destruct Hroot as [-> | ->]).
    rewrite ResolverFacts.select_map_root. simpl.
    do 2 f_equal. apply ResolverFacts.copy_all_union.
    apply ResolverFacts.map_init_ok.
  - rewrite (not_root_xp_resolve xpath Hroot).
    rewrite ResolverFacts.select_map_kept. simpl.
    do 2 f_equal. apply ResolverFacts.copy_all_union.
    unfold Spec.kept_patterns.
    eapply List.incl_Forall; [apply List.incl_filter|].
    apply ResolverFacts.map_init_ok.
Qed.

Lemma reachable_resolve_witness :
  let st := Example.after [CallCreateAdapter 7 0] in
  (reachable 1 32 0 Example.name2id (fun _ => 10%nat) (fun _ => Ascii.zero)
             (xpath_static_map_reg (Some 0%nat) 1) st
   /\ is_cstring "/frr-interface:lib/interface[name='eth0']" = true)
  /\ mgmt_be_get_subscr_info_for_xpath 1 (fun _ => Ascii.zero)
       (mgmt_xpath_map st) "/frr-interface:lib/interface[name='eth0']"
       (Some [])
     = (0, Some (Spec.resolve (eval_regexp_match (fun _ => Ascii.zero)) 1
                              (mgmt_xpath_map st)
                              "/frr-interface:lib/interface[name='eth0']")).
Proof.
  intros st.
  assert (Hreach : reachable 1 32 0 Example.name2id (fun _ => 10%nat)
                     (fun _ => Ascii.zero)
                     (xpath_static_map_reg (Some 0%nat) 1) st).
  { apply (example_reachable [CallCreateAdapter 7 0]).
    vm_compute. reflexivity. }
  split; [split; [exact Hreach|reflexivity]|].
  exact (reachable_resolve 1 32 0 Example.name2id (fun _ => 10%nat)
           (fun _ => Ascii.zero) (xpath_static_map_reg (Some 0%nat) 1)
           st "/frr-interface:lib/interface[name='eth0']" [] Hreach eq_refl).
Defined.

(** X5: in every state the daemon reaches, every registered adapter has
    its read event armed, and every adapter that is allocated but no longer
    registered has its descriptor closed. *)
Theorem registered_adapters_listen max nlen bit name2id psize bb reg st a ad :
  reachable max nlen bit name2id psize bb reg st ->
  heap st !! a = Some ad ->
  (a ∈ mgmt_be_adapters st -> conn_read_ev ad = true)
  /\ (a ∉ mgmt_be_adapters st -> conn_fd ad < 0).
Proof.
  intros Hreach Hl.
  pose proof (reachable_listening max nlen bit name2id psize bb reg st Hreach
                a ad Hl) as Hlis.
  split; intros Ha.
  - by rewrite bool_decide_eq_true_2 in Hlis.
  - by rewrite bool_decide_eq_false_2 in Hlis.
Qed.

Lemma registered_adapters_listen_witness :
  let st := Example.after [CallCreateAdapter 7 0; CallLock 0%nat;
                           CallCreateAdapter 9 0;
                           FireConnRead 0%nat MSR_DISCONNECT;
                           FireConnRead 1%nat MSR_SCHED_BOTH] in
  (reachable 1 32 0 Example.name2id (fun _ => 10%nat) (fun _ => Ascii.zero)
             (xpath_static_map_reg (Some 0%nat) 1) st
   /\ exists ad, heap st !! 0%nat = Some ad)
  /\ mgmt_be_adapters st = [1%nat]
  /\ (forall ad, heap st !! 1%nat = Some ad -> conn_read_ev ad = true)
  /\ (forall ad, heap st !! 0%nat = Some ad -> conn_fd ad < 0).
Proof.
  intros st.
  assert (Hreach : reachable 1 32 0 Example.name2id (fun _ => 10%nat)
                     (fun _ => Ascii.zero)
                     (xpath_static_map_reg (Some 0%nat) 1) st).
  { apply (example_reachable
             [CallCreateAdapter 7 0; CallLock 0%nat; CallCreateAdapter 9 0;
              FireConnRead 0%nat MSR_DISCONNECT;
              FireConnRead 1%nat MSR_SCHED_BOTH]).
    vm_compute. reflexivity. }
  assert (Hreg : mgmt_be_adapters st = [1%nat]) by (vm_compute; reflexivity).
  split; [split; [exact Hreach|eexists; vm_compute; reflexivity]|].
  split; [exact Hreg|]. split.
  - intros ad Hl.
    apply (proj1 (registered_adapters_listen 1 32 0 Example.name2id
                    (fun _ => 10%nat) (fun _ => Ascii.zero)
                    (xpath_static_map_reg (Some 0%nat) 1) st 1%nat ad
                    Hreach Hl)).
    rewrite Hreg. by left.
  - intros ad Hl.
    apply (proj2 (registered_adapters_listen 1 32 0 Example.name2id
                    (fun _ => 10%nat) (fun _ => Ascii.zero)
                    (xpath_static_map_reg (Some 0%nat) 1) st 0%nat ad
                    Hreach Hl)).
    rewrite Hreg. intros Hin. apply list_elem_of_singleton in Hin. done.
Defined.

(** * Looking adapters up *)

Lemma find_by_skip test l l' st :
  (forall b, b ∈ l -> exists bd, heap st !! b = Some bd /\ test bd = false) ->
  find_by test (l ++ l') st = find_by test l' st.
Proof.
  induction l as [|b l IH]; intros Hall; simpl; [done|].
  destruct (Hall b) as (bd & Hb & Ht); [by left|].
  unfold bind. rewrite (load_run b bd st Hb), Ht.
  apply IH. intros c Hc. apply Hall. by right.
Qed.

(** X6: for a descriptor that no registered adapter has,
    [mgmt_be_create_adapter] allocates an adapter at a new address, with
    the descriptor, no client id, the name "Unknown-FD-<fd>", one reference
    and its read and [CONN_INIT] events armed, and links it at the tail of
    the registry, where [mgmt_be_find_adapter_by_fd] finds it; nothing else
    changes. *)
Theorem create_adapter_new_descriptor max nlen bit name2id psize bb reg st
    fd from :
  reachable max nlen bit name2id psize bb reg st ->
  (forall b bd, b ∈ mgmt_be_adapters st -> heap st !! b = Some bd ->
                conn_fd bd <> fd) ->
  let a := next_addr st in
  let st' := created_state max nlen fd from st in
  heap st !! a = None
  /\ mgmt_be_create_adapter max nlen fd from st = Ok (a, st')
  /\ heap st' !! a = Some (new_adapter max nlen fd from)
  /\ mgmt_be_adapters st' = mgmt_be_adapters st ++ [a]
  /\ (forall b, b <> a -> heap st' !! b = heap st !! b)
  /\ mgmt_be_find_adapter_by_fd fd st' = Ok (Some a, st').
Proof.
  intros Hreach Hno a st'.
  pose proof (reachable_ok _ _ _ _ _ _ reg st Hreach) as Hok.
  assert (Hfresh : heap st !! a = None).
  { destruct (heap st !! a) as [ad|] eqn:Hl; [|done].
    assert (a < next_addr st)%nat by (apply (ok_allocated _ _ Hok); eauto).
    unfold a in *. lia. }
  split; [done|].
  split; [by apply (create_adapter_new max nlen bit)|].
  split; [apply lookup_insert_eq|]. split; [done|].
  split; [intros b Hb; by apply lookup_insert_ne|].
  unfold mgmt_be_find_adapter_by_fd, bind, gets. cbn [mgmt_be_adapters st' created_state].
  rewrite find_by_skip.
  - simpl. unfold bind. erewrite load_run; [|apply lookup_insert_eq].
    cbn [conn_fd new_adapter]. by rewrite Z.eqb_refl.
  - intros b Hb. destruct (ok_registered _ _ Hok b Hb) as [bd Hbd].
    exists bd. cbn [heap st' created_state]. split.
    + rewrite lookup_insert_ne; [done|]. intros <-. unfold a in Hfresh.
      congruence.
    + apply Z.eqb_neq. by apply (Hno b bd).
Qed.

Lemma create_adapter_new_descriptor_witness :
  let st := Example.after [CallCreateAdapter 7 0] in
  (reachable 1 32 0 Example.name2id (fun _ => 10%nat) (fun _ => Ascii.zero)
             (xpath_static_map_reg (Some 0%nat) 1) st
   /\ forall b bd, b ∈ mgmt_be_adapters st -> heap st !! b = Some bd ->
                   conn_fd bd <> 9)
  /\ mgmt_be_create_adapter 1 32 9 0 st
     = Ok (1%nat, created_state 1 32 9 0 st)
  /\ name (new_adapter 1 32 9 0) = "Unknown-FD-9".
Proof.
  intros st.
  assert (Hreach : reachable 1 32 0 Example.name2id (fun _ => 10%nat)
                     (fun _ => Ascii.zero)
                     (xpath_static_map_reg (Some 0%nat) 1) st).
  { apply (example_reachable [CallCreateAdapter 7 0]).
    vm_compute. reflexivity. }
  assert (Hno : forall b bd, b ∈ mgmt_be_adapters st ->
            heap st !! b = Some bd -> conn_fd bd <> 9).
  { intros b bd Hb. apply list_elem_of_singleton in Hb as ->.
    intros [= <-]. done. }
  split; [done|]. split; [|reflexivity].
  exact (proj1 (proj2 (create_adapter_new_descriptor 1 32 0 Example.name2id
                         (fun _ => 10%nat) (fun _ => Ascii.zero)
                         (xpath_static_map_reg (Some 0%nat) 1)
                         st 9 0 Hreach Hno))).
Defined.

(** X7: in every state the daemon reaches, the lookups of the registry read
    allocated adapters only and leave the state:
    [mgmt_be_find_adapter_by_fd] returns the one registered adapter that
    has the descriptor, and NULL when there is none;
    [mgmt_be_get_adapter_by_name] returns a registered adapter whose name
    agrees with the given one in its first [sizeof (name)] bytes, and NULL
    when there is none. *)
Theorem registry_lookups max nlen bit name2id psize bb reg st fd nm :
  reachable max nlen bit name2id psize bb reg st ->
  (exists r,
     mgmt_be_find_adapter_by_fd fd st = Ok (r, st)
     /\ match r with
        | Some a =>
            forall b bd, b ∈ mgmt_be_adapters st -> heap st !! b = Some bd ->
                         (conn_fd bd = fd <-> b = a)
        | None =>
            forall b bd, b ∈ mgmt_be_adapters st -> heap st !! b = Some bd ->
                         conn_fd bd <> fd
        end
     /\ forall a, r = Some a -> a ∈ mgmt_be_adapters st)
  /\ (exists r,
        mgmt_be_get_adapter_by_name nlen nm st = Ok (r, st)
        /\ match r with
           | Some a =>
               a ∈ mgmt_be_adapters st
               /\ exists ad, heap st !! a = Some ad
                             /\ strncmp_eq (name ad) nm nlen = true
           | None =>
               forall b bd, b ∈ mgmt_be_adapters st ->
                            heap st !! b = Some bd ->
                            strncmp_eq (name bd) nm nlen = false
           end).
Proof.
  intros Hreach.
  pose proof (reachable_ok _ _ _ _ _ _ reg st Hreach) as Hok. split.
  - destruct (find_by_total (fun ad => conn_fd ad =? fd)
                (mgmt_be_adapters st) st (ok_registered _ _ Hok)) as [r Hr].
    exists r. split; [exact Hr|].
    apply find_by_Ok in Hr as [_ Hr]. destruct r as [a|].
    + destruct Hr as [Ha (ad & Hl & Ht)]. apply Z.eqb_eq in Ht.
      split; [|by intros ? [= <-]].
      intros b bd Hb Hbd. split.
      * intros Hfd. apply (ok_fd _ _ Hok b a bd ad); congruence.
      * intros ->. congruence.
    + split; [|done]. intros b bd Hb Hbd. apply Z.eqb_neq.
      by apply (Hr b bd).
  - destruct (find_by_total (fun ad => strncmp_eq (name ad) nm nlen)
                (mgmt_be_adapters st) st (ok_registered _ _ Hok)) as [r Hr].
    exists r. split; [exact Hr|].
    apply find_by_Ok in Hr as [_ Hr]. by destruct r.
Qed.

Lemma registry_lookups_witness :
  let st := Example.after [CallCreateAdapter 7 0; CallCreateAdapter 9 0] in
  reachable 1 32 0 Example.name2id (fun _ => 10%nat) (fun _ => Ascii.zero)
            (xpath_static_map_reg (Some 0%nat) 1) st
  /\ mgmt_be_find_adapter_by_fd 9 st = Ok (Some 1%nat, st)
  /\ mgmt_be_get_adapter_by_name 32 "Unknown-FD-7" st = Ok (Some 0%nat, st)
  /\ mgmt_be_find_adapter_by_fd 8 st = Ok (None, st).
Proof.
  intros st.
  assert (Hreach : reachable 1 32 0 Example.name2id (fun _ => 10%nat)
                     (fun _ => Ascii.zero)
                     (xpath_static_map_reg (Some 0%nat) 1) st).
  { apply (example_reachable [CallCreateAdapter 7 0; CallCreateAdapter 9 0]).
    vm_compute. reflexivity. }
  split; [exact Hreach|].
  destruct (registry_lookups 1 32 0 Example.name2id (fun _ => 10%nat)
              (fun _ => Ascii.zero) (xpath_static_map_reg (Some 0%nat) 1)
              st 9 "Unknown-FD-7" Hreach) as [(r & Hr & _) (r' & Hr' & _)].
  split; [|split].
  - rewrite Hr. vm_compute in Hr. by injection Hr as <-.
  - rewrite Hr'. vm_compute in Hr'. by injection Hr' as <-.
  - vm_compute. reflexivity.
Defined.

(** * Taking and dropping a reference *)

(** X8: on an adapter that is referenced, taking a reference with
    [mgmt_be_adapter_lock] and dropping it with [mgmt_be_adapter_unlock]
    leaves the state as it was; on an adapter with no reference the same
    pair frees the adapter. *)
Theorem lock_unlock_round_trip st a ad :
  heap st !! a = Some ad -> 0 <= refcount ad ->
  (mgmt_be_adapter_lock a ;;; mgmt_be_adapter_unlock a) st
  = Ok (tt, if refcount ad =? 0
            then set_heap (delete a (heap st))
                   (set_mgmt_be_adapters
                      (filter (fun p => p <> a) (mgmt_be_adapters st)) st)
            else st).
Proof.
  intros Hl Hrc. unfold bind, mgmt_be_adapter_lock.
  rewrite (update_run a _ ad st Hl).
  erewrite unlock_run; [|rewrite heap_set_heap; apply lookup_insert_eq].
  cbn [refcount set_refcount].
  destruct (Z.eqb_spec (refcount ad + 1) 0); [lia|].
  replace (refcount ad + 1 - 1) with (refcount ad) by lia.
  destruct (Z.eqb_spec (refcount ad) 0) as [Hz|Hnz].
  - do 2 f_equal. unfold set_heap, set_mgmt_be_adapters. cbn.
    by rewrite delete_insert_eq.
  - do 2 f_equal. rewrite set_heap_twice, heap_set_heap, insert_insert_eq.
    destruct st, ad. unfold set_heap, set_refcount. cbn in *.
    f_equal. by apply insert_id.
Qed.

Lemma lock_unlock_round_trip_witness :
  let st := Example.after [CallCreateAdapter 7 0] in
  exists ad,
    (heap st !! 0%nat = Some ad /\ 0 <= refcount ad)
    /\ (mgmt_be_adapter_lock 0%nat ;;; mgmt_be_adapter_unlock 0%nat) st
       = Ok (tt, st).
Proof.
  intros st. exists (new_adapter 1 32 7 0).
  assert (Hl : heap st !! 0%nat = Some (new_adapter 1 32 7 0))
    by (vm_compute; reflexivity).
  assert (Hrc : 0 <= refcount (new_adapter 1 32 7 0)) by done.
  split; [done|].
  exact (lock_unlock_round_trip st 0%nat (new_adapter 1 32 7 0) Hl Hrc).
Defined.

(** * Dropping the references of the registry *)

Lemma filter_ext_elem {A} (P Q : A -> Prop) `{!forall x, Decision (P x)}
    `{!forall x, Decision (Q x)} (l : list A) :
  (forall x, x ∈ l -> P x <-> Q x) -> filter P l = filter Q l.
Proof.
  induction l as [|x l IH]; intros Hext; [done|].
  rewrite !filter_cons. rewrite IH by (intros y Hy; apply Hext; by right).
  destruct (decide (P x)) as [HP|HP], (decide (Q x)) as [HQ|HQ]; try done;
    exfalso; [apply HQ|apply HP]; by apply (Hext x); [left|].
Qed.

Lemma filter_all {A} (P : A -> Prop) `{!forall x, Decision (P x)} (l : list A) :
  (forall x, x ∈ l -> P x) -> filter P l = l.
Proof.
  induction l as [|x l IH]; intros Hall; [done|].
  rewrite filter_cons, decide_True by (apply Hall; by left).
  rewrite IH; [done|]. intros y Hy. apply Hall. by right.
Qed.

(** The unlock of one adapter, for the others. *)
Lemma unlock_referenced st a ad :
  heap st !! a = Some ad -> 0 < refcount ad ->
  exists st',
    mgmt_be_adapter_unlock a st = Ok (tt, st')
    /\ heap st' !! a = unlocked ad
    /\ (forall b, b <> a -> heap st' !! b = heap st !! b)
    /\ mgmt_be_adapters st'
       = filter (fun b => ~ (b = a /\ refcount ad = 1)) (mgmt_be_adapters st)
    /\ next_addr st' = next_addr st
    /\ mgmt_be_adapters_by_id st' = mgmt_be_adapters_by_id st
    /\ mgmt_xpath_map st' = mgmt_xpath_map st
    /\ mgmt_be_adapter_tm st' = mgmt_be_adapter_tm st
    /\ txn_log st' = txn_log st
    /\ ds_iter_log st' = ds_iter_log st.
Proof.
  intros Hl Hrc. rewrite (unlock_run st a ad Hl).
  destruct (Z.eqb_spec (refcount ad) 0); [lia|].
  eexists. split; [done|]. unfold unlocked.
  destruct (Z.eqb_spec (refcount ad - 1) 0) as [Hz|Hnz],
    (Z.eqb_spec (refcount ad) 1) as [H1|H1]; try lia; cbn.
  - split; [apply lookup_delete_eq|].
    split; [intros b Hb; by apply lookup_delete_ne|].
    split; [|done]. apply filter_ext_elem. intros b _. tauto.
  - split; [apply lookup_insert_eq|].
    split; [intros b Hb; by apply lookup_insert_ne|].
    split; [|done]. symmetry. apply filter_all. intros b _. tauto.
Qed.

Lemma for_each_unlock l st :
  NoDup l ->
  (forall a, a ∈ l -> exists ad, heap st !! a = Some ad /\ 0 < refcount ad) ->
  exists st',
    for_each l mgmt_be_adapter_unlock st = Ok (tt, st')
    /\ (forall a, heap st' !! a
                  = if bool_decide (a ∈ l) then heap st !! a ≫= unlocked
                    else heap st !! a)
    /\ mgmt_be_adapters st'
       = filter (fun a => ~ (a ∈ l /\ last_reference st a = true))
                (mgmt_be_adapters st)
    /\ next_addr st' = next_addr st
    /\ mgmt_be_adapters_by_id st' = mgmt_be_adapters_by_id st
    /\ mgmt_xpath_map st' = mgmt_xpath_map st
    /\ mgmt_be_adapter_tm st' = mgmt_be_adapter_tm st
    /\ txn_log st' = txn_log st
    /\ ds_iter_log st' = ds_iter_log st.
Proof.
  intros Hnd. revert st. induction Hnd as [|a l Ha Hnd IH]; intros st Hall.
  - exists st. split; [done|]. split; [done|]. split; [|done].
    symmetry. apply filter_all. intros x _ [Hx _]. by apply elem_of_nil in Hx.
  - destruct (Hall a) as (ad & Hl & Hrc); [by left|].
    destruct (unlock_referenced st a ad Hl Hrc)
      as (st1 & Hrun & Hha & Hhb & Hreg & Hn & Hid & Hm & Ht & Htx & Hds).
    destruct (IH st1)
      as (st' & Hrun' & Hh' & Hreg' & Hn' & Hid' & Hm' & Ht' & Htx' & Hds').
    { intros b Hb. rewrite Hhb by (intros ->; done). apply Hall. by right. }
    exists st'. split.
    { simpl. unfold bind. by rewrite Hrun. }
    split; [|split; [|by rewrite Hn', Hid', Hm', Ht', Htx', Hds']].
    + intros x. rewrite Hh'. destruct (decide (x = a)) as [->|Hne].
      * rewrite (bool_decide_eq_false_2 (a ∈ l)) by done.
        rewrite (bool_decide_eq_true_2 (a ∈ a :: l)) by left.
        by rewrite Hha, Hl.
      * rewrite Hhb by done.
        destruct (decide (x ∈ l)) as [Hin|Hout].
        -- rewrite !bool_decide_eq_true_2; [done|by right|done].
        -- rewrite !bool_decide_eq_false_2; [done| |done].
           intros Hin. apply elem_of_cons in Hin as [?|?]; done.
    + rewrite Hreg', Hreg, list_filter_filter. apply filter_ext_elem.
      intros x _. unfold last_reference.
      destruct (decide (x = a)) as [->|Hne].
      * rewrite Hha, Hl. unfold unlocked.
        destruct (Z.eqb_spec (refcount ad) 1) as [H1|H1].
        -- split; [intros [_ Hno]; exfalso; by apply Hno|].
           intros Hno. exfalso. apply Hno. split; [by left|done].
        -- split; [|intros _; split; [by intros [? _]|by intros [_ ?]]].
           intros _ [_ Hx]. done.
      * rewrite Hhb by done. split.
        -- intros [Hno _] [Hin Hlast]. apply Hno. split; [|done].
           apply elem_of_cons in Hin as [?|?]; done.
        -- intros Hno. split; [|by intros [? _]].
           intros [Hin Hlast]. apply Hno. split; [by right|done].
Qed.

(** X9: [mgmt_be_adapter_destroy], in any state the daemon reaches, drops
    one reference of every registered adapter and runs to its end: an
    adapter that held its last reference is freed and unlinked, any other
    one stays registered with one reference less; adapters outside the
    registry, the by-id index and the record of the calls into the
    transaction module are left as they are. *)
Theorem destroy_drops_references max nlen bit name2id psize bb reg st :
  reachable max nlen bit name2id psize bb reg st ->
  exists st',
    mgmt_be_adapter_destroy st = Ok (tt, st')
    /\ (forall a, heap st' !! a
                  = if bool_decide (a ∈ mgmt_be_adapters st)
                    then heap st !! a ≫= unlocked
                    else heap st !! a)
    /\ mgmt_be_adapters st'
       = filter (fun a => last_reference st a = false) (mgmt_be_adapters st)
    /\ mgmt_be_adapters_by_id st' = mgmt_be_adapters_by_id st
    /\ txn_log st' = txn_log st.
Proof.
  intros Hreach.
  destruct (reachable_ok2 max nlen bit name2id psize bb
              (mgmt_be_xpath_map_init max reg) reg st eq_refl Hreach)
    as (Hrefs & Hnd & _).
  pose proof (reachable_ok _ _ _ _ _ _ reg st Hreach) as Hok.
  destruct (for_each_unlock (mgmt_be_adapters st) st Hnd)
    as (st' & Hrun & Hh & Hr & _ & Hid & _ & _ & Htx & _).
  { intros a Ha. destruct (ok_registered _ _ Hok a Ha) as [ad Hl].
    exists ad. split; [done|]. apply (Hrefs a ad Hl). }
  exists st'. split; [exact Hrun|]. split; [done|]. split; [|done].
  rewrite Hr. apply filter_ext_elem. intros a Ha.
  destruct (last_reference st a); split; try done.
  - intros Hno. exfalso. by apply Hno.
  - by intros _ [_ ?].
Qed.

Lemma destroy_drops_references_witness :
  let st := Example.after [CallCreateAdapter 7 0; CallCreateAdapter 9 0;
                           CallLock 1%nat] in
  reachable 1 32 0 Example.name2id (fun _ => 10%nat) (fun _ => Ascii.zero)
            (xpath_static_map_reg (Some 0%nat) 1) st
  /\ exists st',
       mgmt_be_adapter_destroy st = Ok (tt, st')
       /\ mgmt_be_adapters st' = [1%nat]
       /\ heap st' !! 0%nat = None
       /\ (refcount <$> heap st' !! 1%nat) = Some 1.
Proof.
  intros st.
  assert (Hreach : reachable 1 32 0 Example.name2id (fun _ => 10%nat)
                     (fun _ => Ascii.zero)
                     (xpath_static_map_reg (Some 0%nat) 1) st).
  { apply (example_reachable [CallCreateAdapter 7 0; CallCreateAdapter 9 0;
                              CallLock 1%nat]).
    vm_compute. reflexivity. }
  split; [exact Hreach|].
  destruct (destroy_drops_references 1 32 0 Example.name2id (fun _ => 10%nat)
              (fun _ => Ascii.zero) (xpath_static_map_reg (Some 0%nat) 1)
              st Hreach) as (st' & Hrun & Hh & Hr & _).
  exists st'. split; [exact Hrun|]. split; [rewrite Hr; vm_compute; reflexivity|].
  split; rewrite Hh; vm_compute; reflexivity.
Defined.

(** * Messages from the client *)

Lemma for_each_noop {A} (l : list A) (body : A -> M unit) st :
  (forall x, x ∈ l -> body x st = Ok (tt, st)) ->
  for_each l body st = Ok (tt, st).
Proof.
  induction l as [|x l IH]; intros Hall; simpl; [done|].
  unfold bind. rewrite (Hall x) by left. apply IH.
  intros y Hy. apply Hall. by right.
Qed.

Lemma set_txn_log_twice l2 l1 st :
  set_txn_log l2 (set_txn_log l1 st) = set_txn_log l2 st.
Proof. done. Qed.

Lemma set_txn_log_id st : set_txn_log (txn_log st) st = st.
Proof. by destruct st. Qed.

Section Messages.

Variable MGMTD_BE_CLIENT_ID_MAX : nat.
Variable MGMTD_CLIENT_NAME_MAX_LEN : nat.
Variable mgmt_be_client_name2id : string -> nat.

Local Abbreviation handle_msg :=
  (mgmt_be_adapter_handle_msg MGMTD_BE_CLIENT_ID_MAX
     MGMTD_CLIENT_NAME_MAX_LEN mgmt_be_client_name2id).

(** The last element of an array that has one. *)
Lemma element_last v array st :
  exists w,
    element (v :: array)
            ((Z.of_nat (List.length (v :: array)) - 1) mod 2 ^ 64) st
    = Ok (w, st).
Proof.
  unfold element. set (n := Z.of_nat (List.length (v :: array)) - 1).
  assert (Hn : 0 <= n) by (unfold n; cbn [List.length]; lia).
  pose proof (Z.mod_pos_bound n (2 ^ 64) ltac:(lia)) as [Hlo _].
  pose proof (Z.mod_le n (2 ^ 64) Hn ltac:(lia)) as Hle.
  destruct (Z.leb_spec 0 (n mod 2 ^ 64)); [|lia].
  destruct ((v :: array) !! Z.to_nat (n mod 2 ^ 64)) as [w|] eqn:Hw.
  - by exists w.
  - apply lookup_ge_None in Hw. unfold n in *. cbn [List.length] in *. lia.
Qed.

(** What the debug log of a [CFG_APPLY_REPLY] reads. *)
Lemma apply_reply_log a ad batch_ids st :
  heap st !! a = Some ad ->
  (load a ;;;
   element batch_ids 0 ;;;
   element batch_ids ((Z.of_nat (List.length batch_ids) - 1) mod 2 ^ 64) ;;;
   ret tt) st
  = match batch_ids with
    | [] => Fault OutOfBounds
    | _ :: _ => Ok (tt, st)
    end.
Proof.
  intros Hl. unfold bind at 1. rewrite (load_run a ad st Hl).
  destruct batch_ids as [|v batch_ids]; [done|].
  unfold bind at 1. change (element (v :: batch_ids) 0 st) with (Ok (v, st)).
  unfold bind at 1. by destruct (element_last v batch_ids st) as [w ->].
Qed.

(** A frame that names no client: the replies are passed on, the rest is
    dropped; with the debug flag set, the log of a [CFG_APPLY_REPLY] without
    a batch id reads outside the array. *)
Lemma process_msg_forwards a ad frame st :
  heap st !! a = Some ad ->
  names_client frame = false ->
  mgmt_be_adapter_process_msg MGMTD_BE_CLIENT_ID_MAX
    MGMTD_CLIENT_NAME_MAX_LEN mgmt_be_client_name2id a frame st
  = if mgmt_debug_be st && no_batch_ids frame then Fault OutOfBounds
    else Ok (tt, set_txn_log (txn_log st ++ forwarded a frame) st).
Proof.
  intros Hl Hf.
  assert (Hlog : MGMTD_BE_ADAPTER_DBG (load a ;;; ret tt) st = Ok (tt, st)).
  { rewrite DBG_run. destruct (mgmt_debug_be st); [|done].
    unfold bind. by rewrite (load_run a ad st Hl). }
  destruct frame as [msg|]; cbn [mgmt_be_adapter_process_msg];
    [|by rewrite Hlog, andb_false_r, app_nil_r, set_txn_log_id].
  unfold bind at 1. rewrite Hlog. unfold mgmt_be_adapter_handle_msg.
  destruct msg as [client_name ? ?| | | | | | |? ? batch_ids ?| | | | | | | |];
    cbn [forwarded no_batch_ids]; rewrite ?andb_false_r;
    try (unfold bind, ret; by rewrite app_nil_r, set_txn_log_id);
    try (unfold bind at 1; unfold bind at 1; unfold bind at 1;
         by rewrite Hlog).
  - cbn [names_client] in Hf. rewrite Hf. unfold bind, ret.
    by rewrite app_nil_r, set_txn_log_id.
  - unfold bind at 1. unfold bind at 1. unfold bind at 1. rewrite DBG_run.
    destruct (mgmt_debug_be st); cbn [andb]; [|by destruct batch_ids].
    rewrite (apply_reply_log a ad batch_ids st Hl). by destruct batch_ids.
Qed.

Lemma for_each_forwards a ad frames st :
  heap st !! a = Some ad ->
  Forall (fun frame => names_client frame = false) frames ->
  for_each frames
    (mgmt_be_adapter_process_msg MGMTD_BE_CLIENT_ID_MAX
       MGMTD_CLIENT_NAME_MAX_LEN mgmt_be_client_name2id a) st
  = if mgmt_debug_be st && existsb no_batch_ids frames
    then Fault OutOfBounds
    else Ok (tt, set_txn_log
                   (txn_log st ++ List.concat (forwarded a <$> frames)) st).
Proof.
  intros Hl Hall. revert st Hl.
  induction Hall as [|frame frames Hf Hall IH]; intros st Hl; simpl.
  - by rewrite andb_false_r, app_nil_r, set_txn_log_id.
  - unfold bind. rewrite (process_msg_forwards a ad) by done.
    destruct (mgmt_debug_be st) eqn:Hd, (no_batch_ids frame); cbn [andb orb];
      try done; rewrite IH by done; cbn [mgmt_debug_be set_txn_log];
      rewrite Hd; cbn [andb];
      try destruct (existsb no_batch_ids frames); try done;
      rewrite set_txn_log_twice; cbn [txn_log set_txn_log];
      by rewrite app_assoc.
Qed.

End Messages.

(** X10: the frames that [mgmt_be_adapter_proc_msgbufs] finds buffered are
    handled in their order: each [TXN_REPLY], [CFG_DATA_REPLY] and
    [CFG_APPLY_REPLY] is passed on to the transaction module once, with its
    fields and the adapter; a frame that does not decode and a message of
    any other kind are dropped; [PROC_MSG] is armed again exactly when
    frames remain; as long as no frame is a [SUBSCR_REQ] that names a
    client, nothing else changes. With the debug flag set, a
    [CFG_APPLY_REPLY] without a batch id among the frames ends the run
    instead: its log reads [batch_ids[0]] of an array that has no
    element. *)
Theorem proc_msgbufs_forwards max nlen name2id a ad frames more st :
  heap st !! a = Some ad ->
  Forall (fun frame => names_client frame = false) frames ->
  mgmt_be_adapter_proc_msgbufs max nlen name2id a frames more st
  = if mgmt_debug_be st && existsb no_batch_ids frames
    then Fault OutOfBounds
    else Ok (tt,
             set_heap (if more then <[a := set_proc_msg_ev true ad]> (heap st)
                       else heap st)
               (set_txn_log
                  (txn_log st ++ List.concat (forwarded a <$> frames)) st)).
Proof.
  intros Hl Hall. unfold mgmt_be_adapter_proc_msgbufs, mgmt_msg_procbufs.
  unfold bind at 1. unfold bind at 1. rewrite (load_run a ad st Hl).
  unfold bind at 1. rewrite (for_each_forwards max nlen name2id a ad) by done.
  destruct (mgmt_debug_be st && existsb no_batch_ids frames); [done|].
  unfold ret at 1. destruct more.
  - cbn [mgmt_be_adapter_register_event].
    by erewrite update_run by exact Hl.
  - done.
Qed.

Lemma proc_msgbufs_forwards_witness :
  let st := Example.after [CallCreateAdapter 7 0] in
  let frames := [Some (TXN_REPLY 5 true true); None; Some GET_REPLY;
                 Some (CFG_DATA_REPLY 5 1 true None);
                 Some (SUBSCR_REQ "" true []);
                 Some (CFG_APPLY_REPLY 5 true [1] None)] in
  let empty := [Some (TXN_REPLY 5 true true);
                Some (CFG_APPLY_REPLY 5 true [] None)] in
  exists ad,
    (heap st !! 0%nat = Some ad
     /\ Forall (fun frame => names_client frame = false) frames
     /\ Forall (fun frame => names_client frame = false) empty)
    /\ txn_log (Example.state_of
                  (mgmt_be_adapter_proc_msgbufs 1 32 Example.name2id 0%nat
                     frames false (set_mgmt_debug_be true st)))
       = [txn_notify_be_txn_reply 5 true true 0%nat;
          txn_notify_be_cfgdata_reply 5 1 true None 0%nat;
          txn_notify_be_cfg_apply_reply 5 true [1] None 0%nat]
    /\ mgmt_be_adapter_proc_msgbufs 1 32 Example.name2id 0%nat empty false st
       = Ok (tt, set_txn_log
                   [txn_notify_be_txn_reply 5 true true 0%nat;
                    txn_notify_be_cfg_apply_reply 5 true [] None 0%nat] st)
    /\ mgmt_be_adapter_proc_msgbufs 1 32 Example.name2id 0%nat empty false
                                    (set_mgmt_debug_be true st)
       = Fault OutOfBounds.
Proof.
  intros st frames empty. exists (new_adapter 1 32 7 0).
  assert (Hl : heap st !! 0%nat = Some (new_adapter 1 32 7 0))
    by (vm_compute; reflexivity).
  assert (Hall : Forall (fun frame => names_client frame = false) frames)
    by (by repeat constructor).
  assert (Hemp : Forall (fun frame => names_client frame = false) empty)
    by (by repeat constructor).
  split; [done|].
  rewrite (proc_msgbufs_forwards 1 32 Example.name2id 0%nat _ frames false
             (set_mgmt_debug_be true st) Hl Hall).
  rewrite (proc_msgbufs_forwards 1 32 Example.name2id 0%nat _ empty false
             st Hl Hemp).
  rewrite (proc_msgbufs_forwards 1 32 Example.name2id 0%nat _ empty false
             (set_mgmt_debug_be true st) Hl Hemp).
  split; [reflexivity|]. split; reflexivity.
Defined.

(** X11: a [SUBSCR_REQ] that names a known client, on an allocated adapter
    and with no other registered adapter of this name, gives the adapter
    the name, cut to [sizeof (name)], and the id of the client, and enters
    it in the by-id index, where [mgmt_be_get_adapter_by_id] then finds it;
    the handler returns 0 and nothing else changes. A [SUBSCR_REQ] with an
    empty client name changes nothing. *)
Theorem subscr_req_known_client max nlen bit name2id psize bb reg st a ad
    client_name subscribe xpaths :
  reachable max nlen bit name2id psize bb reg st ->
  heap st !! a = Some ad ->
  let nm := strlcpy client_name nlen in
  let i := name2id nm in
  let st' := set_mgmt_be_adapters_by_id (<[i := a]> (mgmt_be_adapters_by_id st))
               (set_heap (<[a := set_id i (set_name nm ad)]> (heap st)) st) in
  (strlen client_name = 0 ->
   mgmt_be_adapter_handle_msg max nlen name2id a
     (SUBSCR_REQ client_name subscribe xpaths) st = Ok (0, st))
  /\ (strlen client_name <> 0 -> (i < max)%nat ->
      (forall b bd, b ∈ mgmt_be_adapters st -> b <> a ->
                    heap st !! b = Some bd ->
                    strncmp_eq nm (name bd) nlen = false) ->
      mgmt_be_adapter_handle_msg max nlen name2id a
        (SUBSCR_REQ client_name subscribe xpaths) st = Ok (0, st')
      /\ mgmt_be_get_adapter_by_id max i st' = Ok (Some a, st')).
Proof.
  intros Hreach Hl nm i st'.
  pose proof (reachable_ok _ _ _ _ _ _ reg st Hreach) as Hok.
  unfold mgmt_be_adapter_handle_msg. split.
  - intros ->. done.
  - intros Hlen Hi Hother.
    destruct (Z.eqb_spec (strlen client_name) 0); [done|]. cbn [negb].
    split.
    + unfold bind at 1. unfold bind at 1.
      rewrite (update_run a _ ad st Hl).
      unfold bind at 1. erewrite update_run;
        [|rewrite heap_set_heap; apply lookup_insert_eq].
      rewrite set_heap_twice, heap_set_heap, insert_insert_eq.
      cbn [name set_name]. fold nm. fold i.
      unfold bind at 1. erewrite load_run;
        [|rewrite heap_set_heap; apply lookup_insert_eq].
      cbn [id set_id].
      destruct (Nat.leb_spec max i); [lia|].
      unfold bind at 1. unfold ret at 1.
      unfold bind at 1. erewrite load_run;
        [|rewrite heap_set_heap; apply lookup_insert_eq].
      cbn [id set_id]. unfold bind at 1, by_id_store.
      destruct (Nat.ltb_spec i max); [|lia]. unfold modify_state.
      fold st'.
      unfold mgmt_be_adapter_cleanup_old_conn, FOREACH_ADAPTER_IN_LIST.
      unfold bind at 1, gets. rewrite for_each_noop; [done|].
      intros old Hold. destruct (Nat.eqb_spec old a) as [->|Hne]; [done|].
      cbn [negb]. unfold bind.
      erewrite load_run; [|apply lookup_insert_eq].
      destruct (ok_registered _ _ Hok old Hold) as [od Hod].
      erewrite load_run;
        [|cbn [heap st' set_mgmt_be_adapters_by_id set_heap];
          rewrite lookup_insert_ne by done; exact Hod].
      cbn [name set_id set_name].
      by rewrite (Hother old od Hold Hne Hod).
    + unfold mgmt_be_get_adapter_by_id.
      destruct (Nat.ltb_spec i max); [|lia]. unfold gets.
      cbn [mgmt_be_adapters_by_id st' set_mgmt_be_adapters_by_id].
      by rewrite lookup_insert_eq.
Qed.

Lemma subscr_req_known_client_witness :
  let st := Example.after [CallCreateAdapter 7 0; CallCreateAdapter 9 0] in
  reachable 1 32 0 Example.name2id (fun _ => 10%nat) (fun _ => Ascii.zero)
            (xpath_static_map_reg (Some 0%nat) 1) st
  /\ exists st',
       mgmt_be_adapter_handle_msg 1 32 Example.name2id 1%nat
         (SUBSCR_REQ "staticd" true []) st = Ok (0, st')
       /\ mgmt_be_get_adapter_by_id 1 0 st' = Ok (Some 1%nat, st')
       /\ (name <$> heap st' !! 1%nat) = Some "staticd".
Proof.
  intros st.
  assert (Hreach : reachable 1 32 0 Example.name2id (fun _ => 10%nat)
                     (fun _ => Ascii.zero)
                     (xpath_static_map_reg (Some 0%nat) 1) st).
  { apply (example_reachable [CallCreateAdapter 7 0; CallCreateAdapter 9 0]).
    vm_compute. reflexivity. }
  split; [exact Hreach|].
  assert (Hl : heap st !! 1%nat = Some (new_adapter 1 32 9 0))
    by (vm_compute; reflexivity).
  destruct (proj2 (subscr_req_known_client 1 32 0 Example.name2id
                     (fun _ => 10%nat) (fun _ => Ascii.zero)
                     (xpath_static_map_reg (Some 0%nat) 1) st 1%nat _
                     "staticd" true [] Hreach Hl)) as [Hrun Hget].
  - intros H; vm_compute in H; discriminate H.
  - vm_compute. lia.
  - intros b bd Hb Hne Hbd.
    assert (b = 0%nat) as ->.
    { change (mgmt_be_adapters st) with [0%nat; 1%nat] in Hb.
      apply elem_of_cons in Hb as [->|Hb]; [reflexivity|].
      apply list_elem_of_singleton in Hb. exfalso. exact (Hne Hb). }
    vm_compute in Hbd. injection Hbd as <-. vm_compute. reflexivity.
  - eexists. split; [exact Hrun|]. split; [exact Hget|].
    vm_compute. reflexivity.
Defined.

(** X12: a disconnect that leaves the adapter referenced closes the
    descriptor and takes the client id away, but cancels none of the events
    of the adapter; the [CONN_INIT] and the [WRITES_ON] handler, when they
    run on such an adapter, fail their assertion that the descriptor is
    open. *)
Theorem disconnect_keeps_events max bit st a ad :
  heap st !! a = Some ad -> 1 < refcount ad ->
  exists st' ad',
    mgmt_be_adapter_disconnect max a st = Ok (tt, st')
    /\ heap st' !! a = Some ad'
    /\ conn_fd ad' < 0 /\ (max <= id ad')%nat
    /\ (conn_init_ev ad', conn_read_ev ad', conn_write_ev ad',
        conn_writes_on ad', proc_msg_ev ad')
       = (conn_init_ev ad, conn_read_ev ad, conn_write_ev ad,
          conn_writes_on ad, proc_msg_ev ad)
    /\ (forall txn_in_progress conn_rv,
          mgmt_be_adapter_conn_init max a txn_in_progress conn_rv st'
          = Fault AssertionFailed)
    /\ mgmt_be_adapter_resume_writes bit a st' = Fault AssertionFailed.
Proof.
  intros Hl Hrc. rewrite (disconnect_run max st a ad Hl).
  destruct (Z.eqb_spec (refcount ad) 0); [lia|].
  exists (disconnect_state max a ad st), (disconnected max ad).
  assert (Hl' : heap (disconnect_state max a ad st) !! a
                = Some (disconnected max ad)).
  { unfold disconnect_state. cbn [heap].
    destruct (Z.eqb_spec (refcount ad - 1) 0); [lia|]. apply lookup_insert_eq. }
  destruct (disconnected_closed max ad) as (Hfd & Hid & _).
  split; [done|]. split; [done|]. split; [done|]. split; [done|].
  split.
  { unfold disconnected.
    by destruct (0 <=? conn_fd ad), (id _ <? max)%nat. }
  split.
  - intros txn_in_progress conn_rv. unfold mgmt_be_adapter_conn_init, bind.
    rewrite (load_run a _ _ Hl').
    by destruct (Z.leb_spec 0 (conn_fd (disconnected max ad))); [lia|].
  - unfold mgmt_be_adapter_resume_writes, bind.
    rewrite (load_run a _ _ Hl').
    by destruct (Z.leb_spec 0 (conn_fd (disconnected max ad))); [lia|].
Qed.

Lemma disconnect_keeps_events_witness :
  let st := Example.after [CallCreateAdapter 7 0; CallLock 0%nat] in
  let st' := Example.state_of (mgmt_be_adapter_disconnect 1 0%nat st) in
  exists ad,
    (heap st !! 0%nat = Some ad /\ 1 < refcount ad)
    /\ mgmt_be_adapter_disconnect 1 0%nat st = Ok (tt, st')
    /\ armed st' 0%nat conn_init_ev
    /\ run 1 32 0 Example.name2id (fun _ => 10%nat) (fun _ => Ascii.zero)
           (FireConnInit 0%nat false 0) st'
       = Fault AssertionFailed.
Proof.
  intros st st'. exists (set_refcount 2 (new_adapter 1 32 7 0)).
  assert (Hl : heap st !! 0%nat = Some (set_refcount 2 (new_adapter 1 32 7 0)))
    by (vm_compute; reflexivity).
  assert (Hrc : 1 < refcount (set_refcount 2 (new_adapter 1 32 7 0))) by done.
  split; [done|].
  destruct (disconnect_keeps_events 1 0 st 0%nat _ Hl Hrc)
    as (st1 & ad1 & Hrun & Hl1 & _ & _ & Hev & _).
  split; [rewrite Hrun; unfold st'; by rewrite Hrun|].
  split; [|vm_compute; reflexivity].
  unfold st'. rewrite Hrun. cbn [Example.state_of].
  exists ad1. split; [done|]. by injection Hev as -> _ _ _ _.
Defined.

(** * The bytes in front of the strings *)

Module MatcherBefore.
Import Matcher MatcherFacts.

Lemma char_at_before b b' s i : 0 <= i -> char_at b s i = char_at b' s i.
Proof. intros Hi. unfold char_at. by destruct (Z.ltb_spec i 0); [lia|]. Qed.

Section Before.

Variables (rb xb rb' xb' : ascii) (re xp : string).
Variables (rexp_len xpath_len : Z).

(** Once both indices have left the first character, the loop reads the
    strings at indices that are not negative. *)
Lemma body_before s :
  1 <= re_indx s -> 1 <= xp_indx s ->
  loop_body rb xb re xp rexp_len xpath_len s
  = loop_body rb' xb' re xp rexp_len xpath_len s
  /\ 1 <= re_indx (loop_body rb xb re xp rexp_len xpath_len s)
  /\ 1 <= xp_indx (loop_body rb xb re xp rexp_len xpath_len s).
Proof.
  intros Hr Hx. unfold loop_body.
  assert (H1 : compare_chars rb xb re xp s = compare_chars rb' xb' re xp s).
  { unfold compare_chars.
    by rewrite (char_at_before rb rb' re), (char_at_before xb xb' xp) by lia. }
  rewrite <- H1.
  pose proof (compare_chars_keeps rb xb re xp s) as (C1 & C2 & _).
  set (s1 := compare_chars _ _ _ _ s) in *.
  assert (H2 : enter_wild rb xb re xp s1 = enter_wild rb' xb' re xp s1).
  { unfold enter_wild.
    by rewrite (char_at_before rb rb' re (re_indx s1)),
      (char_at_before xb xb' xp (xp_indx s1)),
      (char_at_before rb rb' re (re_indx s1 - 1)),
      (char_at_before xb xb' xp (xp_indx s1 - 1)) by lia. }
  rewrite <- H2.
  pose proof (enter_wild_keeps rb xb re xp s1) as (E1 & E2 & _).
  set (s2 := enter_wild _ _ _ _ s1) in *.
  assert (H3 : exit_wild rb xb re xp rexp_len xpath_len s2
               = exit_wild rb' xb' re xp rexp_len xpath_len s2).
  { unfold exit_wild.
    by rewrite (char_at_before rb rb' re (re_indx s2)),
      (char_at_before xb xb' xp (xp_indx s2)) by lia. }
  rewrite <- H3.
  pose proof (exit_wild_keeps rb xb re xp rexp_len xpath_len s2)
    as (X1 & X2 & _).
  set (s3 := exit_wild _ _ _ _ _ _ s2) in *.
  assert (H4 : count_and_advance rb xb re xp s3
               = count_and_advance rb' xb' re xp s3).
  { unfold count_and_advance, both_delim.
    by rewrite (char_at_before rb rb' re (re_indx s3)),
      (char_at_before xb xb' xp (xp_indx s3)) by lia. }
  split; [done|].
  unfold count_and_advance; simpl.
  destruct (re_wild s3), (xp_wild s3); lia.
Qed.

Lemma loop_before fuel s :
  1 <= re_indx s -> 1 <= xp_indx s ->
  loop rb xb re xp rexp_len xpath_len fuel s
  = loop rb' xb' re xp rexp_len xpath_len fuel s.
Proof.
  revert s. induction fuel as [|fuel IH]; intros s Hr Hx; simpl; [done|].
  destruct (loop_cond _ _ s); [|done].
  destruct (body_before s Hr Hx) as (Heq & Hr' & Hx').
  rewrite <- Heq. by apply IH.
Qed.

Hypothesis re_start : String.get 0 re <> Some "*"%char.
Hypothesis xp_start : String.get 0 xp <> Some "*"%char.

Lemma no_star b s : String.get 0 s <> Some "*"%char -> is_char (char_at b s 0) "*" = false.
Proof.
  intros Hs. unfold is_char, char_at.
  change (0 <? 0) with false. change (Z.to_nat 0) with 0%nat. cbv iota.
  destruct (String.get 0 s) as [c|] eqn:Hc.
  - destruct (Ascii.eqb_spec c "*"); [|done]. by subst.
  - done.
Qed.

(** The first iteration does not enter the wildcard matching. *)
Lemma enter_wild_no_star b b' s :
  re_indx s = 0 -> xp_indx s = 0 -> enter_wild b b' re xp s = s.
Proof.
  intros Hr Hx. unfold enter_wild. rewrite Hr, Hx.
  rewrite (no_star b re re_start), (no_star b' xp xp_start).
  by rewrite !andb_false_r.
Qed.

Lemma exit_wild_not_entered b b' s :
  enter_wild_match s = false -> exit_wild b b' re xp rexp_len xpath_len s = s.
Proof. intros He. unfold exit_wild. by rewrite He. Qed.

Lemma body_init :
  loop_body rb xb re xp rexp_len xpath_len init
  = loop_body rb' xb' re xp rexp_len xpath_len init
  /\ re_indx (loop_body rb xb re xp rexp_len xpath_len init) = 1
  /\ xp_indx (loop_body rb xb re xp rexp_len xpath_len init) = 1.
Proof.
  unfold loop_body.
  assert (H1 : compare_chars rb xb re xp init = compare_chars rb' xb' re xp init).
  { unfold compare_chars.
    by rewrite (char_at_before rb rb' re), (char_at_before xb xb' xp)
      by (cbn; lia). }
  rewrite <- H1. set (s1 := compare_chars rb xb re xp init).
  rewrite !enter_wild_no_star by done.
  rewrite !exit_wild_not_entered by done.
  unfold count_and_advance, both_delim.
  change (re_indx s1) with 0. change (xp_indx s1) with 0.
  change (re_wild s1) with false. change (xp_wild s1) with false.
  cbn [re_indx xp_indx].
  rewrite !(char_at_before rb rb' re 0), !(char_at_before xb xb' xp 0) by lia.
  done.
Qed.

Lemma loop_init fuel :
  loop rb xb re xp rexp_len xpath_len fuel init
  = loop rb' xb' re xp rexp_len xpath_len fuel init.
Proof.
  destruct fuel as [|fuel]; simpl; [done|].
  destruct (loop_cond _ _ init); [|done].
  destruct body_init as (Heq & Hr & Hx). rewrite <- Heq.
  apply loop_before; lia.
Qed.

End Before.

End MatcherBefore.

(** X13: when neither the pattern nor the path starts with the wildcard, the
    match length does not depend on the bytes that memory holds in front of
    the two strings: [xpath_regexp[-1]] and [xpath[-1]] are not read, or
    what is read makes no difference. *)
Theorem eval_regexp_match_before_bytes rb xb rb' xb' xpath_regexp xpath :
  String.get 0 xpath_regexp <> Some "*"%char ->
  String.get 0 xpath <> Some "*"%char ->
  mgmt_be_eval_regexp_match rb xb xpath_regexp xpath
  = mgmt_be_eval_regexp_match rb' xb' xpath_regexp xpath.
Proof.
  intros Hre Hxp. unfold mgmt_be_eval_regexp_match, Matcher.final.
  destruct (_ || _); [done|].
  rewrite (MatcherBefore.loop_init rb xb rb' xb') by done.
  unfold Matcher.finish.
  destruct (MatcherFacts.final_exits rb' xb' xpath_regexp xpath)
    as (_ & (Hr & _)).
  unfold Matcher.final in Hr.
  by rewrite !(MatcherBefore.char_at_before rb rb' xpath_regexp) by lia.
Qed.

Lemma eval_regexp_match_before_bytes_witness :
  (String.get 0 "/frr-vrf:lib/*" <> Some "*"%char
   /\ String.get 0 "/frr-vrf:lib/vrf[name='red']" <> Some "*"%char)
  /\ mgmt_be_eval_regexp_match "/" "'" "/frr-vrf:lib/*"
                               "/frr-vrf:lib/vrf[name='red']"
     = mgmt_be_eval_regexp_match "000" "000" "/frr-vrf:lib/*"
                                 "/frr-vrf:lib/vrf[name='red']".
Proof.
  assert (H1 : String.get 0 "/frr-vrf:lib/*" <> Some "*"%char) by done.
  assert (H2 : String.get 0 "/frr-vrf:lib/vrf[name='red']" <> Some "*"%char)
    by done.
  split; [done|].
  exact (eval_regexp_match_before_bytes "/" "'" "000" "000" _ _ H1 H2).
Defined.

(** * The match length counts delimiters *)

Module MatcherDelims.
Import Matcher MatcherFacts.

Lemma get_lookup s n : String.get n s = list_ascii_of_string s !! n.
Proof.
  revert n. induction s as [|c s IH]; intros [|n]; simpl; done.
Qed.

Lemma delims_below_0 s : delims_below s 0 = 0.
Proof. done. Qed.

Lemma length_list_ascii s :
  List.length (list_ascii_of_string s) = String.length s.
Proof. induction s as [|c s IH]; simpl; [done|]. by rewrite IH. Qed.

Lemma filter_take_length {A} (P : A -> Prop) `{!forall x, Decision (P x)}
    (l : list A) n :
  (List.length (filter P (take n l)) <= List.length (filter P l))%nat.
Proof.
  rewrite <- (take_drop n l) at 2. rewrite filter_app, length_app. lia.
Qed.

Lemma delims_below_mono s n m : n <= m -> delims_below s n <= delims_below s m.
Proof.
  intros Hnm. unfold delims_below. apply Nat2Z.inj_le.
  replace (Z.to_nat n) with (Z.to_nat n `min` Z.to_nat m)%nat by lia.
  rewrite <- take_take. apply filter_take_length.
Qed.

Lemma delims_below_step b s n :
  0 <= n -> is_delim (char_at b s n) = true ->
  delims_below s (n + 1) = delims_below s n + 1.
Proof.
  intros Hn Hd. unfold char_at in Hd. destruct (Z.ltb_spec n 0); [lia|].
  rewrite get_lookup in Hd.
  destruct (list_ascii_of_string s !! Z.to_nat n) as [c|] eqn:Hc; [|done].
  unfold delims_below. replace (Z.to_nat (n + 1)) with (S (Z.to_nat n)) by lia.
  rewrite (take_S_r _ _ _ Hc), filter_app, length_app.
  rewrite filter_cons, decide_True by done. simpl. lia.
Qed.

Lemma delims_below_le s n : delims_below s n <= delims s.
Proof.
  unfold delims, delims_below, strlen. apply Nat2Z.inj_le.
  rewrite Nat2Z.id, <- length_list_ascii, firstn_all.
  apply filter_take_length.
Qed.

Lemma star_no_delim c : is_char c "*" = true -> is_delim c = false.
Proof. intros Hc. apply Ascii.eqb_eq in Hc as ->. done. Qed.

Section Loop.

Variables (rb xb : ascii) (re xp : string).
Variables (rexp_len xpath_len : Z).

Local Abbreviation rc i := (char_at rb re i).
Local Abbreviation xc i := (char_at xb xp i).

Local Abbreviation counted := (counted rb xb re xp).

Ltac by_fields :=
  unfold counted;
  cbn [match_len re_indx xp_indx re_wild xp_wild];
  repeat split;
  first [ done | lia | solve [auto]
        | solve [intros Hw;
                 repeat match goal with
                        | H : ?P -> _, Hw : ?P |- _ => specialize (H Hw)
                        end; congruence] ].

Lemma compare_chars_counted s :
  counted s -> counted (compare_chars rb xb re xp s).
Proof. intros (H1 & H2 & H3 & H4 & H5 & H6). by_fields. Qed.

Lemma enter_wild_counted s :
  counted s -> counted (enter_wild rb xb re xp s).
Proof.
  intros (H1 & H2 & H3 & H4 & H5 & H6). unfold enter_wild.
  destruct (_ && _ && _); [|by_fields].
  destruct (_ || _ || _ || _); [|by_fields].
  destruct (is_char (rc (re_indx s)) "*") eqn:Hr; [by_fields|].
  destruct (is_char (xc (xp_indx s)) "*") eqn:Hx; by_fields.
Qed.

Lemma exit_wild_counted s :
  counted s -> counted (exit_wild rb xb re xp rexp_len xpath_len s).
Proof.
  intros (H1 & H2 & H3 & H4 & H5 & H6). unfold exit_wild.
  pose proof (delims_below_mono re (re_indx s) (re_indx s + 1)).
  pose proof (delims_below_mono xp (xp_indx s) (xp_indx s + 1)).
  destruct (enter_wild_match s); [|by_fields].
  destruct (re_wild s && _).
  { destruct (re_indx s <? rexp_len - 1); by_fields. }
  destruct (xp_wild s && _); [|by_fields].
  destruct (xp_indx s <? xpath_len - 1); by_fields.
Qed.

Lemma both_delim_delims s :
  both_delim rb xb re xp s = true ->
  is_delim (rc (re_indx s)) = true /\ is_delim (xc (xp_indx s)) = true.
Proof.
  unfold both_delim, is_delim.
  destruct (is_char (rc (re_indx s)) "/"), (is_char (rc (re_indx s)) "]"),
    (is_char (rc (re_indx s)) "["), (is_char (xc (xp_indx s)) "/"),
    (is_char (xc (xp_indx s)) "]"), (is_char (xc (xp_indx s)) "[");
    simpl; intros; done.
Qed.

Lemma count_and_advance_counted s :
  counted s -> counted (count_and_advance rb xb re xp s).
Proof.
  intros (H1 & H2 & H3 & H4 & H5 & H6). unfold count_and_advance.
  pose proof (delims_below_mono re (re_indx s) (re_indx s + 1)).
  pose proof (delims_below_mono xp (xp_indx s) (xp_indx s + 1)).
  destruct (both_delim rb xb re xp s) eqn:Hd.
  - apply both_delim_delims in Hd as [Hdr Hdx].
    destruct (re_wild s) eqn:Hrw.
    { rewrite (star_no_delim _ (H3 eq_refl)) in Hdr. done. }
    destruct (xp_wild s) eqn:Hxw.
    { rewrite (star_no_delim _ (H4 eq_refl)) in Hdx. done. }
    pose proof (delims_below_step rb re (re_indx s) H1 Hdr).
    pose proof (delims_below_step xb xp (xp_indx s) H2 Hdx).
    destruct (_ && _ && _ && _ && _); by_fields.
  - cbn [andb]. destruct (re_wild s), (xp_wild s); by_fields.
Qed.

Lemma loop_counted fuel s :
  counted s -> counted (loop rb xb re xp rexp_len xpath_len fuel s).
Proof.
  revert s. induction fuel as [|fuel IH]; intros s Hs; simpl; [done|].
  destruct (loop_cond _ _ s); [|done]. apply IH. unfold loop_body.
  by apply count_and_advance_counted, exit_wild_counted, enter_wild_counted,
    compare_chars_counted.
Qed.

Lemma init_counted : counted init.
Proof. by_fields. Qed.

Lemma finish_counted s :
  counted s ->
  finish rb re s <= delims re /\ finish rb re s <= delims xp + 1.
Proof.
  intros (H1 & H2 & H3 & H4 & H5 & H6). unfold finish.
  pose proof (delims_below_le re (re_indx s)).
  pose proof (delims_below_le xp (xp_indx s)).
  destruct (_ && _ && _) eqn:Hc; [|lia].
  apply andb_prop in Hc as [_ Hc].
  assert (Hd : is_delim (rc (re_indx s)) = true).
  { unfold is_delim. apply orb_prop in Hc as [-> | ->]; [done|].
    by rewrite orb_true_r. }
  pose proof (delims_below_step rb re (re_indx s) H1 Hd).
  pose proof (delims_below_le re (re_indx s + 1)). lia.
Qed.

End Loop.

End MatcherDelims.

(** X14: the match length counts delimiters: it is at most the number of
    the characters [/], [\[] and [\]] of the pattern, and at most one more
    than their number in the path; a pattern without a delimiter matches no
    path. *)
Theorem eval_regexp_match_delims rb xb xpath_regexp xpath :
  mgmt_be_eval_regexp_match rb xb xpath_regexp xpath <= delims xpath_regexp
  /\ mgmt_be_eval_regexp_match rb xb xpath_regexp xpath <= delims xpath + 1
  /\ (delims xpath_regexp = 0 ->
      mgmt_be_eval_regexp_match rb xb xpath_regexp xpath = 0).
Proof.
  assert (H0 : forall s, 0 <= delims s).
  { intros s. unfold delims, delims_below. lia. }
  assert (Hb : mgmt_be_eval_regexp_match rb xb xpath_regexp xpath
               <= delims xpath_regexp
               /\ mgmt_be_eval_regexp_match rb xb xpath_regexp xpath
                  <= delims xpath + 1).
  { unfold mgmt_be_eval_regexp_match.
    destruct (_ || _).
    - pose proof (H0 xpath_regexp). pose proof (H0 xpath). lia.
    - apply (MatcherDelims.finish_counted rb xb xpath_regexp xpath).
      unfold Matcher.final.
      apply MatcherDelims.loop_counted, MatcherDelims.init_counted. }
  destruct Hb as [Hre Hxp]. split; [done|]. split; [done|].
  intros Hz. pose proof (eval_regexp_match_bounds rb xb xpath_regexp xpath).
  lia.
Qed.

(** * More on the subscription map and the resolver *)

Module ResolverMore.

Section Init.

Variable max : nat.

(** The inner loop of [mgmt_be_xpath_map_init] stops at the sentinel. *)
Lemma init_clients_lookup pre post subs id :
  max ∉ pre -> (id < max)%nat -> List.length subs = max ->
  init_clients max (pre ++ max :: post) subs !! id
  = if bool_decide (id ∈ pre) then Some subscr_all else subs !! id.
Proof.
  intros Hpre Hid. revert subs.
  induction pre as [|c pre IH]; intros subs Hlen; simpl.
  - by rewrite Nat.eqb_refl.
  - apply not_elem_of_cons in Hpre as [Hne Hpre].
    destruct (Nat.eqb_spec c max) as [->|_]; [done|].
    destruct (Nat.ltb_spec c max) as [Hlt|Hge].
    + rewrite IH by (done || by rewrite length_alter).
      destruct (decide (id = c)) as [->|Hidc].
      * rewrite (bool_decide_eq_true_2 (c ∈ c :: pre)) by left.
        rewrite list_lookup_alter_eq.
        destruct (lookup_lt_is_Some_2 subs c) as [r Hr]; [lia|].
        rewrite Hr. by destruct (bool_decide (c ∈ pre)).
      * rewrite list_lookup_alter_ne by done.
        destruct (decide (id ∈ pre)) as [Hin|Hout].
        -- rewrite !bool_decide_eq_true_2; [done|by right|done].
        -- rewrite !bool_decide_eq_false_2; [done| |done].
           intros Hin. apply elem_of_cons in Hin as [?|?]; done.
    + rewrite IH by done.
      destruct (decide (id ∈ pre)) as [Hin|Hout].
      * rewrite !bool_decide_eq_true_2; [done|by right|done].
      * rewrite !bool_decide_eq_false_2; [done| |done].
        intros Hin. apply elem_of_cons in Hin as [?|?]; [lia|done].
Qed.

Lemma init_clients_length clients subs :
  List.length (init_clients max clients subs) = List.length subs.
Proof.
  revert subs. induction clients as [|c clients IH]; intros subs; simpl;
    [done|].
  destruct (c =? max)%nat; [done|].
  destruct (c <? max)%nat; [|done]. by rewrite IH, length_alter.
Qed.

(** The second loop, one client at a time. *)
Lemma copy_all_last maps out id r0 :
  List.length out = max -> out !! id = Some r0 ->
  Forall (fun m : mgmt_be_client_subscr_info => List.length m = max) maps ->
  foldl (copy_subscribed max) out maps !! id
  = Some (foldl (fun acc r => if subscribed r then r else acc) r0
                ((fun m => default subscr_zero (m !! id)) <$> maps)).
Proof.
  intros Hlen Hout Hok. revert out r0 Hlen Hout.
  induction Hok as [|m maps Hm Hok IH]; intros out r0 Hlen Hout; [done|].
  simpl. apply lookup_lt_Some in Hout as Hlt.
  destruct (lookup_lt_is_Some_2 m id) as [r Hr]; [lia|].
  rewrite Hr. simpl. apply IH.
  - unfold copy_subscribed. by rewrite ResolverFacts.copy_clients_length.
  - by apply ResolverFacts.copy_subscribed_lookup.
Qed.

End Init.

End ResolverMore.

(** X15: [mgmt_be_xpath_map_init] makes one entry of the running map for each
    entry of the static registry, in the same order and with the same
    pattern; it subscribes, with all three capabilities, exactly the client
    ids listed before the sentinel [MGMTD_BE_CLIENT_ID_MAX]: what follows
    the sentinel is not read, and ids above it are passed over. *)
Theorem xpath_map_init_subscribers max reg k r pre post :
  reg !! k = Some r -> be_clients r = pre ++ max :: post -> max ∉ pre ->
  List.length (mgmt_be_xpath_map_init max reg) = List.length reg
  /\ exists e,
       mgmt_be_xpath_map_init max reg !! k = Some e
       /\ xpath_regexp e = reg_xpath_regexp r
       /\ List.length (be_subscrs e) = max
       /\ forall id, (id < max)%nat ->
            be_subscrs e !! id
            = Some (if bool_decide (id ∈ pre) then subscr_all
                    else subscr_zero).
Proof.
  intros Hk Hr Hpre. unfold mgmt_be_xpath_map_init.
  split; [by rewrite length_fmap|].
  eexists. rewrite list_lookup_fmap, Hk. split; [done|]. simpl.
  split; [done|]. split.
  - rewrite ResolverMore.init_clients_length. apply length_replicate.
  - intros id Hid. rewrite Hr.
    rewrite ResolverMore.init_clients_lookup;
      [|done|done|apply length_replicate].
    unfold subscr_info_zero. rewrite lookup_replicate_2 by done.
    by destruct (bool_decide _).
Qed.

Lemma xpath_map_init_subscribers_witness :
  let r := {| reg_xpath_regexp := "/a/*"; be_clients := [0; 5; 2; 3; 1]%nat |} in
  ([r] !! 0%nat = Some r
   /\ be_clients r = [0; 5; 2]%nat ++ 3%nat :: [1%nat]
   /\ 3%nat ∉ [0; 5; 2]%nat)
  /\ List.length (mgmt_be_xpath_map_init 3 [r]) = 1%nat
  /\ exists e,
       mgmt_be_xpath_map_init 3 [r] !! 0%nat = Some e
       /\ xpath_regexp e = "/a/*"
       /\ List.length (be_subscrs e) = 3%nat
       /\ forall id, (id < 3)%nat ->
            be_subscrs e !! id
            = Some (if bool_decide (id ∈ [0; 5; 2]%nat) then subscr_all
                    else subscr_zero).
Proof.
  intros r.
  assert (H3 : 3%nat ∉ [0; 5; 2]%nat) by compute_done.
  split; [done|].
  exact (xpath_map_init_subscribers 3 [r] 0 r [0; 5; 2]%nat [1%nat]
           eq_refl eq_refl H3).
Defined.

(** X16: a path that is not root-scope and that no registered pattern
    matches with a length other than 0 resolves to no subscriber at all,
    with the return value 0. *)
Theorem resolve_no_match max eval_match map xpath out :
  root_xp xpath = false ->
  Forall (fun e => eval_match (xpath_regexp e) xpath = 0) map ->
  get_subscr_info_for_xpath max eval_match map xpath (Some out)
  = (0, Some (subscr_info_zero max)).
Proof.
  intros Hroot Hall. unfold get_subscr_info_for_xpath, get_subscr_info.
  rewrite Hroot.
  assert (Hsel : foldl (select_map eval_match xpath false) ([], 0) map
                 = ([], 0)).
  { induction Hall as [|e map He Hall IH]; [done|].
    simpl. by rewrite He. }
  by rewrite Hsel.
Qed.

Lemma resolve_no_match_witness :
  let map := mgmt_be_xpath_map_init 1 (xpath_static_map_reg (Some 0%nat) 1) in
  let eval := eval_regexp_match (fun _ => Ascii.zero) in
  (root_xp "/frr-bgp:bgp/global" = false
   /\ Forall (fun e => eval (xpath_regexp e) "/frr-bgp:bgp/global" = 0) map)
  /\ mgmt_be_get_subscr_info_for_xpath 1 (fun _ => Ascii.zero) map
       "/frr-bgp:bgp/global" (Some [])
     = (0, Some [subscr_zero]).
Proof.
  assert (Hall : Forall (fun e => eval_regexp_match (fun _ => Ascii.zero)
                                    (xpath_regexp e) "/frr-bgp:bgp/global" = 0)
                   (mgmt_be_xpath_map_init 1
                      (xpath_static_map_reg (Some 0%nat) 1))).
  { repeat constructor; vm_compute; reflexivity. }
  split; [done|].
  exact (resolve_no_match 1 (eval_regexp_match (fun _ => Ascii.zero)) _
           "/frr-bgp:bgp/global" [] eq_refl Hall).
Defined.

(** X17: for records of any kind, the resolver does not merge the fields of
    the records of a client: it copies, for each client, the whole record
    of the last kept pattern that subscribes the client, and leaves the
    zeroed record when none does; the kept patterns are all patterns for a
    root-scope path, those of the greatest positive match length
    otherwise. *)
Theorem resolve_copies_last_subscriber max eval_match map xpath id :
  Forall (fun e => List.length (be_subscrs e) = max) map -> (id < max)%nat ->
  let kept := if root_xp xpath then map
              else Spec.kept_patterns eval_match map xpath in
  get_subscr_info max eval_match map xpath !! id
  = Some (last_subscribed
            ((fun e => default subscr_zero (be_subscrs e !! id)) <$> kept)).
Proof.
  intros Hlen Hid kept. unfold get_subscr_info.
  assert (Hsel : fst (foldl (select_map eval_match xpath (root_xp xpath))
                            ([], 0) map) = be_subscrs <$> kept).
  { unfold kept. destruct (root_xp xpath).
    - by rewrite ResolverFacts.select_map_root.
    - by rewrite ResolverFacts.select_map_kept. }
  rewrite Hsel.
  rewrite (ResolverMore.copy_all_last max _ _ id subscr_zero).
  - unfold last_subscribed. by rewrite <- list_fmap_compose.
  - apply length_replicate.
  - by apply lookup_replicate_2.
  - apply Forall_fmap. unfold kept.
    destruct (root_xp xpath); [done|].
    unfold Spec.kept_patterns.
    eapply List.incl_Forall; [apply List.incl_filter|done].
Qed.

Lemma resolve_copies_last_subscriber_witness :
  let map := [ {| xpath_regexp := "/a/*";
                  be_subscrs := [ {| validate_config := true;
                                     notify_config := false;
                                     own_oper_data := false |} ] |};
               {| xpath_regexp := "/b/*";
                  be_subscrs := [ {| validate_config := false;
                                     notify_config := true;
                                     own_oper_data := false |} ] |} ] in
  (Forall (fun e => List.length (be_subscrs e) = 1%nat) map /\ (0 < 1)%nat)
  /\ get_subscr_info 1 (eval_regexp_match (fun _ => Ascii.zero)) map "/"
       !! 0%nat
     = Some {| validate_config := false; notify_config := true;
               own_oper_data := false |}.
Proof.
  set (map := [ {| xpath_regexp := "/a/*";
                   be_subscrs := [ {| validate_config := true;
                                      notify_config := false;
                                      own_oper_data := false |} ] |};
                {| xpath_regexp := "/b/*";
                   be_subscrs := [ {| validate_config := false;
                                      notify_config := true;
                                      own_oper_data := false |} ] |} ]).
  assert (Hlen : Forall (fun e => List.length (be_subscrs e) = 1%nat) map)
    by (by repeat constructor).
  split; [split; [done|lia]|].
  exact (resolve_copies_last_subscriber 1
           (eval_regexp_match (fun _ => Ascii.zero)) map "/" 0 Hlen
           (Nat.lt_0_succ 0)).
Defined.

(** * The [CONN_INIT] timer *)

(** X18: when the [CONN_INIT] timer of an open adapter fires while a config
    transaction is in progress, the handler arms the timer again and the
    state is what it was before the event; otherwise the handler notifies
    the transaction module of the connection, once, and disconnects the
    adapter when that fails. *)
Theorem conn_init_outcomes max nlen bit name2id psize bb st a ad conn_rv :
  heap st !! a = Some ad -> conn_init_ev ad = true -> 0 <= conn_fd ad ->
  0 < refcount ad ->
  let fired := set_heap (<[a := set_conn_init_ev false ad]> (heap st)) st in
  let notified :=
    set_txn_log (txn_log st ++ [txn_notify_be_adapter_conn a true]) fired in
  run max nlen bit name2id psize bb (FireConnInit a true conn_rv) st
  = Ok (tt, st)
  /\ run max nlen bit name2id psize bb (FireConnInit a false conn_rv) st
     = Ok (tt, if conn_rv =? 0 then notified
               else disconnect_state max a (set_conn_init_ev false ad)
                                     notified).
Proof.
  intros Hl Hev Hfd Hrc fired notified. cbn [run]. unfold fire.
  assert (Hlf : heap fired !! a = Some (set_conn_init_ev false ad))
    by apply lookup_insert_eq.
  assert (Hfired : forall h : M unit,
             (update a (set_conn_init_ev false) ;;; h) st = h fired).
  { intros h. unfold bind. by rewrite (update_run a _ ad st Hl). }
  rewrite !Hfired. unfold mgmt_be_adapter_conn_init, bind.
  rewrite (load_run a _ fired Hlf). cbn [conn_fd set_conn_init_ev].
  destruct (Z.leb_spec 0 (conn_fd ad)); [|lia]. cbn [assert].
  split.
  - cbn [mgmt_be_adapter_register_event ret].
    rewrite (update_run a _ _ fired Hlf). do 2 f_equal.
    unfold fired. rewrite set_heap_twice, heap_set_heap, insert_insert_eq.
    destruct st, ad. unfold set_heap. cbn in *. subst.
    f_equal. by apply insert_id.
  - unfold txn, modify_state. cbn [ret].
    change (txn_log fired) with (txn_log st). fold notified.
    destruct (Z.eqb_spec conn_rv 0); [done|]. cbn [negb].
    rewrite (disconnect_run max notified a (set_conn_init_ev false ad));
      [|exact Hlf].
    cbn [refcount set_conn_init_ev].
    by destruct (Z.eqb_spec (refcount ad) 0); [lia|].
Qed.

Lemma conn_init_outcomes_witness :
  let st := Example.after [CallCreateAdapter 7 0] in
  exists ad,
    (heap st !! 0%nat = Some ad /\ conn_init_ev ad = true /\ 0 <= conn_fd ad
     /\ 0 < refcount ad)
    /\ run 1 32 0 Example.name2id (fun _ => 10%nat) (fun _ => Ascii.zero)
           (FireConnInit 0%nat true 0) st = Ok (tt, st)
    /\ heap (Example.state_of
               (run 1 32 0 Example.name2id (fun _ => 10%nat)
                    (fun _ => Ascii.zero) (FireConnInit 0%nat false (-1)) st))
       = ∅.
Proof.
  intros st. exists (new_adapter 1 32 7 0).
  assert (Hl : heap st !! 0%nat = Some (new_adapter 1 32 7 0))
    by (vm_compute; reflexivity).
  assert (Hfd : 0 <= conn_fd (new_adapter 1 32 7 0)) by done.
  assert (Hrc : 0 < refcount (new_adapter 1 32 7 0)) by done.
  split; [done|].
  destruct (conn_init_outcomes 1 32 0 Example.name2id (fun _ => 10%nat)
              (fun _ => Ascii.zero) st 0%nat _ (-1) Hl eq_refl Hfd Hrc)
    as [Hretry Hfail].
  split; [exact Hretry|]. rewrite Hfail. vm_compute. reflexivity.
Defined.

(** * The old connections of a client *)

(** The disconnect of one referenced adapter, for the others. *)
Lemma disconnect_referenced max st b bd :
  heap st !! b = Some bd -> 0 < refcount bd ->
  exists st',
    mgmt_be_adapter_disconnect max b st = Ok (tt, st')
    /\ heap st' !! b = closed max bd
    /\ (forall c, c <> b -> heap st' !! c = heap st !! c)
    /\ mgmt_be_adapters st' = filter (fun c => c <> b) (mgmt_be_adapters st).
Proof.
  intros Hl Hrc. rewrite (disconnect_run max st b bd Hl).
  destruct (Z.eqb_spec (refcount bd) 0); [lia|].
  eexists. split; [done|]. unfold closed, disconnect_state. cbn [heap].
  destruct (Z.eqb_spec (refcount bd - 1) 0), (Z.eqb_spec (refcount bd) 1);
    try lia.
  - split; [apply lookup_delete_eq|].
    split; [intros c Hc; by apply lookup_delete_ne|done].
  - split; [apply lookup_insert_eq|].
    split; [intros c Hc; by apply lookup_insert_ne|done].
Qed.

Section OldConn.

Variables (max nlen : nat) (a : ptr) (ad : adapter).

Local Abbreviation old := (old_in nlen (name ad) a).

Local Abbreviation body :=
  (fun old : ptr =>
     if negb (old =? a)%nat then
       ad <- load a ;;
       old_ad <- load old ;;
       if strncmp_eq (name ad) (name old_ad) nlen
       then mgmt_be_adapter_disconnect max old
       else ret tt
     else ret tt).

Lemma old_in_head o l st od :
  heap st !! o = Some od ->
  old (o :: l) st o = negb (o =? a)%nat && strncmp_eq (name ad) (name od) nlen.
Proof.
  intros Hod. unfold old_in. rewrite Hod.
  by rewrite bool_decide_eq_true_2 by left.
Qed.

Lemma old_in_tail o l st st1 b :
  b <> o -> heap st1 !! b = heap st !! b -> old l st1 b = old (o :: l) st b.
Proof.
  intros Hbo Hh. unfold old_in. rewrite Hh. do 2 f_equal.
  apply bool_decide_ext. rewrite elem_of_cons. tauto.
Qed.

Lemma old_in_out l st b : b ∉ l -> old l st b = false.
Proof. intros Hb. unfold old_in. by rewrite bool_decide_eq_false_2. Qed.

(** The loop of [mgmt_be_adapter_cleanup_old_conn] over the adapters [l],
    all of them referenced. *)
Lemma cleanup_loop l st :
  NoDup l -> heap st !! a = Some ad ->
  (forall b, b ∈ l -> exists bd, heap st !! b = Some bd /\ 0 < refcount bd) ->
  exists st',
    for_each l body st = Ok (tt, st')
    /\ (forall b, heap st' !! b
                  = if old l st b then heap st !! b ≫= closed max
                    else heap st !! b)
    /\ mgmt_be_adapters st'
       = filter (fun b => old l st b = false) (mgmt_be_adapters st).
Proof.
  intros Hnd. revert st. induction Hnd as [|o l Ho Hnd IH]; intros st Ha Hall.
  - exists st. split; [done|]. split; [done|].
    symmetry. by apply filter_all.
  - destruct (Hall o) as (od & Hod & Hrc); [by left|].
    pose proof (old_in_head o l st od Hod) as Hhead.
    assert (exists st1,
               body o st = Ok (tt, st1)
               /\ heap st1 !! o
                  = (if old (o :: l) st o then closed max od else Some od)
               /\ (forall c, c <> o -> heap st1 !! c = heap st !! c)
               /\ mgmt_be_adapters st1
                  = filter (fun c => ~ (c = o /\ old (o :: l) st o = true))
                           (mgmt_be_adapters st))
      as (st1 & Hrun & Ho1 & Hc1 & Hr1).
    { rewrite Hhead. cbv beta.
      destruct (Nat.eqb_spec o a) as [->|Hne]; cbn [negb andb].
      { exists st. split; [done|]. split; [done|]. split; [done|].
        symmetry. apply filter_all. by intros c _ [_ ?]. }
      unfold bind. rewrite (load_run a ad st Ha), (load_run o od st Hod).
      destruct (strncmp_eq (name ad) (name od) nlen).
      - destruct (disconnect_referenced max st o od Hod Hrc)
          as (st1 & Hrun & Ho1 & Hc1 & Hr1).
        exists st1. rewrite Hrun. split; [done|]. split; [done|].
        split; [done|]. rewrite Hr1. apply filter_ext_elem. intros c _. tauto.
      - exists st. split; [done|]. split; [done|]. split; [done|].
        symmetry. apply filter_all. by intros c _ [_ ?]. }
    destruct (IH st1) as (st' & Hrun' & Hh' & Hr').
    { destruct (decide (a = o)) as [<-|Hao]; [|by rewrite Hc1].
      rewrite Ho1, Hhead, Nat.eqb_refl. by rewrite <- Ha. }
    { intros b Hb. rewrite Hc1 by (intros ->; done). apply Hall. by right. }
    exists st'. split; [cbn [for_each]; unfold bind at 1; by rewrite Hrun|]. split.
    + intros b. rewrite Hh'. destruct (decide (b = o)) as [->|Hbo].
      * rewrite (old_in_out l st1 o Ho), Ho1, Hod.
        by destruct (old (o :: l) st o).
      * by rewrite (old_in_tail o l st st1 b Hbo (Hc1 b Hbo)), Hc1.
    + rewrite Hr', Hr1, list_filter_filter. apply filter_ext_elem.
      intros b _. destruct (decide (b = o)) as [->|Hbo].
      * rewrite (old_in_out l st1 o Ho).
        destruct (old (o :: l) st o).
        -- split; [intros [_ Hno]; exfalso; by apply Hno|done].
        -- split; [done|]. intros _. split; [done|]. by intros [_ ?].
      * rewrite (old_in_tail o l st st1 b Hbo (Hc1 b Hbo)). tauto.
Qed.

End OldConn.

(** X19: a [SUBSCR_REQ] that names a known client, handled in a state the
    daemon reaches, disconnects the old connections of the client: every
    other registered adapter that bears the name is unlinked from the
    registry and loses one reference (it is freed with its last one), the
    adapters that bear another name are left as they are, and the adapter of
    the request has the name and the id of the client; no other registered
    adapter bears the name afterwards. *)
Theorem subscr_req_closes_old_connections max nlen bit name2id psize bb reg
    st a ad client_name subscribe xpaths :
  reachable max nlen bit name2id psize bb reg st ->
  heap st !! a = Some ad ->
  strlen client_name <> 0 ->
  (name2id (strlcpy client_name nlen) < max)%nat ->
  let nm := strlcpy client_name nlen in
  exists st',
    mgmt_be_adapter_handle_msg max nlen name2id a
      (SUBSCR_REQ client_name subscribe xpaths) st = Ok (0, st')
    /\ heap st' !! a = Some (set_id (name2id nm) (set_name nm ad))
    /\ (forall b, b <> a ->
          heap st' !! b = if old_conn nlen nm a st b
                          then heap st !! b ≫= closed max
                          else heap st !! b)
    /\ mgmt_be_adapters st'
       = filter (fun b => old_conn nlen nm a st b = false)
                (mgmt_be_adapters st)
    /\ (forall b, b ∈ mgmt_be_adapters st' -> old_conn nlen nm a st' b = false).
Proof.
  intros Hreach Hl Hlen Hi nm.
  pose proof (reachable_ok _ _ _ _ _ _ reg st Hreach) as Hok.
  destruct (reachable_ok2 max nlen bit name2id psize bb
              (mgmt_be_xpath_map_init max reg) reg st eq_refl Hreach)
    as (Hrefs & Hnd & _).
  set (i := name2id nm).
  assert (Hi' : (i < max)%nat) by exact Hi.
  set (ad1 := set_id i (set_name nm ad)).
  set (st1 := set_mgmt_be_adapters_by_id
                (<[i := a]> (mgmt_be_adapters_by_id st))
                (set_heap (<[a := ad1]> (heap st)) st)).
  assert (Ha1 : heap st1 !! a = Some ad1) by apply lookup_insert_eq.
  assert (Hb1 : forall b, b <> a -> heap st1 !! b = heap st !! b).
  { intros b Hb. unfold st1. cbn [heap set_mgmt_be_adapters_by_id set_heap].
    by apply lookup_insert_ne. }
  destruct (cleanup_loop max nlen a ad1 (mgmt_be_adapters st) st1 Hnd Ha1)
    as (st' & Hrun & Hh & Hr).
  { intros b Hb. destruct (decide (b = a)) as [->|Hne].
    - exists ad1. split; [done|]. apply (Hrefs a ad Hl).
    - rewrite (Hb1 b Hne). destruct (ok_registered _ _ Hok b Hb) as [bd Hbd].
      exists bd. split; [done|]. apply (Hrefs b bd Hbd). }
  assert (Hold : forall b,
             old_in nlen (name ad1) a (mgmt_be_adapters st) st1 b
             = old_conn nlen nm a st b).
  { intros b. unfold old_conn, old_in. cbn [name ad1 set_id set_name].
    destruct (Nat.eqb_spec b a) as [->|Hne]; cbn [negb].
    - by rewrite !andb_false_r.
    - by rewrite (Hb1 b Hne). }
  assert (Hself : old_conn nlen nm a st a = false).
  { unfold old_conn, old_in. by rewrite Nat.eqb_refl, andb_false_r. }
  exists st'. split; [|split; [|split; [|split]]].
  - unfold mgmt_be_adapter_handle_msg.
    destruct (Z.eqb_spec (strlen client_name) 0); [done|]. cbn [negb].
    unfold bind at 1. unfold bind at 1.
    rewrite (update_run a _ ad st Hl).
    unfold bind at 1. erewrite update_run;
      [|rewrite heap_set_heap; apply lookup_insert_eq].
    rewrite set_heap_twice, heap_set_heap, insert_insert_eq.
    cbn [name set_name]. fold nm. fold i.
    unfold bind at 1. erewrite load_run;
      [|rewrite heap_set_heap; apply lookup_insert_eq].
    cbn [id set_id].
    destruct (Nat.leb_spec max i); [lia|].
    unfold bind at 1. unfold ret at 1.
    unfold bind at 1. erewrite load_run;
      [|rewrite heap_set_heap; apply lookup_insert_eq].
    cbn [id set_id]. unfold bind at 1, by_id_store.
    destruct (Nat.ltb_spec i max); [|lia]. unfold modify_state.
    fold ad1.
    change (set_mgmt_be_adapters_by_id _ (set_heap (<[a:=ad1]> (heap st)) st))
      with st1.
    unfold mgmt_be_adapter_cleanup_old_conn, FOREACH_ADAPTER_IN_LIST.
    unfold bind at 1, gets.
    change (mgmt_be_adapters st1) with (mgmt_be_adapters st).
    by rewrite Hrun.
  - by rewrite Hh, Hold, Hself.
  - intros b Hne. by rewrite Hh, Hold, (Hb1 b Hne).
  - rewrite Hr. apply filter_ext_elem. intros b _. by rewrite Hold.
  - intros b Hb. rewrite Hr in Hb.
    apply list_elem_of_filter in Hb as [Hold_b Hreg_b].
    unfold old_conn, old_in.
    destruct (Nat.eqb_spec b a) as [Heq|Hne]; cbn [negb];
      [by rewrite andb_false_r|].
    rewrite Hh, Hold_b, (Hb1 b Hne).
    revert Hold_b. rewrite Hold. unfold old_conn, old_in.
    rewrite (bool_decide_eq_true_2 _ Hreg_b).
    destruct (Nat.eqb_spec b a); [done|]. cbn [negb andb].
    intros ->. by rewrite andb_false_r.
Qed.

Lemma subscr_req_closes_old_connections_witness :
  let st := Example.after
              [CallCreateAdapter 7 0; CallCreateAdapter 9 0;
               FireConnRead 0%nat MSR_SCHED_BOTH;
               FireProcMsg 0%nat [Some (SUBSCR_REQ "staticd" true [])] false] in
  reachable 1 32 0 Example.name2id (fun _ => 10%nat) (fun _ => Ascii.zero)
            (xpath_static_map_reg (Some 0%nat) 1) st
  /\ exists st',
       mgmt_be_adapter_handle_msg 1 32 Example.name2id 1%nat
         (SUBSCR_REQ "staticd" true []) st = Ok (0, st')
       /\ mgmt_be_adapters st = [0%nat; 1%nat]
       /\ (name <$> heap st !! 0%nat) = Some "staticd"
       /\ mgmt_be_adapters st' = [1%nat]
       /\ heap st' !! 0%nat = None
       /\ (name <$> heap st' !! 1%nat) = Some "staticd".
Proof.
  intros st.
  assert (Hreach : reachable 1 32 0 Example.name2id (fun _ => 10%nat)
                     (fun _ => Ascii.zero)
                     (xpath_static_map_reg (Some 0%nat) 1) st).
  { apply (example_reachable
             [CallCreateAdapter 7 0; CallCreateAdapter 9 0;
              FireConnRead 0%nat MSR_SCHED_BOTH;
              FireProcMsg 0%nat [Some (SUBSCR_REQ "staticd" true [])] false]).
    vm_compute. reflexivity. }
  split; [exact Hreach|].
  assert (Hl : heap st !! 1%nat = Some (new_adapter 1 32 9 0))
    by (vm_compute; reflexivity).
  assert (Hlen : strlen "staticd" <> 0)
    by (intros H; vm_compute in H; discriminate H).
  assert (Hi : (Example.name2id (strlcpy "staticd" 32) < 1)%nat)
    by (vm_compute; lia).
  destruct (subscr_req_closes_old_connections 1 32 0 Example.name2id
              (fun _ => 10%nat) (fun _ => Ascii.zero)
              (xpath_static_map_reg (Some 0%nat) 1) st 1%nat _
              "staticd" true [] Hreach Hl Hlen Hi)
    as (st' & Hrun & Ha & Hb & Hr & _).
  exists st'. split; [exact Hrun|].
  split; [vm_compute; reflexivity|]. split; [vm_compute; reflexivity|].
  split; [rewrite Hr; vm_compute; reflexivity|].
  split; [rewrite (Hb 0%nat) by lia; vm_compute; reflexivity|].
  rewrite Ha. vm_compute. reflexivity.
Defined.

(** * The PDU counters *)

Module PduCounterFacts.

Import PduCounter.

Lemma switch_default {A} labels (results : list A) default x :
  x ∉ labels -> switch labels results default x = default.
Proof.
  revert results. induction labels as [|l labels IH]; intros [|r results] Hx;
    simpl; try done.
  apply not_elem_of_cons in Hx as [Hne Hx].
  destruct (Z.eqb_spec x l); [done|]. by apply IH.
Qed.

Lemma switch_lookup {A} labels (results : list A) default i l r :
  NoDup labels -> labels !! i = Some l -> results !! i = Some r ->
  switch labels results default l = r.
Proof.
  revert results i. induction labels as [|l0 labels IH];
    intros [|r0 results] [|i] Hnd Hl Hr; simplify_eq/=.
  - by rewrite Z.eqb_refl.
  - apply NoDup_cons in Hnd as [Hnot Hnd].
    destruct (Z.eqb_spec l l0) as [->|_].
    + exfalso. apply Hnot. by eapply list_elem_of_lookup_2.
    + by eapply IH.
Qed.

Section Facts.

Context `{constants}.

Lemma uint8_t_byte t : 0 <= t < 256 -> uint8_t t = t.
Proof. intros Ht. unfold uint8_t. apply Z.mod_small. lia. Qed.

Lemma uint8_t_range t : 0 <= uint8_t t < 256.
Proof. unfold uint8_t. apply (Z.mod_pos_bound t (2 ^ 8)). lia. Qed.

Lemma uint8_t_idem t : uint8_t (uint8_t t) = uint8_t t.
Proof. apply uint8_t_byte, uint8_t_range. Qed.

Lemma type_to_index_switch t :
  pdu_type_to_counter_index t
  = switch pdu_types counter_indices (-1) (uint8_t t).
Proof. reflexivity. Qed.

(** The functions see their argument as a [uint8_t]. *)
Lemma index_uint8_t t :
  pdu_type_to_counter_index (uint8_t t) = pdu_type_to_counter_index t.
Proof. by rewrite !type_to_index_switch, uint8_t_idem. Qed.

Lemma get_count_uint8_t counter t :
  pdu_counter_get_count counter (uint8_t t) = pdu_counter_get_count counter t.
Proof. unfold pdu_counter_get_count. cbv zeta. by rewrite uint8_t_idem. Qed.

Lemma count_uint8_t counter t :
  pdu_counter_count counter (uint8_t t) = pdu_counter_count counter t.
Proof. unfold pdu_counter_count. cbv zeta. by rewrite uint8_t_idem. Qed.

Lemma index_to_name_switch i :
  pdu_counter_index_to_name i
  = switch (counter_indices ++ [PDU_COUNTER_SIZE])
           (Ok <$> [" L1 IIH"; " L2 IIH"; "P2P IIH"; " L1 LSP"; " L2 LSP";
                    " FS LSP"; "L1 CSNP"; "L2 CSNP"; "L1 PSNP"; "L2 PSNP";
                    "???????"])
           (Fault AssertionFailed) i.
Proof. reflexivity. Qed.

Hypothesis wf : well_formed.

Lemma size_10 : PDU_COUNTER_SIZE = 10.
Proof.
  destruct wf as (_ & _ & Hp). apply Permutation_length in Hp.
  rewrite length_fmap, length_seq in Hp. simpl in Hp. lia.
Qed.

Lemma indices_range i : i ∈ counter_indices -> 0 <= i < PDU_COUNTER_SIZE.
Proof.
  destruct wf as (_ & _ & Hp). rewrite Hp. intros Hi.
  apply list_elem_of_fmap in Hi as (n & -> & Hn).
  apply elem_of_seq in Hn. lia.
Qed.

Lemma indices_NoDup : NoDup counter_indices.
Proof.
  destruct wf as (_ & _ & Hp). rewrite Hp.
  apply NoDup_fmap; [intros ???; lia|apply NoDup_seq].
Qed.

Lemma indices_all i : 0 <= i < PDU_COUNTER_SIZE -> i ∈ counter_indices.
Proof.
  destruct wf as (_ & _ & Hp). rewrite Hp. intros Hi.
  apply list_elem_of_fmap. exists (Z.to_nat i). split; [lia|].
  apply elem_of_seq. lia.
Qed.

Lemma type_byte t : t ∈ pdu_types -> uint8_t t = t.
Proof.
  intros Ht. apply uint8_t_byte. destruct wf as (_ & Hb & _).
  by apply (proj1 (Forall_forall _ _) Hb).
Qed.

(** A counted type has its own element of the array. *)
Lemma type_index t :
  t ∈ pdu_types ->
  exists k, pdu_types !! k = Some t
            /\ counter_indices !! k = Some (pdu_type_to_counter_index t)
            /\ 0 <= pdu_type_to_counter_index t < PDU_COUNTER_SIZE.
Proof.
  intros Ht. pose proof (type_byte t Ht) as Hbyte.
  apply list_elem_of_lookup in Ht as [k Hk]. exists k.
  assert (Hlt : (k < 10)%nat) by (apply lookup_lt_Some in Hk; exact Hk).
  destruct (lookup_lt_is_Some_2 counter_indices k Hlt) as [i Hi].
  rewrite type_to_index_switch, Hbyte.
  rewrite (switch_lookup pdu_types counter_indices (-1) k t i);
    [|by destruct wf|done..].
  split; [done|]. split; [done|].
  apply indices_range. by eapply list_elem_of_lookup_2.
Qed.

Lemma type_index_inj t t' :
  t ∈ pdu_types -> t' ∈ pdu_types ->
  pdu_type_to_counter_index t = pdu_type_to_counter_index t' -> t = t'.
Proof.
  intros Ht Ht' Heq.
  destruct (type_index t Ht) as (k & Hk & Hi & _).
  destruct (type_index t' Ht') as (k' & Hk' & Hi' & _).
  rewrite <- Heq in Hi'.
  assert (k = k') as -> by (eapply NoDup_lookup; eauto using indices_NoDup).
  congruence.
Qed.

Lemma type_unknown t :
  uint8_t t ∉ pdu_types -> pdu_type_to_counter_index t = -1.
Proof. intros Ht. rewrite type_to_index_switch. by apply switch_default. Qed.

Lemma name_of_index i :
  0 <= i <= PDU_COUNTER_SIZE ->
  exists n, pdu_counter_index_to_name i = Ok n /\ String.length n = 7%nat.
Proof.
  intros Hi. rewrite index_to_name_switch.
  assert (Hin : i ∈ counter_indices ++ [PDU_COUNTER_SIZE]).
  { apply elem_of_app. destruct (decide (i = PDU_COUNTER_SIZE)) as [->|Hne].
    - right. apply list_elem_of_singleton. done.
    - left. apply indices_all. lia. }
  apply list_elem_of_lookup in Hin as [k Hk].
  assert (Hlt : (k < 11)%nat) by (apply lookup_lt_Some in Hk; exact Hk).
  set (names := [" L1 IIH"; " L2 IIH"; "P2P IIH"; " L1 LSP"; " L2 LSP";
                 " FS LSP"; "L1 CSNP"; "L2 CSNP"; "L1 PSNP"; "L2 PSNP";
                 "???????"]%string).
  destruct (lookup_lt_is_Some_2 names k Hlt) as [n Hn].
  exists n. split.
  - apply (switch_lookup _ _ _ k); [|done|by rewrite list_lookup_fmap, Hn].
    apply NoDup_app. split; [apply indices_NoDup|]. split; [|apply NoDup_singleton].
    intros x Hx Hx'. apply list_elem_of_singleton in Hx' as ->.
    apply indices_range in Hx. lia.
  - do 11 (destruct k as [|k]; [by injection Hn as <-|]). simpl in Hlt. lia.
Qed.

Lemma name_of_no_index i :
  i < 0 -> pdu_counter_index_to_name i = Fault AssertionFailed.
Proof.
  intros Hi. rewrite index_to_name_switch. apply switch_default.
  intros Hin. apply elem_of_app in Hin as [Hin|Hin].
  - apply indices_range in Hin. lia.
  - apply list_elem_of_singleton in Hin. pose proof size_10. lia.
Qed.

Lemma counter_at_Ok counter i :
  Z.of_nat (List.length counter) = PDU_COUNTER_SIZE ->
  0 <= i < PDU_COUNTER_SIZE ->
  exists v, counter !! Z.to_nat i = Some v /\ counter_at counter i = Ok v.
Proof.
  intros Hlen Hi. unfold counter_at.
  destruct (Z.ltb_spec i 0); [lia|].
  destruct (lookup_lt_is_Some_2 counter (Z.to_nat i)) as [v Hv]; [lia|].
  exists v. by rewrite Hv.
Qed.

End Facts.

End PduCounterFacts.

Section PduCounterTheorems.

Import PduCounter PduCounterFacts.

Context `{constants}.

(** The loop over [i] adds up the elements of the array. *)
Lemma count_total_sum counter idxs total :
  Forall (fun i => is_Some (counter !! i)) idxs ->
  0 <= total < 2 ^ 64 ->
  count_total counter idxs total
  = Ok ((total + foldr Z.add 0 ((fun i => default 0 (counter !! i)) <$> idxs))
        mod 2 ^ 64).
Proof.
  revert total. induction idxs as [|i idxs IH]; intros total Hall Ht; simpl.
  - f_equal. rewrite Z.add_0_r. symmetry. by apply Z.mod_small.
  - apply Forall_cons in Hall as [[v Hv] Hall]. unfold counter_at.
    destruct (Z.ltb_spec (Z.of_nat i) 0); [lia|].
    rewrite Nat2Z.id, Hv. simpl.
    destruct (Z.eqb_spec v 0) as [->|Hne].
    + by rewrite IH.
    + rewrite IH; [|done|by apply Z.mod_pos_bound].
      f_equal. rewrite Zplus_mod_idemp_l, <- Z.add_assoc. reflexivity.
Qed.

Lemma get_count_known counter t :
  well_formed -> Z.of_nat (List.length counter) = PDU_COUNTER_SIZE ->
  t ∈ pdu_types ->
  pdu_counter_get_count counter t
  = Ok (default 0 (counter !! Z.to_nat (pdu_type_to_counter_index t))).
Proof.
  intros wf Hlen Ht. unfold pdu_counter_get_count. cbv zeta.
  rewrite index_uint8_t.
  destruct (type_index wf t Ht) as (k & _ & _ & Hr).
  destruct (Z.ltb_spec (pdu_type_to_counter_index t) 0); [lia|].
  destruct (counter_at_Ok counter _ Hlen Hr) as (v & Hv & ->). by rewrite Hv.
Qed.

Lemma count_known counter t :
  well_formed -> Z.of_nat (List.length counter) = PDU_COUNTER_SIZE ->
  t ∈ pdu_types ->
  pdu_counter_count counter t
  = Ok (alter (fun v => (v + 1) mod 2 ^ 64)
              (Z.to_nat (pdu_type_to_counter_index t)) counter).
Proof.
  intros wf Hlen Ht. unfold pdu_counter_count. cbv zeta.
  rewrite index_uint8_t.
  destruct (type_index wf t Ht) as (k & _ & _ & Hr).
  destruct (Z.ltb_spec (pdu_type_to_counter_index t) 0); [lia|].
  destruct (counter_at_Ok counter _ Hlen Hr) as (v & Hv & ->). simpl.
  f_equal. apply list_eq. intros j.
  destruct (decide (j = Z.to_nat (pdu_type_to_counter_index t))) as [->|Hne].
  - rewrite list_lookup_insert_eq by (by eapply lookup_lt_Some).
    by rewrite list_lookup_alter_eq, Hv.
  - by rewrite list_lookup_insert_ne, list_lookup_alter_ne.
Qed.

Lemma count_unknown counter t :
  uint8_t t ∉ pdu_types -> pdu_counter_count counter t = Ok counter.
Proof.
  intros Ht. unfold pdu_counter_count. cbv zeta.
  by rewrite index_uint8_t, type_unknown.
Qed.

Lemma alter_is_counter counter i :
  is_counter counter ->
  is_counter (alter (fun v => (v + 1) mod 2 ^ 64) i counter).
Proof.
  intros [Hlen Hall]. split; [by rewrite length_alter|].
  apply Forall_alter; [done|]. intros v _ _. by apply Z.mod_pos_bound.
Qed.


Lemma omap_Ok {A B} (f : A -> outcome B) (g : A -> B) l :
  (forall x, x ∈ l -> f x = Ok (g x)) -> omap f l = Ok (g <$> l).
Proof.
  induction l as [|x l IH]; intros Hf; simpl; [done|].
  rewrite (Hf x) by left. simpl. rewrite IH; [done|].
  intros y Hy. apply Hf. by right.
Qed.

Lemma sum_permutation (l l' : list Z) :
  l ≡ₚ l' -> foldr Z.add 0 l = foldr Z.add 0 l'.
Proof. induction 1; simpl; lia. Qed.

Lemma indices_of_types :
  well_formed -> pdu_type_to_counter_index <$> pdu_types = counter_indices.
Proof.
  intros wf. apply list_eq. intros k. rewrite list_lookup_fmap.
  destruct (pdu_types !! k) as [t|] eqn:Hk; simpl.
  - assert (Ht : t ∈ pdu_types) by (by eapply list_elem_of_lookup_2).
    destruct (type_index wf t Ht) as (k' & Hk' & Hi & _).
    assert (k = k') as -> by (eapply NoDup_lookup; eauto; by destruct wf).
    done.
  - symmetry. apply lookup_ge_None. apply lookup_ge_None in Hk. exact Hk.
Qed.

(** The ten counts of the message add up to the sum of the array. *)
Lemma drops_sum counter :
  well_formed -> Z.of_nat (List.length counter) = PDU_COUNTER_SIZE ->
  omap (pdu_counter_get_count counter) pdu_types
  = Ok ((fun t => default 0 (counter !! Z.to_nat (pdu_type_to_counter_index t)))
          <$> pdu_types)
  /\ foldr Z.add 0
       ((fun t => default 0 (counter !! Z.to_nat (pdu_type_to_counter_index t)))
          <$> pdu_types)
     = foldr Z.add 0 ((fun i => default 0 (counter !! i))
                        <$> seq 0 (Z.to_nat PDU_COUNTER_SIZE)).
Proof.
  intros wf Hlen. split.
  - apply omap_Ok. intros t Ht. by apply get_count_known.
  - transitivity (foldr Z.add 0
      ((fun i => default 0 (counter !! Z.to_nat i)) <$> counter_indices)).
    { rewrite <- (indices_of_types wf). by rewrite <- list_fmap_compose. }
    destruct wf as (_ & _ & Hp).
    rewrite (sum_permutation _ _ (fmap_Permutation _ _ _ Hp)).
    rewrite <- list_fmap_compose. f_equal. apply list_fmap_ext.
    intros i n _. simpl. by rewrite Nat2Z.id.
Qed.

Lemma pdu_counter_count_then_get_aux counter t :
  well_formed -> is_counter counter -> t ∈ pdu_types ->
  exists v, pdu_counter_get_count counter t = Ok v /\ 0 <= v < 2 ^ 64.
Proof.
  intros wf [Hlen Hall] Ht. rewrite get_count_known by done.
  eexists. split; [done|].
  destruct (PduCounterFacts.type_index wf t Ht) as (k & _ & _ & Hrange).
  destruct (lookup_lt_is_Some_2 counter
              (Z.to_nat (pdu_type_to_counter_index t))) as [v Hv]; [lia|].
  rewrite Hv. simpl. by eapply (Forall_lookup_1 _ _ _ _ Hall).
Qed.

End PduCounterTheorems.

Lemma iso10589_well_formed : @PduCounter.well_formed PduCounter.iso10589.
Proof. split; [|split]; [compute_done..|reflexivity]. Qed.

Import PduCounter.

(** X20: counting a PDU of a counted type adds one, modulo 2^64, to what
    [pdu_counter_get_count] returns for this type, leaves what it returns
    for every other counted type and keeps the array an array of
    [PDU_COUNTER_SIZE] elements. *)
Theorem pdu_counter_count_then_get `{constants} counter t :
  well_formed -> is_counter counter -> t ∈ pdu_types ->
  exists counter' v,
    pdu_counter_get_count counter t = Ok v
    /\ pdu_counter_count counter t = Ok counter'
    /\ is_counter counter'
    /\ pdu_counter_get_count counter' t = Ok ((v + 1) mod 2 ^ 64)
    /\ forall t', t' ∈ pdu_types -> t' <> t ->
         pdu_counter_get_count counter' t'
         = pdu_counter_get_count counter t'.
Proof.
  intros wf Hc Ht. pose proof Hc as [Hlen Hall].
  set (i := Z.to_nat (pdu_type_to_counter_index t)).
  exists (alter (fun v => (v + 1) mod 2 ^ 64) i counter),
         (default 0 (counter !! i)).
  destruct (PduCounterFacts.type_index wf t Ht) as (k & _ & _ & Hr).
  assert (Hlen' : Z.of_nat (List.length
            (alter (fun v => (v + 1) mod 2 ^ 64) i counter))
          = PDU_COUNTER_SIZE) by (by rewrite length_alter).
  split; [by apply get_count_known|].
  split; [by apply count_known|].
  split; [by apply alter_is_counter|].
  split.
  - rewrite get_count_known by done. fold i.
    rewrite list_lookup_alter_eq.
    destruct (lookup_lt_is_Some_2 counter i) as [v Hv]; [lia|].
    by rewrite Hv.
  - intros t' Ht' Hne. rewrite !get_count_known by done. fold i.
    rewrite list_lookup_alter_ne; [done|].
    destruct (PduCounterFacts.type_index wf t' Ht') as (k' & _ & _ & Hr').
    intros Heq. apply Hne.
    apply (PduCounterFacts.type_index_inj wf); [done..|]. unfold i in Heq. lia.
Qed.

Lemma pdu_counter_count_then_get_witness :
  let counter := [0; 7; 0; 0; 2 ^ 64 - 1; 0; 0; 0; 0; 0] in
  (@well_formed iso10589 /\ @is_counter iso10589 counter
   /\ 20 ∈ @pdu_types iso10589)
  /\ exists counter' v,
       @pdu_counter_get_count iso10589 counter 20 = Ok v
       /\ @pdu_counter_count iso10589 counter 20 = Ok counter'
       /\ @is_counter iso10589 counter'
       /\ @pdu_counter_get_count iso10589 counter' 20 = Ok ((v + 1) mod 2 ^ 64)
       /\ forall t', t' ∈ @pdu_types iso10589 -> t' <> 20 ->
            @pdu_counter_get_count iso10589 counter' t'
            = @pdu_counter_get_count iso10589 counter t'.
Proof.
  assert (Hc : @is_counter iso10589 [0; 7; 0; 0; 2 ^ 64 - 1; 0; 0; 0; 0; 0])
    by (split; [reflexivity|compute_done]).
  assert (Ht : 20 ∈ @pdu_types iso10589) by compute_done.
  split; [by split; [apply iso10589_well_formed|]|].
  exact (@pdu_counter_count_then_get iso10589 _ 20 iso10589_well_formed Hc Ht).
Defined.

(** X21: after [pdu_counter_count] was called with a list of arguments, in
    any order and with types that are not counted among them,
    [pdu_counter_get_count] of a counted type has grown, modulo 2^64, by
    the number of arguments that are this type once they are converted to
    [uint8_t], as the parameter has it: for arguments that are bytes, by
    the number of PDUs of this type. *)
Theorem pdu_counter_counts_occurrences `{constants} counter0 types t :
  well_formed -> is_counter counter0 -> t ∈ pdu_types ->
  exists counter v0,
    count_all counter0 types = Ok counter
    /\ is_counter counter
    /\ pdu_counter_get_count counter0 t = Ok v0
    /\ pdu_counter_get_count counter t
       = Ok ((v0 + Z.of_nat (List.length
                               (filter (fun x => uint8_t x = t) types)))
             mod 2 ^ 64).
Proof.
  intros wf Hc0 Ht. revert counter0 Hc0.
  induction types as [|t' types IH]; intros counter0 Hc0.
  - destruct (pdu_counter_count_then_get_aux counter0 t wf Hc0 Ht)
      as (v0 & Hv0 & Hr). exists counter0, v0. simpl.
    split; [done|]. split; [done|]. split; [done|].
    rewrite Hv0. f_equal. rewrite Z.add_0_r. symmetry. by apply Z.mod_small.
  - cbn [count_all]. rewrite <- (PduCounterFacts.count_uint8_t counter0 t').
    rewrite filter_cons. set (u := uint8_t t').
    destruct (decide (u ∈ pdu_types)) as [Hin|Hout].
    + rewrite count_known by (done || by destruct Hc0). simpl.
      set (c1 := alter _ _ counter0).
      assert (Hc1 : is_counter c1) by (by apply alter_is_counter).
      destruct (IH c1 Hc1) as (counter & v1 & Hrun & Hc & Hv1 & Hget).
      destruct (pdu_counter_count_then_get_aux counter0 t wf Hc0 Ht)
        as (v0 & Hv0 & Hr).
      exists counter, v0. split; [done|]. split; [done|]. split; [done|].
      rewrite Hget. f_equal.
      assert (Hc0' := Hc0). destruct Hc0' as [Hlen _].
      rewrite (get_count_known c1 t wf (proj1 Hc1) Ht) in Hv1.
      rewrite (get_count_known counter0 t wf Hlen Ht) in Hv0.
      injection Hv1 as <-. injection Hv0 as <-. unfold c1.
      destruct (decide (u = t)) as [->|Hne].
      * rewrite list_lookup_alter_eq.
        destruct (PduCounterFacts.type_index wf t Ht) as (k & _ & _ & Hrange).
        destruct (lookup_lt_is_Some_2 counter0
                    (Z.to_nat (pdu_type_to_counter_index t))) as [v Hv]; [lia|].
        rewrite Hv. simpl. rewrite Zplus_mod_idemp_l. f_equal. lia.
      * rewrite list_lookup_alter_ne; [done|].
        destruct (PduCounterFacts.type_index wf t Ht) as (k & _ & _ & Hrange).
        destruct (PduCounterFacts.type_index wf u Hin) as (k' & _ & _ & Hrange').
        intros Heq. apply Hne.
        apply (PduCounterFacts.type_index_inj wf); [done..|]. lia.
    + rewrite count_unknown
        by (unfold u; by rewrite PduCounterFacts.uint8_t_idem).
      simpl.
      destruct (IH counter0 Hc0) as (counter & v0 & Hrun & Hc & Hv0 & Hget).
      exists counter, v0. split; [done|]. split; [done|]. split; [done|].
      rewrite Hget.
      destruct (decide (u = t)) as [Heq|Hne]; [|done].
      exfalso. apply Hout. by rewrite Heq.
Qed.

Lemma pdu_counter_counts_occurrences_witness :
  let zero := replicate 10 0 in
  (@well_formed iso10589 /\ @is_counter iso10589 zero
   /\ 18 ∈ @pdu_types iso10589)
  /\ exists counter v0,
       @count_all iso10589 zero [18; 15; 99; 274; 27; 18] = Ok counter
       /\ @is_counter iso10589 counter
       /\ @pdu_counter_get_count iso10589 zero 18 = Ok v0
       /\ @pdu_counter_get_count iso10589 counter 18
          = Ok ((v0 + Z.of_nat (List.length
                                  (filter (fun x => uint8_t x = 18)
                                          [18; 15; 99; 274; 27; 18])))
                mod 2 ^ 64).
Proof.
  assert (Hc : @is_counter iso10589 (replicate 10 0))
    by (split; [reflexivity|compute_done]).
  assert (Ht : 18 ∈ @pdu_types iso10589) by compute_done.
  split; [by split; [apply iso10589_well_formed|]|].
  exact (@pdu_counter_counts_occurrences iso10589 _ [18; 15; 99; 274; 27; 18]
           18 iso10589_well_formed Hc Ht).
Defined.

(** X22: [pdu_counter_count_drop] of a counted type counts the PDU in the
    drop counters of the area; with [log_pdu_drops] set it logs the name of
    the type, the ten counts as [pdu_counter_get_count] returns them and,
    as the total, their sum modulo 2^64; without it nothing is logged. *)
Theorem pdu_counter_count_drop_total `{constants} area t :
  well_formed -> is_counter (pdu_drop_counters area) -> t ∈ pdu_types ->
  exists counter name counts,
    pdu_counter_count (pdu_drop_counters area) t = Ok counter
    /\ pdu_counter_index_to_name (pdu_type_to_counter_index t) = Ok name
    /\ omap (pdu_counter_get_count counter) pdu_types = Ok counts
    /\ pdu_counter_count_drop area t
       = Ok ({| pdu_drop_counters := counter;
                log_pdu_drops := log_pdu_drops area |},
             if log_pdu_drops area
             then Some {| drop_type_name := name;
                          total_drops := foldr Z.add 0 counts mod 2 ^ 64;
                          drops_by_type := counts |}
             else None).
Proof.
  intros wf Hc Ht. pose proof Hc as [Hlen Hall].
  set (counter := alter (fun v => (v + 1) mod 2 ^ 64)
                        (Z.to_nat (pdu_type_to_counter_index t))
                        (pdu_drop_counters area)).
  assert (Hc' : is_counter counter) by (by apply alter_is_counter).
  destruct (PduCounterFacts.type_index wf t Ht) as (k & _ & _ & Hrange).
  destruct (PduCounterFacts.name_of_index wf (pdu_type_to_counter_index t))
    as (name & Hname & _); [lia|].
  destruct (drops_sum counter wf (proj1 Hc')) as [Hcounts Hsum].
  exists counter, name. eexists.
  split; [by apply count_known|]. split; [done|]. split; [exact Hcounts|].
  unfold pdu_counter_count_drop. cbv zeta.
  rewrite PduCounterFacts.count_uint8_t, PduCounterFacts.index_uint8_t.
  rewrite count_known by done.
  cbn [obind pdu_drop_counters log_pdu_drops].
  destruct (log_pdu_drops area); [|done].
  fold counter. rewrite count_total_sum; [|..|lia].
  - cbn [obind]. rewrite Hname. cbn [obind]. rewrite Hcounts. cbn [obind].
    rewrite Z.add_0_l, <- Hsum. done.
  - apply Forall_forall. intros i Hi. apply elem_of_seq in Hi.
    apply lookup_lt_is_Some_2. destruct Hc' as [Hl _]. lia.
Qed.

Lemma pdu_counter_count_drop_total_witness :
  let area := {| pdu_drop_counters := [3; 0; 0; 0; 2 ^ 64 - 1; 0; 0; 0; 0; 1];
                 log_pdu_drops := true |} in
  (@well_formed iso10589 /\ @is_counter iso10589 (pdu_drop_counters area)
   /\ 20 ∈ @pdu_types iso10589)
  /\ @pdu_counter_count_drop iso10589 area 20
     = Ok ({| pdu_drop_counters := [3; 0; 0; 0; 0; 0; 0; 0; 0; 1];
              log_pdu_drops := true |},
           Some {| drop_type_name := " L2 LSP"; total_drops := 4;
                   drops_by_type := [3; 0; 0; 0; 0; 0; 0; 0; 0; 1] |}).
Proof.
  set (area := {| pdu_drop_counters := [3; 0; 0; 0; 2 ^ 64 - 1; 0; 0; 0; 0; 1];
                  log_pdu_drops := true |}).
  assert (Hc : @is_counter iso10589 (pdu_drop_counters area))
    by (split; [reflexivity|compute_done]).
  assert (Ht : 20 ∈ @pdu_types iso10589) by compute_done.
  split; [by split; [apply iso10589_well_formed|]|].
  destruct (@pdu_counter_count_drop_total iso10589 area 20
              iso10589_well_formed Hc Ht)
    as (counter & name & counts & Hcount & Hname & Hcounts & ->).
  vm_compute in Hcount, Hname, Hcounts.
  injection Hcount as <-. injection Hname as <-. injection Hcounts as <-.
  reflexivity.
Defined.

(** X23: a PDU of a type that, as a [uint8_t], is not counted leaves the
    counters, and [pdu_counter_get_count] returns [UINT64_MAX] for it; but
    [pdu_counter_count_drop] of such a type fails the assertion of
    [pdu_counter_index_to_name] when [log_pdu_drops] is set. *)
Theorem pdu_counter_unknown_type `{constants} area t :
  well_formed -> is_counter (pdu_drop_counters area) ->
  uint8_t t ∉ pdu_types ->
  pdu_counter_count (pdu_drop_counters area) t = Ok (pdu_drop_counters area)
  /\ pdu_counter_get_count (pdu_drop_counters area) t = Ok UINT64_MAX
  /\ pdu_counter_count_drop area t
     = if log_pdu_drops area then Fault AssertionFailed else Ok (area, None).
Proof.
  intros wf [Hlen Hall] Ht.
  split; [by apply count_unknown|].
  split.
  { unfold pdu_counter_get_count. cbv zeta.
    by rewrite PduCounterFacts.index_uint8_t, PduCounterFacts.type_unknown. }
  unfold pdu_counter_count_drop. cbv zeta.
  rewrite PduCounterFacts.count_uint8_t, PduCounterFacts.index_uint8_t.
  rewrite count_unknown by done.
  cbn [obind pdu_drop_counters log_pdu_drops].
  destruct area as [counter []]; cbn [pdu_drop_counters log_pdu_drops] in *;
    [|done].
  rewrite count_total_sum; [|..|lia].
  - cbn [obind]. rewrite PduCounterFacts.type_unknown by done.
    by rewrite PduCounterFacts.name_of_no_index.
  - apply Forall_forall. intros i Hi. apply elem_of_seq in Hi.
    apply lookup_lt_is_Some_2. lia.
Qed.

Lemma pdu_counter_unknown_type_witness :
  let area := {| pdu_drop_counters := replicate 10 0;
                 log_pdu_drops := true |} in
  (@well_formed iso10589 /\ @is_counter iso10589 (pdu_drop_counters area)
   /\ uint8_t 287 ∉ @pdu_types iso10589)
  /\ @pdu_counter_count iso10589 (pdu_drop_counters area) 287
     = Ok (pdu_drop_counters area)
  /\ @pdu_counter_get_count iso10589 (pdu_drop_counters area) 287
     = Ok UINT64_MAX
  /\ @pdu_counter_count_drop iso10589 area 287 = Fault AssertionFailed.
Proof.
  set (area := {| pdu_drop_counters := replicate 10 0;
                  log_pdu_drops := true |}).
  assert (Hc : @is_counter iso10589 (pdu_drop_counters area))
    by (split; [reflexivity|compute_done]).
  assert (Ht : uint8_t 287 ∉ @pdu_types iso10589) by compute_done.
  split; [by split; [apply iso10589_well_formed|]|].
  exact (@pdu_counter_unknown_type iso10589 area 287
           iso10589_well_formed Hc Ht).
Defined.

Lemma print_from_lines `{constants} prefix counter a n :
  well_formed -> is_counter counter ->
  (a + n = List.length counter)%nat ->
  exists lines,
    print_from prefix counter (seq a n) = Ok lines
    /\ List.length lines
       = List.length (filter (fun v => v <> 0) (drop a counter))
    /\ Forall (fun line => exists name v,
                 line = counter_line prefix name v
                 /\ String.length name = 7%nat /\ v ∈ counter /\ v <> 0)
              lines.
Proof.
  intros wf [Hlen Hall]. revert a.
  induction n as [|n IH]; intros a Ha; simpl.
  - exists []. rewrite drop_ge by lia. done.
  - destruct (lookup_lt_is_Some_2 counter a) as [v Hv]; [lia|].
    unfold counter_at. destruct (Z.ltb_spec (Z.of_nat a) 0); [lia|].
    rewrite Nat2Z.id, Hv. cbn [obind].
    rewrite (drop_S _ _ _ Hv), filter_cons.
    destruct (IH (S a)) as (lines & Hrun & Hl & Hf); [lia|].
    destruct (Z.eqb_spec v 0) as [->|Hne].
    + exists lines. by destruct (decide (0 <> 0)).
    + destruct (PduCounterFacts.name_of_index wf (Z.of_nat a))
        as (name & -> & Hname); [lia|].
      cbn [obind]. rewrite Hrun. cbn [obind].
      exists (counter_line prefix name v :: lines).
      split; [done|]. split.
      * destruct (decide (v <> 0)); [|done]. simpl. by rewrite Hl.
      * apply Forall_cons. split; [|done]. exists name, v.
        split; [done|]. split; [done|]. split; [|done].
        by eapply list_elem_of_lookup_2.
Qed.


